(** * Expense-AI: receipt field extraction and the deterministic policy engine

    A shallow embedding of [Backend/app/services/receipt_parser.py],
    [policy_engine.py], [rule_summaries.py], [mock_explainer.py] and the
    pure part of [ocr_tesseract.py], followed by the properties of the
    extraction pipeline, of the compliance verdict and of its explanation.

    Conventions of the embedding.
    - A Python [str] is the list of the bytes of its UTF-8 encoding; on ASCII
      text ([str.isascii]) a byte is a character.  Equality, concatenation,
      the search for a literal and the classes [[0-9]] and [[A-Za-z]] read a
      text alike on its bytes and on its characters.  What the interpreter
      takes from its Unicode tables ([len], [str.strip], [str.split],
      [str.splitlines], [str.lower], [str.isdigit], the regex classes [\s],
      [\d], [\w] and [\b], and [float()] on a string) is embedded as it acts
      on ASCII text, where the embedding is exact.  A property that depends
      on one of these is stated for ASCII text, or for every function in the
      place of [str.lower] or [float()]; a property stated for every text
      holds whatever the tables say.
    - A Python [float] is a primitive binary64 number.  Decimal text is
      converted with a single correct rounding, as [float()] and [round()] do,
      and [format(x, ".2f")] rounds the exact binary value half-to-even.
    - A [try]/[except] block is a computation into [option]: [None] is the
      raised exception, and the handler is the [None] branch of the caller.
    - [uuid.uuid4()] is an input of [parse_receipt_fields], and so is the
      builtin [sum], whose rounding differs between interpreter versions.
    - The OCR engine is an input of [ocr_with_conf]: its two calls are
      functions of the preprocessed image and the segmentation mode. *)

From Stdlib Require Import String Ascii ZArith NArith List Bool Lia Floats.
From Stdlib Require Import Permutation.
From Stdlib Require Uint63.
From Stdlib Require Import DecimalString DecimalPos.
Import ListNotations.

Set Warnings "-inexact-float".

(* ================================================================== *)
(** * Python strings *)
(* ================================================================== *)

Module PyStr.

Definition str := list ascii.

(** A string literal of the source. *)
Definition lit (s : string) : str := list_ascii_of_string s.

Definition code (c : ascii) : nat := nat_of_ascii c.

(** [s.isascii()] *)
Definition isascii (s : str) : bool :=
  forallb (fun c => Nat.ltb (code c) 128) s.

Definition in_range (lo hi : nat) (c : ascii) : bool :=
  Nat.leb lo (code c) && Nat.leb (code c) hi.

(** [[0-9]], which is also [\d] and [str.isdigit] on ASCII text. *)
Definition is_digit (c : ascii) : bool := in_range 48 57 c.

(** [[A-Za-z]]. *)
Definition is_alpha (c : ascii) : bool := in_range 65 90 c || in_range 97 122 c.

(** [str.isspace] and the regex class [\s] on ASCII: TAB, LF, VT, FF, CR, the
    four separators FS, GS, RS, US, and the space. *)
Definition is_space (c : ascii) : bool := in_range 9 13 c || in_range 28 32 c.

(** The regex class [\w] on ASCII text. *)
Definition is_word (c : ascii) : bool :=
  is_alpha c || is_digit c || Nat.eqb (code c) 95.

Definition lower_char (c : ascii) : ascii :=
  if in_range 65 90 c then ascii_of_nat (code c + 32) else c.

(** [s.lower()] on ASCII text; other bytes are left as they are. *)
Definition lower (s : str) : str := map lower_char s.

Definition nonempty (s : str) : bool :=
  match s with [] => false | _ :: _ => true end.

Fixpoint str_eqb (a b : str) : bool :=
  match a, b with
  | [], [] => true
  | x :: a', y :: b' => Ascii.eqb x y && str_eqb a' b'
  | _, _ => false
  end.

Fixpoint starts_with (p s : str) : bool :=
  match p, s with
  | [], _ => true
  | a :: p', b :: s' => Ascii.eqb a b && starts_with p' s'
  | _ :: _, [] => false
  end.

(** [p in s] *)
Fixpoint contains (p s : str) : bool :=
  starts_with p s ||
  match s with
  | [] => false
  | _ :: s' => contains p s'
  end.

(** [x in xs] for a list or set of strings. *)
Definition str_in (x : str) (xs : list str) : bool := existsb (str_eqb x) xs.

(** [s.replace(",", ".")] *)
Definition replace_char (a b : ascii) (s : str) : str :=
  map (fun c => if Ascii.eqb c a then b else c) s.

Fixpoint drop_while (p : ascii -> bool) (s : str) : str :=
  match s with
  | [] => []
  | c :: s' => if p c then drop_while p s' else s
  end.

Definition strip_with (p : ascii -> bool) (s : str) : str :=
  rev (drop_while p (rev (drop_while p s))).

(** [s.strip()], the blanks being those of ASCII. *)
Definition strip (s : str) : str := strip_with is_space s.

(** [re.sub(r"\s+", " ", s)]: [in_run] tells that the previous character
    belonged to the run of blanks already replaced. *)
Fixpoint collapse_spaces (in_run : bool) (s : str) : str :=
  match s with
  | [] => []
  | c :: s' =>
      if is_space c
      then if in_run then collapse_spaces true s'
           else " "%char :: collapse_spaces true s'
      else c :: collapse_spaces false s'
  end.

(** [s.split()]: the maximal runs of non-blank characters, the blanks being
    those of ASCII. *)
Fixpoint split_aux (cur : str) (s : str) : list str :=
  match s with
  | [] => if nonempty cur then [cur] else []
  | c :: s' =>
      if is_space c
      then if nonempty cur then cur :: split_aux [] s' else split_aux [] s'
      else split_aux (cur ++ [c]) s'
  end.

Definition split (s : str) : list str := split_aux [] s.

(** The ASCII line boundaries of [str.splitlines]: LF, VT, FF, CR, FS, GS, RS. *)
Definition is_linebreak (c : ascii) : bool := in_range 10 13 c || in_range 28 30 c.

(** [s.splitlines()]: [after_cr] makes the LF of a CR LF pair part of the
    boundary the CR opened; a last line is produced only when it is not empty. *)
Fixpoint splitlines_aux (after_cr : bool) (cur : str) (s : str) : list str :=
  match s with
  | [] => if nonempty cur then [cur] else []
  | c :: s' =>
      if Nat.eqb (code c) 10 && after_cr then splitlines_aux false cur s'
      else if is_linebreak c
           then cur :: splitlines_aux (Nat.eqb (code c) 13) [] s'
           else splitlines_aux false (cur ++ [c]) s'
  end.

Definition splitlines (s : str) : list str := splitlines_aux false [] s.

(** [xs[-n:]] for a positive [n]. *)
Definition last_n {A : Type} (n : nat) (xs : list A) : list A :=
  skipn (length xs - n) xs.

End PyStr.
Export PyStr.

(* ================================================================== *)
(** * The regular expressions of the parser *)
(* ================================================================== *)

(** Every pattern of the source is a sequence of character classes with a
    repetition count, literals and word boundaries.  A repetition is matched
    greedily and never given back: in each pattern a repeated class is
    followed by a class disjoint from it, or by a boundary that a shorter
    repetition cannot satisfy either, so the backtracking of [re] finds a
    match exactly when the greedy attempt does, and finds that one.  The
    classes [\s], [\d] and [\w] and the boundary [\b] are those of ASCII
    text; literals and the classes [[0-9]], [[.,]] and [[./-]] are the same
    on every text. *)

Module Regex.

Inductive atom :=
| Cls (p : ascii -> bool) (lo : nat) (hi : option nat)  (** [p{lo,hi}] *)
| Lit (w : str)
| Bnd.                                                 (** [\b] *)

Definition pattern := list atom.

(** The longest prefix of [s], of at most [hi] characters, all in [p]. *)
Fixpoint span (p : ascii -> bool) (hi : option nat) (s : str) : str * str :=
  match s with
  | [] => ([], [])
  | c :: s' =>
      match hi with
      | Some O => ([], s)
      | _ =>
          if p c
          then let (t, r) := span p (option_map pred hi) s' in (c :: t, r)
          else ([], s)
      end
  end.

Definition is_word_opt (c : option ascii) : bool :=
  match c with Some c => is_word c | None => false end.

(** [\b] between the character before the position and the one at it. *)
Definition at_boundary (prev : option ascii) (s : str) : bool :=
  xorb (is_word_opt prev) (is_word_opt (hd_error s)).

(** The character before the position reached after reading [t]. *)
Definition prev_after (prev : option ascii) (t : str) : option ascii :=
  last (map Some t) prev.

(** [re.match] at a position: the matched text and what follows it. *)
Fixpoint match_here (pat : pattern) (prev : option ascii) (s : str)
  : option (str * str) :=
  match pat with
  | [] => Some ([], s)
  | Bnd :: pat' => if at_boundary prev s then match_here pat' prev s else None
  | Cls p lo hi :: pat' =>
      let (t, r) := span p hi s in
      if Nat.ltb (length t) lo then None
      else match match_here pat' (prev_after prev t) r with
           | Some (m, r') => Some (t ++ m, r')
           | None => None
           end
  | Lit w :: pat' =>
      if starts_with w s
      then match match_here pat' (prev_after prev w) (skipn (length w) s) with
           | Some (m, r') => Some (w ++ m, r')
           | None => None
           end
      else None
  end.

(** The alternatives of [a|b|...], tried in order at one position. *)
Fixpoint first_alt (alts : list pattern) (prev : option ascii) (s : str)
  : option str :=
  match alts with
  | [] => None
  | p :: alts' =>
      match match_here p prev s with
      | Some (m, _) => Some m
      | None => first_alt alts' prev s
      end
  end.

(** [re.search]: the match at the leftmost position that has one. *)
Fixpoint search_from (alts : list pattern) (prev : option ascii) (s : str)
  : option str :=
  match first_alt alts prev s with
  | Some m => Some m
  | None =>
      match s with
      | [] => None
      | c :: s' => search_from alts (Some c) s'
      end
  end.

Definition search (alts : list pattern) (s : str) : option str :=
  search_from alts None s.

(** [re.finditer] for a pattern whose matches are not empty: after a match
    the scan resumes behind it, [skip] counting the characters still covered
    by the last match. *)
Fixpoint finditer_from (pat : pattern) (skip : nat) (prev : option ascii)
  (s : str) : list str :=
  match s with
  | [] => []
  | c :: s' =>
      match skip with
      | S k => finditer_from pat k (Some c) s'
      | O =>
          match match_here pat prev s with
          | Some (m, _) => m :: finditer_from pat (pred (length m)) (Some c) s'
          | None => finditer_from pat O (Some c) s'
          end
      end
  end.

Definition finditer (pat : pattern) (s : str) : list str :=
  finditer_from pat O None s.

End Regex.
Export Regex.

(* ================================================================== *)
(** * Python floats *)
(* ================================================================== *)

Module PyFloat.

(** The binary64 number nearest to [mant * 10 ^ exp10] (ties to even), with
    the sign [neg]: what [float()] makes of a decimal numeral.  The quotient
    is rounded once, from the exact integers; a value beyond the range
    becomes an infinity. *)
Definition float_of_decimal (neg : bool) (mant : Z) (exp10 : Z) : float :=
  match mant with
  | Zpos m =>
      if (0 <=? exp10)%Z
      then SF2Prim (binary_normalize prec emax
                      (cond_Zopp neg (mant * 10 ^ exp10)) 0 false)
      else SF2Prim (SFdiv prec emax (S754_finite neg m 0)
                      (S754_finite false (Z.to_pos (10 ^ (- exp10))) 0))
  | _ => if neg then neg_zero else zero
  end.

Definition digit_val (c : ascii) : Z := Z.of_nat (code c - 48).

Definition Z_of_digits (ds : str) : Z :=
  fold_left (fun acc c => (10 * acc + digit_val c)%Z) ds 0%Z.

(** The blanks [float()] strips from an ASCII string: the C [isspace] set. *)
Definition is_c_space (c : ascii) : bool := in_range 9 13 c || Nat.eqb (code c) 32.

Definition is_underscore (c : ascii) : bool := Nat.eqb (code c) 95.

(** An underscore of a numeral stands between two digits. *)
Fixpoint underscores_ok (prev : option ascii) (s : str) : bool :=
  match s with
  | [] => negb (match prev with Some p => is_underscore p | None => false end)
  | c :: s' =>
      (if is_underscore c
       then match prev with Some p => is_digit p | None => false end
       else match prev with
            | Some p => if is_underscore p then is_digit c else true
            | None => true
            end)
      && underscores_ok (Some c) s'
  end.

Definition parse_sign (s : str) : bool * str :=
  match s with
  | c :: r =>
      if Ascii.eqb c "-" then (true, r)
      else if Ascii.eqb c "+" then (false, r)
      else (false, s)
  | [] => (false, s)
  end.

(** digits, an optional point and fraction, an optional exponent; at least
    one digit before the exponent, and nothing after the numeral.  The result
    is the integer of all digits and the power of ten it is scaled by. *)
Definition parse_number (s : str) : option (Z * Z) :=
  let (ip, r1) := span is_digit None s in
  let (fp, r2) :=
    match r1 with
    | c :: r => if Ascii.eqb c "." then span is_digit None r else ([], r1)
    | [] => ([], r1)
    end in
  if Nat.eqb (length ip + length fp) 0 then None
  else
    let mant := Z_of_digits (ip ++ fp) in
    let scale := (- Z.of_nat (length fp))%Z in
    match r2 with
    | [] => Some (mant, scale)
    | c :: r3 =>
        if Ascii.eqb c "e" || Ascii.eqb c "E"
        then let (eneg, r4) := parse_sign r3 in
             let (ed, r5) := span is_digit None r4 in
             if Nat.eqb (length ed) 0 || nonempty r5 then None
             else Some (mant, (cond_Zopp eneg (Z_of_digits ed) + scale)%Z)
        else None
    end.

(** [float(s)] for a string: [None] is the [ValueError]. *)
Definition py_float (s : str) : option float :=
  let s1 := strip_with is_c_space s in
  if negb (underscores_ok None s1) then None
  else
    let s2 := filter (fun c => negb (is_underscore c)) s1 in
    let (neg, body) := parse_sign s2 in
    let low := lower body in
    if str_eqb low (lit "inf") || str_eqb low (lit "infinity")
    then Some (if neg then neg_infinity else infinity)
    else if str_eqb low (lit "nan") then Some nan
    else match parse_number body with
         | Some (mant, e) => Some (float_of_decimal neg mant e)
         | None => None
         end.

(** [n / d] rounded to the nearest integer, a tie to the even one ([d > 0]). *)
Definition round_half_even (n d : Z) : Z :=
  let q := (n / d)%Z in
  match (2 * (n mod d) ?= d)%Z with
  | Lt => q
  | Gt => (q + 1)%Z
  | Eq => if Z.even q then q else (q + 1)%Z
  end.

(** [|x| * 100] rounded to an integer, for the finite [x = m * 2 ^ e]. *)
Definition hundredths (m : positive) (e : Z) : Z :=
  if (0 <=? e)%Z then (Zpos m * 2 ^ e * 100)%Z
  else round_half_even (Zpos m * 100) (2 ^ (- e)).

Definition digit_char (d : Z) : ascii := ascii_of_nat (48 + Z.to_nat d).

Definition digits_of_Z (n : Z) : str :=
  list_ascii_of_string (NilEmpty.string_of_uint (N.to_uint (Z.to_N n))).

Definition sign_str (s : bool) : str := if s then lit "-" else [].

(** [f"{x:.2f}"] *)
Definition format_2f (x : float) : str :=
  match Prim2SF x with
  | S754_nan => lit "nan"
  | S754_infinity s => sign_str s ++ lit "inf"
  | S754_zero s => sign_str s ++ lit "0.00"
  | S754_finite s m e =>
      let h := hundredths m e in
      sign_str s ++ digits_of_Z (h / 100) ++ lit "."
        ++ [digit_char (h mod 100 / 10); digit_char (h mod 10)]
  end.

(** [round(x, 2)]: the decimal with two places nearest to [x], read back as
    a float; infinities and NaN round to themselves. *)
Definition round2 (x : float) : float :=
  match Prim2SF x with
  | S754_finite s m e => float_of_decimal s (hundredths m e) (-2)
  | _ => x
  end.

(** The builtins [min(a, b)] and [max(a, b)]: the first argument, unless the
    second compares strictly beyond it. *)
Definition py_min2 (a b : float) : float := if (b <? a)%float then b else a.
Definition py_max2 (a b : float) : float := if (a <? b)%float then b else a.

(** [max(xs)] for a list that is not empty. *)
Definition py_max (x : float) (xs : list float) : float := fold_left py_max2 xs x.

(** [float(n)] for a list length. *)
Definition float_of_nat (n : nat) : float :=
  float_of_decimal false (Z.of_nat n) 0.

End PyFloat.
Export PyFloat.

(* ================================================================== *)
(** * The data exchanged by the parser and the policy engine *)
(* ================================================================== *)

Module Data.

(** An OCR word [{"text": ..., "conf": ...}].  [text] is [None] when the key
    is absent or holds [None]; [conf] is [None] when the key holds no number
    (an absent key reads as [-1.0] and is rejected with the negative ones). *)
Record OcrWord := { text : option str; conf : option float }.

(** What a ["confidence"] entry may hold: a number, a string, anything else. *)
Inductive pyval :=
| VFloat (f : float)
| VStr (s : str)
| VOther.

(** A field [{"value": ..., "confidence": ...}]; [None] is an absent key. *)
Record Field := { value : option str; confidence : option pyval }.

(** A [dict] from field names to fields, in insertion order. *)
Definition FieldMap := list (str * Field).

(** [fields.get(f)] *)
Fixpoint get (fields : FieldMap) (f : str) : option Field :=
  match fields with
  | [] => None
  | (k, v) :: rest => if str_eqb k f then Some v else get rest f
  end.

Record Receipt := { receipt_id : str; fields : FieldMap }.

End Data.
Export Data.

(* ================================================================== *)
(** * receipt_parser.py *)
(* ================================================================== *)

Module ReceiptParser.

Definition is_sep (c : ascii) : bool :=
  Ascii.eqb c "." || Ascii.eqb c "/" || Ascii.eqb c "-".

Definition is_dot_or_comma (c : ascii) : bool :=
  Ascii.eqb c "." || Ascii.eqb c ",".

(** [(EUR|€|USD|\$|GBP|£|INR|₹)] *)
Definition CURRENCY_REGEX : list pattern :=
  [ [Lit (lit "EUR")]; [Lit (lit "€")]; [Lit (lit "USD")]; [Lit (lit "$")];
    [Lit (lit "GBP")]; [Lit (lit "£")]; [Lit (lit "INR")]; [Lit (lit "₹")] ].

(** [([0-9]+[.,][0-9]{2})] *)
Definition AMOUNT_REGEX : pattern :=
  [ Cls is_digit 1 None; Cls is_dot_or_comma 1 (Some 1);
    Cls is_digit 2 (Some 2) ].

(** [\b(\d{4}[./-]\d{2}[./-]\d{2})\b] and [\b(\d{2}[./-]\d{2}[./-]\d{2,4})\b] *)
Definition DATE_REGEXES : list pattern :=
  [ [ Bnd; Cls is_digit 4 (Some 4); Cls is_sep 1 (Some 1);
      Cls is_digit 2 (Some 2); Cls is_sep 1 (Some 1);
      Cls is_digit 2 (Some 2); Bnd ];
    [ Bnd; Cls is_digit 2 (Some 2); Cls is_sep 1 (Some 1);
      Cls is_digit 2 (Some 2); Cls is_sep 1 (Some 1);
      Cls is_digit 2 (Some 4); Bnd ] ].

(** [\b(\d{4}\s*[./-]\s*\d{2}\s*[./-]\s*\d{2})\b] *)
Definition SPACED_DATE_REGEX : pattern :=
  [ Bnd; Cls is_digit 4 (Some 4); Cls is_space 0 None; Cls is_sep 1 (Some 1);
    Cls is_space 0 None; Cls is_digit 2 (Some 2); Cls is_space 0 None;
    Cls is_sep 1 (Some 1); Cls is_space 0 None; Cls is_digit 2 (Some 2); Bnd ].

Definition NOISE_PREFIXES : list str :=
  [ lit "duplicate"; lit "copy"; lit "merchant copy"; lit "customer copy";
    lit "thank you"; lit "tax invoice"; lit "invoice"; lit "receipt" ].

Definition _clean_line (s : str) : str := collapse_spaces false (strip s).

(** [len(low)] is the number of bytes, which is the number of characters of
    an ASCII line. *)
Definition _is_noise_line (line : str) : bool :=
  let low := lower line in
  if Nat.ltb (length low) 3 then true
  else existsb (fun p => contains p low) NOISE_PREFIXES.

Definition _normalize_amount (s : str) : str :=
  if negb (nonempty s) then []
  else filter (fun c => is_digit c || Ascii.eqb c ".")
         (replace_char "," "." (strip s)).

Definition _find_date (text : str) : str * float :=
  match search [SPACED_DATE_REGEX] text with
  | Some m => (filter (fun c => negb (is_space c)) m, 0.8%float)
  | None =>
      match search [nth 0 DATE_REGEXES []] text with
      | Some m => (m, 0.75%float)
      | None =>
          match search [nth 1 DATE_REGEXES []] text with
          | Some m => (m, 0.75%float)
          | None => ([], 0.3%float)
          end
      end
  end.

Definition _find_currency (text : str) : str * float :=
  match search CURRENCY_REGEX text with
  | Some m => (m, 0.9%float)
  | None => (lit "EUR", 0.6%float)
  end.

(** The loop of [_extract_amount_on_lines] over [reversed(lines)]. *)
Fixpoint amount_on_lines (key : str) (avoid : option str) (rlines : list str)
  : option str :=
  match rlines with
  | [] => None
  | line :: rest =>
      let low := lower line in
      if contains key low
      then
        if match avoid with
           | Some a => nonempty a && contains a low
           | None => false
           end
        then amount_on_lines key avoid rest
        else
          match rev (finditer AMOUNT_REGEX (replace_char "," "." line)) with
          | m :: _ => Some m
          | [] => amount_on_lines key avoid rest
          end
      else amount_on_lines key avoid rest
  end.

Definition _extract_amount_on_lines (lines : list str) (keyword : str)
  (avoid_keyword : option str) : option str :=
  let key := lower keyword in
  let avoid :=
    match avoid_keyword with
    | Some a => if nonempty a then Some (lower a) else None
    | None => None
    end in
  amount_on_lines key avoid (rev lines).

Definition _extract_all_amounts (lines : list str) (last_n_lines : nat)
  : list float :=
  flat_map
    (fun line =>
       flat_map (fun m => match py_float m with Some x => [x] | None => [] end)
         (finditer AMOUNT_REGEX (replace_char "," "." line)))
    (last_n last_n_lines lines).

(** [not x] for an optional string. *)
Definition falsy (o : option str) : bool :=
  match o with Some s => negb (nonempty s) | None => true end.

Definition or_else (o : option str) (alt : option str) : option str :=
  if falsy o then alt else o.

Definition normalized (o : option str) : str :=
  match o with
  | Some s => if nonempty s then _normalize_amount s else []
  | None => []
  end.

(** The three normalized amounts [(total_n, subtotal_n, tax_n)] that
    [_find_total] reads off the lines. *)
Definition total_inputs (lines : list str) : str * str * str :=
  let total := _extract_amount_on_lines lines (lit "total") (Some (lit "sub")) in
  let total := or_else total (_extract_amount_on_lines lines (lit "amount due") None) in
  let total := or_else total (_extract_amount_on_lines lines (lit "balance due") None) in
  let subtotal := _extract_amount_on_lines lines (lit "sub total") None in
  let subtotal := or_else subtotal (_extract_amount_on_lines lines (lit "subtotal") None) in
  let tax := _extract_amount_on_lines lines (lit "tax") None in
  (normalized total, normalized subtotal, normalized tax).

(** The [try] block of the reconciliation; [None] is the exception that the
    handler swallows. *)
Definition reconcile (total_n subtotal_n tax_n : str) : option (str * float) :=
  match py_float subtotal_n with
  | None => None
  | Some st =>
      match py_float tax_n with
      | None => None
      | Some tx =>
          let expected := (st + tx)%float in
          if nonempty total_n
          then match py_float total_n with
               | None => None
               | Some t =>
                   if (1.0 <? abs (t - expected))%float
                   then Some (format_2f expected, 0.7%float)
                   else Some (format_2f t, 0.8%float)
               end
          else Some (format_2f expected, 0.65%float)
      end
  end.

(** What follows the reconciliation: the direct total, then the largest
    amount near the bottom. *)
Definition total_fallback (lines : list str) (total_n : str) : str * float :=
  if nonempty total_n
  then match py_float total_n with
       | Some t => (format_2f t, 0.8%float)
       | None => (total_n, 0.6%float)
       end
  else match _extract_all_amounts lines 30 with
       | x :: xs => (format_2f (py_max x xs), 0.5%float)
       | [] => ([], 0.3%float)
       end.

Definition _find_total (lines : list str) : str * float :=
  let '(total_n, subtotal_n, tax_n) := total_inputs lines in
  if nonempty subtotal_n && nonempty tax_n
  then match reconcile total_n subtotal_n tax_n with
       | Some r => r
       | None => total_fallback lines total_n
       end
  else total_fallback lines total_n.

Section WithSum.

(** The builtin [sum] over floats: left-to-right addition up to CPython 3.11,
    compensated summation since.  Nothing below depends on which. *)
Variable py_sum : list float -> float.

Definition text_or_empty (w : OcrWord) : str :=
  match text w with Some t => t | None => [] end.

(** The words that [_avg_conf] collects.  [fold] stands for [str.lower],
    which the interpreter takes from its Unicode tables. *)
Definition matched_confs_with (fold : str -> str) (words : list OcrWord)
  (tokens : list str) : list float :=
  let token_set := map fold (filter nonempty tokens) in
  flat_map
    (fun w =>
       match conf w with
       | Some c =>
           if str_in (fold (text_or_empty w)) token_set && (0 <=? c)%float
           then [c] else []
       | None => []
       end)
    words.

Definition avg_conf_with (fold : str -> str) (words : list OcrWord)
  (tokens : list str) : float :=
  match tokens with
  | [] => 0.0%float
  | _ :: _ =>
      match matched_confs_with fold words tokens with
      | [] => 0.5%float
      | matched => (py_sum matched / float_of_nat (length matched))%float
      end
  end.

(** [_avg_conf] with [str.lower] as it acts on ASCII text. *)
Definition matched_confs : list OcrWord -> list str -> list float :=
  matched_confs_with lower.

Definition _avg_conf : list OcrWord -> list str -> float :=
  avg_conf_with lower.

(** The test of one line in the loop of [_find_merchant]. *)
Definition merchant_candidate (line : str) : option str :=
  let l := _clean_line line in
  if negb (nonempty l) || _is_noise_line l then None
  else
    let digits := filter is_digit l in
    if Nat.leb 6 (length digits) && Nat.ltb 8 (length l) then None
    else if existsb is_alpha l then Some l else None.

Definition _find_merchant (lines : list str) (words : list OcrWord)
  : str * float :=
  let candidates :=
    flat_map (fun line => match merchant_candidate line with
                          | Some l => [l]
                          | None => []
                          end)
      (firstn 12 lines) in
  match candidates with
  | [] => (hd [] lines, 0.4%float)
  | c :: _ =>
      let merchant := strip (drop_while (fun ch => negb (is_alpha ch)) c) in
      let conf := _avg_conf words (firstn 4 (split merchant)) in
      let conf := py_max2 0.4 (py_min2 conf 0.95) in
      (merchant, round2 conf)
  end.

Definition mk_field (v : str) (c : float) : Field :=
  {| value := Some v; confidence := Some (VFloat c) |}.

(** [uuid_hex] is [uuid.uuid4().hex]. *)
Definition parse_receipt_fields (uuid_hex : str) (text : str)
  (words : list OcrWord) : Receipt :=
  let raw_lines := filter (fun l => nonempty (strip l)) (splitlines text) in
  let lines := map _clean_line raw_lines in
  let '(merchant, merchant_conf) := _find_merchant lines words in
  let '(date_val, date_conf) := _find_date text in
  let '(total_val, total_conf) := _find_total lines in
  let '(cur_val, cur_conf) := _find_currency text in
  let category_val := lit "Uncategorized" in
  let category_conf := 0.2%float in
  {| receipt_id := lit "r_" ++ firstn 8 uuid_hex;
     fields :=
       [ (lit "merchant", mk_field merchant merchant_conf);
         (lit "date", mk_field date_val (round2 date_conf));
         (lit "total", mk_field total_val (round2 total_conf));
         (lit "currency", mk_field cur_val (round2 cur_conf));
         (lit "category", mk_field category_val category_conf) ] |}.

End WithSum.

End ReceiptParser.
Export ReceiptParser.

(* ================================================================== *)
(** * rule_summaries.py and policy_engine.py *)
(* ================================================================== *)

Module PolicyEngine.

(** A [dict] with string keys and values, and its [get]. *)
Fixpoint dict_get (d : list (str * str)) (k : str) : option str :=
  match d with
  | [] => None
  | (k', v) :: rest => if str_eqb k' k then Some v else dict_get rest k
  end.

Definition RULE_SUMMARIES : list (str * str) :=
  [ (lit "POL-REQ-001", lit "A required expense field (such as merchant, date, total, currency, or category) is missing.");
    (lit "POL-REQ-002", lit "A receipt image is required for this type of expense.");
    (lit "POL-CONF-100", lit "The extracted value has low confidence and requires user review.");
    (lit "POL-PARSE-101", lit "The amount could not be reliably parsed from the receipt text.");
    (lit "POL-LIM-010", lit "Meal expenses above the standard limit require justification or attendees.");
    (lit "POL-LIM-020", lit "The total expense exceeds the allowed daily limit.");
    (lit "POL-DATE-030", lit "The expense date falls outside the allowed submission period.");
    (lit "POL-JUST-040", lit "A business purpose is required for reimbursement.");
    (lit "POL-CAT-050", lit "The selected category may not match the detected merchant type.");
    (lit "POL-DUP-060", lit "This expense may be a duplicate of a previously submitted expense.") ].

Definition CONF_THRESHOLD : float := 0.75%float.

Record Issue :=
  { field : str; severity : str; rule_id : str; message : str }.

Definition issue (f sev rid msg : str) : Issue :=
  {| field := f; severity := sev; rule_id := rid; message := msg |}.

Record RuleSummary := { rs_rule_id : str; summary : str }.

Definition FALLBACK_SUMMARY : str :=
  lit "Policy rule triggered. See rule definition repository.".

(** The loop of [attach_rule_summaries]; the set [seen] is only extended and
    tested for membership. *)
Fixpoint attach_from (seen : list str) (issues : list Issue) : list RuleSummary :=
  match issues with
  | [] => []
  | i :: rest =>
      let rid := rule_id i in
      if negb (nonempty rid) || str_in rid seen then attach_from seen rest
      else
        let s :=
          match dict_get RULE_SUMMARIES rid with
          | Some s => if nonempty s then s else FALLBACK_SUMMARY
          | None => FALLBACK_SUMMARY
          end in
        {| rs_rule_id := rid; summary := s |} :: attach_from (rid :: seen) rest
  end.

Definition attach_rule_summaries (issues : list Issue) : list RuleSummary :=
  attach_from [] issues.

Definition REQUIRED_FIELDS : list str :=
  [ lit "merchant"; lit "date"; lit "total"; lit "currency"; lit "category" ].

(** [fields.get(f, {}).get("value")] *)
Definition value_of (fields : FieldMap) (f : str) : option str :=
  match get fields f with
  | Some fld => value fld
  | None => None
  end.

(** 1) Required fields *)
Definition required_issues (fields : FieldMap) : list Issue :=
  flat_map
    (fun f =>
       if falsy (value_of fields f)
       then [issue f (lit "FAIL") (lit "POL-REQ-001") (f ++ lit " is required.")]
       else [])
    REQUIRED_FIELDS.

Section WithFloat.

(** [float()] on a string, which reads an ASCII numeral as [py_float] does
    and other digits and blanks through the interpreter's Unicode tables;
    [None] is the [ValueError]. *)
Variable to_float : str -> option float.

(** [float(v.get("confidence", 0))], with the handler's [0.0]. *)
Definition conf_of_with (v : Field) : float :=
  match confidence v with
  | None => 0.0%float
  | Some (VFloat c) => c
  | Some (VStr s) => match to_float s with Some c => c | None => 0.0%float end
  | Some VOther => 0.0%float
  end.

(** 2) Confidence-based review *)
Definition confidence_issues_with (fields : FieldMap) : list Issue :=
  flat_map
    (fun '(f, v) =>
       let c := conf_of_with v in
       if (c <? CONF_THRESHOLD)%float
       then [issue f (lit "WARN") (lit "POL-CONF-100")
               (f ++ lit " confidence below threshold (" ++ format_2f c ++ lit ").")]
       else [])
    fields.

Definition MEAL_CATEGORIES : list str := [ lit "meals"; lit "meal"; lit "food" ].

Definition is_meal (fields : FieldMap) : bool :=
  let category :=
    match value_of fields (lit "category") with Some v => v | None => [] end in
  str_in (lower category) MEAL_CATEGORIES.

(** [str(fields.get("total", {}).get("value", "0")).replace(",", ".")] *)
Definition meal_total_text (fields : FieldMap) : str :=
  let v := match value_of fields (lit "total") with
           | Some v => v
           | None => lit "0"
           end in
  replace_char "," "." v.

(** 3) Meals limit *)
Definition meal_issues_with (fields : FieldMap) : list Issue :=
  if is_meal fields
  then match to_float (meal_total_text fields) with
       | Some total =>
           if (20 <? total)%float
           then [issue (lit "total") (lit "FAIL") (lit "POL-LIM-010")
                   (lit "Meals exceed 20 EUR without justification/attendees.")]
           else []
       | None =>
           [issue (lit "total") (lit "WARN") (lit "POL-PARSE-101")
              (lit "Could not parse total amount reliably.")]
       end
  else [].

Definition has_severity (sev : str) (issues : list Issue) : bool :=
  existsb (fun i => str_eqb (severity i) sev) issues.

(** 4) Compliance aggregation *)
Definition aggregate (issues : list Issue) : str :=
  if has_severity (lit "FAIL") issues then lit "FAIL"
  else if has_severity (lit "WARN") issues then lit "WARN"
  else lit "PASS".

Record Metadata :=
  { confidence_threshold : float; rules_triggered : list str }.

Record ComplianceResult :=
  { cr_receipt_id : str;
    compliance : str;
    issues : list Issue;
    rule_summaries : list RuleSummary;
    metadata : Metadata }.

Definition UserContext := list (str * str).

Definition validate_policy_with (receipt_id : str) (fields : FieldMap)
  (user_context : UserContext) : ComplianceResult :=
  let issues :=
    required_issues fields ++ confidence_issues_with fields
      ++ meal_issues_with fields in
  let rule_summaries := attach_rule_summaries issues in
  {| cr_receipt_id := receipt_id;
     compliance := aggregate issues;
     issues := issues;
     rule_summaries := rule_summaries;
     metadata :=
       {| confidence_threshold := CONF_THRESHOLD;
          rules_triggered := map rs_rule_id rule_summaries |} |}.

End WithFloat.

(** The engine with [float()] as it reads ASCII text. *)
Definition conf_of : Field -> float := conf_of_with py_float.

Definition confidence_issues : FieldMap -> list Issue :=
  confidence_issues_with py_float.

Definition meal_issues : FieldMap -> list Issue := meal_issues_with py_float.

Definition validate_policy : str -> FieldMap -> UserContext -> ComplianceResult :=
  validate_policy_with py_float.

End PolicyEngine.
Export PolicyEngine.

(* ================================================================== *)
(** * The vocabulary of the specification *)
(* ================================================================== *)

Module Spec.

(** "Deduplicated in first-seen order": every element once, at the place of
    its first occurrence. *)
Fixpoint distinct_first (l : list str) : list str :=
  match l with
  | [] => []
  | x :: r => x :: filter (fun y => negb (str_eqb y x)) (distinct_first r)
  end.

(** "Look up a summary in the rule catalog; if absent, substitute a fixed
    fallback sentence." *)
Definition summary_or_fallback (rid : str) : str :=
  match dict_get RULE_SUMMARIES rid with
  | Some s => s
  | None => FALLBACK_SUMMARY
  end.

(** "An OCR word whose lowercased text matches a token of the phrase", "empty
    tokens excluded", "and whose confidence is at least 0"; [fold] is the
    lowercasing. *)
Definition token_match (fold : str -> str) (tokens : list str) (w : OcrWord)
  : Prop :=
  exists t, In t tokens /\ t <> [] /\ fold (text_or_empty w) = fold t.

Definition token_matchb (fold : str -> str) (tokens : list str) (w : OcrWord)
  : bool :=
  existsb (fun t => nonempty t && str_eqb (fold (text_or_empty w)) (fold t))
    tokens.

Definition nonneg_conf (w : OcrWord) : option float :=
  match conf w with
  | Some c => if (0 <=? c)%float then Some c else None
  | None => None
  end.

Definition word_matches (fold : str -> str) (tokens : list str) (w : OcrWord)
  : Prop :=
  token_match fold tokens w /\ exists c, nonneg_conf w = Some c.

(** The confidences of the matching words, in the order of the word list. *)
Definition matching_confs (fold : str -> str) (words : list OcrWord)
  (tokens : list str) : list float :=
  flat_map
    (fun w =>
       if token_matchb fold tokens w
       then match nonneg_conf w with Some c => [c] | None => [] end
       else [])
    words.

(** "The arithmetic mean": the sum over the number of terms. *)
Definition mean (py_sum : list float -> float) (cs : list float) : float :=
  (py_sum cs / float_of_nat (length cs))%float.

(** "An un-spaced date YYYY[sep]MM[sep]DD with separator '.', '/' or '-'". *)
Definition iso_date (d : str) : bool :=
  match d with
  | [y1; y2; y3; y4; s1; m1; m2; s2; d1; d2] =>
      is_digit y1 && is_digit y2 && is_digit y3 && is_digit y4 && is_sep s1
      && is_digit m1 && is_digit m2 && is_sep s2 && is_digit d1 && is_digit d2
  | _ => false
  end.

(** "Digits, a dot, and exactly two decimal digits". *)
Definition amount_text (m : str) : Prop :=
  exists ds a b,
    m = ds ++ ["."%char; a; b] /\ ds <> []
    /\ forallb is_digit ds = true /\ is_digit a = true /\ is_digit b = true.

(** Some issue of the list carries the rule identifier. *)
Definition has_rule (rid : str) (l : list Issue) : Prop :=
  exists i, In i l /\ rule_id i = rid.

(** [sum] as CPython computes it up to version 3.11. *)
Definition sum_left (xs : list float) : float :=
  fold_left PrimFloat.add xs 0%float.

(** A confidence in [[0, 1]]. *)
Definition in_unit (c : float) : Prop :=
  (0 <=? c)%float = true /\ (c <=? 1)%float = true.

Definition unit_check (h : Z) : bool :=
  ((0 <=? float_of_decimal false h (-2)) && (float_of_decimal false h (-2) <=? 1))%float.

(** A field with a value and a confidence at or above the threshold. *)
Definition well_scored (v : Field) : Prop :=
  falsy (value v) = false /\ (CONF_THRESHOLD <=? conf_of v)%float = true.

(** A field with a value and a numeric confidence in [[0, 1]]. *)
Definition scored_in_unit (fld : Field) : Prop :=
  exists v c,
    value fld = Some v /\ confidence fld = Some (VFloat c) /\ in_unit c.

Definition LIMIT_ISSUE : Issue :=
  issue (lit "total") (lit "FAIL") (lit "POL-LIM-010")
    (lit "Meals exceed 20 EUR without justification/attendees.").

Definition PARSE_ISSUE : Issue :=
  issue (lit "total") (lit "WARN") (lit "POL-PARSE-101")
    (lit "Could not parse total amount reliably.").

Definition CATEGORY_REVIEW : Issue :=
  issue (lit "category") (lit "WARN") (lit "POL-CONF-100")
    (lit "category confidence below threshold (0.20).").

Definition no_comma (s : str) : bool :=
  forallb (fun c => negb (Ascii.eqb c ",")) s.

(** The characters of an amount: digits and one dot. *)
Definition amount_char (c : ascii) : bool := is_digit c || Ascii.eqb c ".".

Definition sf_nonneg (y : spec_float) : Prop :=
  match y with
  | S754_zero false | S754_infinity false | S754_finite false _ _ => True
  | _ => False
  end.

(** A float that is [+0], positive and finite, or [+inf]. *)
Definition nonneg (x : float) : Prop := sf_nonneg (Prim2SF x).

Definition amount_opt (o : option str) : Prop :=
  match o with Some m => amount_text m | None => True end.

Definition amount_or_empty (s : str) : Prop := s = [] \/ amount_text s.

(** The printed total: two decimals, or the overflow text. *)
Definition total_text (v : str) : Prop := v = lit "inf" \/ amount_text v.

(** The outcomes of [_find_total]. *)
Definition total_outcome (r : str * float) : Prop :=
  (fst r = [] /\ snd r = 0.3%float)
  \/ (total_text (fst r)
      /\ In (snd r) [0.5%float; 0.65%float; 0.7%float; 0.8%float]).

End Spec.
Export Spec.

(* ================================================================== *)
(** * Sample inputs *)
(* ================================================================== *)

Module Samples.

Definition receipt_lines : list str :=
  [ lit "Sub Total 170.00"; lit "Tax 21.00"; lit "Total 31.44" ].

(** A total line whose amount has four hundred digits. *)
Definition overflowing_lines : list str :=
  [ lit "Total " ++ repeat "9"%char 400 ++ lit ".00" ].

(** A field map whose total has an empty value. *)
Definition fields_without_total : FieldMap :=
  [ (lit "merchant", mk_field (lit "ACME") 0.9%float);
    (lit "date", mk_field (lit "2013-11-03") 0.8%float);
    (lit "total", mk_field [] 0.3%float);
    (lit "currency", mk_field (lit "EUR") 0.9%float);
    (lit "category", mk_field (lit "Travel") 0.9%float) ].

Definition confident_fields : FieldMap :=
  [ (lit "merchant", mk_field (lit "ACME") 0.9%float);
    (lit "date", mk_field (lit "2013-11-03") 0.8%float);
    (lit "total", mk_field (lit "45.50") 0.8%float);
    (lit "currency", mk_field (lit "EUR") 0.9%float);
    (lit "category", mk_field (lit "Travel") 0.75%float) ].

(** The example of the specification: category "Meals", total "25.00". *)
Definition meal_fields (total : str) : FieldMap :=
  [ (lit "merchant", mk_field (lit "Bistro") 0.9%float);
    (lit "date", mk_field (lit "2013-11-03") 0.8%float);
    (lit "total", mk_field total 0.8%float);
    (lit "currency", mk_field (lit "EUR") 0.9%float);
    (lit "category", mk_field (lit "Meals") 0.9%float) ].

Definition two_words : list OcrWord :=
  [ {| text := Some (lit "ACME"); conf := Some 0.9%float |};
    {| text := Some (lit "Store"); conf := Some 0.8%float |};
    {| text := Some (lit "Ltd"); conf := None |} ].

End Samples.
Export Samples.

(* ================================================================== *)
(** * mock_explainer.py *)
(* ================================================================== *)

Module MockExplainer.

(** An issue as the explainer reads it, through [i.get(key)]: each of the
    four keys is absent ([None]) or holds a string. *)
Record IssueDict :=
  { get_field : option str;
    get_severity : option str;
    get_rule_id : option str;
    get_message : option str }.

(** An entry of [rule_summaries], read through [r.get("rule_id")] and
    [r.get("summary")]. *)
Record SummaryDict :=
  { get_summary_rule_id : option str; get_summary : option str }.

(** [d.get(key, default)] *)
Definition or_default (o : option str) (d : str) : str :=
  match o with Some s => s | None => d end.

(** The loop of [_dedupe]; the set [seen] is only extended and tested for
    membership. *)
Fixpoint dedupe_from (seen : list str) (xs : list str) : list str :=
  match xs with
  | [] => []
  | x :: rest =>
      if nonempty x && negb (str_in x seen)
      then x :: dedupe_from (x :: seen) rest
      else dedupe_from seen rest
  end.

Definition _dedupe (xs : list str) : list str := dedupe_from [] xs.

(** [summary_map.get(rid)] for the dict comprehension
    [{r.get("rule_id"): r.get("summary") for r in rule_summaries}]: of the
    entries with the key [rid], the last one decides. *)
Definition summary_map_get (rule_summaries : list SummaryDict) (rid : str)
  : option str :=
  fold_left
    (fun found r =>
       match get_summary_rule_id r with
       | Some k => if str_eqb k rid then get_summary r else found
       | None => found
       end)
    rule_summaries None.

(** [sev_rank.get(i.get("severity", "WARN"), 9)] *)
Definition sev_rank (i : IssueDict) : nat :=
  let sev := or_default (get_severity i) (lit "WARN") in
  if str_eqb sev (lit "FAIL") then 0
  else if str_eqb sev (lit "WARN") then 1
  else 9.

(** [sorted(xs, key=...)]: a stable sort.  An element is put before the
    elements behind it whose key is not smaller. *)
Fixpoint insert_by {A : Type} (key : A -> nat) (x : A) (l : list A) : list A :=
  match l with
  | [] => [x]
  | y :: rest =>
      if Nat.leb (key x) (key y) then x :: l else y :: insert_by key x rest
  end.

Definition sorted {A : Type} (key : A -> nat) (l : list A) : list A :=
  fold_right (insert_by key) [] l.

Definition nl : str := [ascii_of_nat 10].

(** [sep.join(xs)] *)
Fixpoint join (sep : str) (xs : list str) : str :=
  match xs with
  | [] => []
  | [x] => x
  | x :: rest => x ++ sep ++ join sep rest
  end.

(** The bullet that the loop appends for one issue. *)
Definition bullet (rule_summaries : list SummaryDict) (i : IssueDict) : str :=
  let field := or_default (get_field i) (lit "unknown field") in
  let rid := or_default (get_rule_id i) (lit "UNKNOWN") in
  let sev := or_default (get_severity i) (lit "WARN") in
  let msg := or_default (get_message i) [] in
  let summ := summary_map_get rule_summaries rid in
  let head :=
    lit "- **" ++ sev ++ lit "** `" ++ rid ++ lit "` (" ++ field ++ lit "): " in
  if negb (falsy summ)
  then head ++ or_default summ []
  else head ++ (if nonempty msg then msg else lit "Policy check triggered.").

(** The clarification question that the loop appends for one issue, if any. *)
Definition clarification (i : IssueDict) : list str :=
  let field := or_default (get_field i) (lit "unknown field") in
  let rid := or_default (get_rule_id i) (lit "UNKNOWN") in
  if str_eqb rid (lit "POL-REQ-001")
  then [lit "Please provide the missing value for **" ++ field ++ lit "**."]
  else if str_eqb rid (lit "POL-REQ-002")
  then [lit "Please attach a receipt image to proceed."]
  else if str_eqb rid (lit "POL-CONF-100")
  then [lit "Can you confirm or correct the extracted **" ++ field
          ++ lit "** value?"]
  else if str_eqb rid (lit "POL-PARSE-101")
  then [lit "Please enter the total amount manually (could not be parsed reliably)."]
  else if str_eqb rid (lit "POL-LIM-010")
  then [lit "Was this a business meal? If yes, add business purpose and attendees (if applicable)."]
  else if str_eqb rid (lit "POL-LIM-020")
  then [lit "Can you provide justification for exceeding the daily limit, or split into multiple lines if allowed?"]
  else if str_eqb rid (lit "POL-DATE-030")
  then [lit "Is the receipt date correct? If yes, provide justification for late/out-of-range submission."]
  else if str_eqb rid (lit "POL-JUST-040")
  then [lit "Please add a short business purpose (e.g., client meeting, travel, workshop)."]
  else if str_eqb rid (lit "POL-CAT-050")
  then [lit "Does the selected category match the merchant? If not, choose the correct category."]
  else if str_eqb rid (lit "POL-DUP-060")
  then [lit "Have you already submitted this receipt? If not, confirm it’s a new expense."]
  else [].

Definition NO_ISSUES_TEXT : str :=
  lit "No policy issues were detected. All required fields are present and the extracted values are above the confidence threshold. You can proceed to submission.".

Definition EXPLANATION_HEAD : str :=
  lit "Based on the current extracted fields and deterministic policy checks, the system flagged the expense due to the following rule(s):"
  ++ nl ++ nl.

Definition EXPLANATION_TAIL : str :=
  nl ++ nl
  ++ lit "To proceed, please address the requested fields or provide the required justification. After edits, re-run the policy validation to confirm compliance.".

Record Explanation :=
  { explanation : str; clarification_questions : list str }.

Definition mock_explain_with_policy (fields : FieldMap)
  (issues : list IssueDict) (rule_summaries : list SummaryDict)
  (user_question : str) : Explanation :=
  match issues with
  | [] => {| explanation := NO_ISSUES_TEXT; clarification_questions := [] |}
  | _ :: _ =>
      let issues_sorted := sorted sev_rank issues in
      let shown := firstn 6 issues_sorted in
      let bullets := map (bullet rule_summaries) shown in
      let clarifications := _dedupe (flat_map clarification shown) in
      {| explanation := EXPLANATION_HEAD ++ join nl bullets ++ EXPLANATION_TAIL;
         clarification_questions := firstn 5 clarifications |}
  end.

(** The issue and the summary of the policy engine, as the dicts that the
    explain endpoint receives. *)
Definition issue_dict (i : Issue) : IssueDict :=
  {| get_field := Some (field i);
     get_severity := Some (severity i);
     get_rule_id := Some (rule_id i);
     get_message := Some (message i) |}.

Definition summary_dict (r : RuleSummary) : SummaryDict :=
  {| get_summary_rule_id := Some (rs_rule_id r);
     get_summary := Some (summary r) |}.

End MockExplainer.
Export MockExplainer.
(* ================================================================== *)
(** * ocr_tesseract.py *)
(* ================================================================== *)

Module OcrTesseract.

(** [float(v)] for an entry of the engine's table: a number is read as the
    float it converts to, a string is parsed, anything else raises. *)
Definition float_of_val (v : pyval) : option float :=
  match v with
  | VFloat c => Some c
  | VStr s => py_float s
  | VOther => None
  end.

(** The [try] block around [float(data["conf"][i])], with the handler's
    [-1.0]; [confs] is [None] when the table has no ["conf"] column. *)
Definition conf_raw (confs : option (list pyval)) (i : nat) : float :=
  match confs with
  | Some cs =>
      match nth_error cs i with
      | Some v => match float_of_val v with Some c => c | None => (-1.0)%float end
      | None => (-1.0)%float
      end
  | None => (-1.0)%float
  end.

(** The loop of [_ocr_once] over [range(n)], from the index [i] on; [texts]
    is what is left of [data.get("text", [])], an entry being a string or
    [None]. *)
Fixpoint words_from (i : nat) (texts : list (option str))
  (confs : option (list pyval)) : list OcrWord :=
  match texts with
  | [] => []
  | t :: rest =>
      let w := strip (match t with Some s => s | None => [] end) in
      if negb (nonempty w) then words_from (S i) rest confs
      else
        let c := (py_max2 0.0 (conf_raw confs i) / 100.0)%float in
        {| text := Some w; conf := Some c |} :: words_from (S i) rest confs
  end.

(** [\d+[.,]\d{2}] *)
Definition MONEY_REGEX : pattern :=
  [ Cls is_digit 1 None; Cls is_dot_or_comma 1 (Some 1);
    Cls is_digit 2 (Some 2) ].

(** [ch.isdigit()], [splitlines], [strip] and [\d] as they act on ASCII
    text. *)
Definition _score_text (text : str) : nat :=
  let digits := length (filter is_digit text) in
  let lines := length (filter (fun l => nonempty (strip l)) (splitlines text)) in
  let money := length (finditer MONEY_REGEX text) in
  digits + 2 * lines + 3 * money.

Section Engine.

(** The preprocessed image and the two calls of the OCR engine on it, for a
    page segmentation mode: the plain text, and the columns ["text"] and
    ["conf"] of the word table. *)
Variable Image : Type.
Variable image_to_string : Image -> nat -> str.
Variable image_to_data : Image -> nat -> list (option str) * option (list pyval).

Definition _ocr_once (proc : Image) (psm : nat) : str * list OcrWord :=
  let text := image_to_string proc psm in
  let data := image_to_data proc psm in
  (text, words_from 0 (fst data) (snd data)).

(** [ocr_with_conf], from the preprocessed image on. *)
Definition ocr_with_conf (proc : Image) : str * list OcrWord :=
  let '(text6, words6) := _ocr_once proc 6 in
  let '(text4, words4) := _ocr_once proc 4 in
  if Nat.ltb (_score_text text6) (_score_text text4)
  then (text4, words4)
  else (text6, words6).

End Engine.

End OcrTesseract.
Export OcrTesseract.
(* ================================================================== *)
(** * Further notions used by the properties *)
(* ================================================================== *)

Module Notions.

(** The rule identifiers that [validate_policy] can emit, in the order of
    its three rules. *)
Definition ENGINE_RULES : list str :=
  [ lit "POL-REQ-001"; lit "POL-CONF-100"; lit "POL-LIM-010";
    lit "POL-PARSE-101" ].

(** Some issue of the list carries the rule identifier. *)
Definition triggered (l : list Issue) (rid : str) : bool :=
  existsb (fun i => str_eqb (rule_id i) rid) l.

(** A field without a usable confidence: the key is absent, or holds
    something that [float()] rejects. *)
Definition unscored (to_float : str -> option float) (v : Field) : Prop :=
  match confidence v with
  | None => True
  | Some (VFloat _) => False
  | Some (VStr s) => to_float s = None
  | Some VOther => True
  end.

(** The entries of a field map whose confidence reads below the threshold. *)
Definition below_threshold (to_float : str -> option float) (fields : FieldMap)
  : FieldMap :=
  filter (fun kv => (conf_of_with to_float (snd kv) <? CONF_THRESHOLD)%float)
    fields.

(** The texts of a word list are ASCII. *)
Definition ascii_words (words : list OcrWord) : bool :=
  forallb (fun w => isascii (text_or_empty w)) words.

(** The strings of a list are ASCII. *)
Definition ascii_strs (l : list str) : bool := forallb isascii l.

(** An entry of the engine's table that is a string is ASCII. *)
Definition ascii_val (v : pyval) : bool :=
  match v with VStr s => isascii s | _ => true end.

(** The text column of the engine's table is ASCII. *)
Definition ascii_rows (texts : list (option str)) : bool :=
  forallb (fun t => isascii match t with Some s => s | None => [] end) texts.

(** The confidence column of the engine's table is ASCII where it holds
    strings. *)
Definition ascii_confs (confs : option (list pyval)) : bool :=
  match confs with Some cs => forallb ascii_val cs | None => true end.

(** A character that is not a blank. *)
Definition visible (c : ascii) : bool := negb (is_space c).

(** Every blank is a single space with a visible character behind it. *)
Fixpoint single_spaced (s : str) : bool :=
  match s with
  | [] => true
  | c :: r =>
      (if is_space c
       then Ascii.eqb c " "
            && match r with d :: _ => visible d | [] => false end
       else true)
      && single_spaced r
  end.

(** The form of a cleaned line: no blank at either end, and between the
    words one space. *)
Definition clean (s : str) : bool :=
  match s with c :: _ => visible c | [] => true end && single_spaced s.

(** The last character, if there is one, is visible. *)
Fixpoint ends_visible (s : str) : bool :=
  match s with
  | [] => true
  | c :: r => match r with [] => visible c | _ :: _ => ends_visible r end
  end.

(** The entries of [NOISE_PREFIXES] that decide: each of the other three
    contains one of them. *)
Definition NOISE_WORDS : list str :=
  [ lit "duplicate"; lit "copy"; lit "thank you"; lit "invoice"; lit "receipt" ].

(** The alternatives of [CURRENCY_REGEX], in its order. *)
Definition CURRENCY_TOKENS : list str :=
  [ lit "EUR"; lit "€"; lit "USD"; lit "$"; lit "GBP"; lit "£"; lit "INR";
    lit "₹" ].

(** A date DD[sep]MM[sep]YY with two to four digits of the year. *)
Definition short_date (d : str) : bool :=
  match d with
  | d1 :: d2 :: s1 :: m1 :: m2 :: s2 :: y1 :: y2 :: rest =>
      is_digit d1 && is_digit d2 && is_sep s1 && is_digit m1 && is_digit m2
      && is_sep s2 && is_digit y1 && is_digit y2
      && forallb is_digit rest && Nat.leb (length rest) 2
  | _ => false
  end.

(** The money-like numbers of a line, as the amount extractors read them. *)
Definition line_amounts (line : str) : list str :=
  finditer AMOUNT_REGEX (replace_char "," "." line).

(** A line that the keyword search accepts: it contains the keyword, not
    the keyword to avoid, and carries an amount; letter case is ignored. *)
Definition qualifies (keyword : str) (avoid_keyword : option str) (line : str)
  : bool :=
  contains (lower keyword) (lower line)
  && negb match avoid_keyword with
          | Some a => nonempty a && contains (lower a) (lower line)
          | None => false
          end
  && match line_amounts line with [] => false | _ :: _ => true end.

(** The cleaned, non-blank lines that [parse_receipt_fields] hands to the
    merchant and total extractors. *)
Definition receipt_lines_of (text : str) : list str :=
  map _clean_line (filter (fun l => nonempty (strip l)) (splitlines text)).

Definition clamp_check (h : Z) : bool :=
  ((0.4 <=? float_of_decimal false h (-2))
   && (float_of_decimal false h (-2) <=? 0.95))%float.

(** The issue of the required-field rule on a field. *)
Definition REQUIRED_ISSUE (f : str) : Issue :=
  issue f (lit "FAIL") (lit "POL-REQ-001") (f ++ lit " is required.").

(** The issue of the confidence rule on a field read with confidence [c]. *)
Definition REVIEW_ISSUE (f : str) (c : float) : Issue :=
  issue f (lit "WARN") (lit "POL-CONF-100")
    (f ++ lit " confidence below threshold (" ++ format_2f c ++ lit ").").

(** The confidence rule raised an issue on the field. *)
Definition flagged (l : list Issue) (f : str) : bool :=
  existsb
    (fun i => str_eqb (rule_id i) (lit "POL-CONF-100") && str_eqb (field i) f)
    l.

(** The field map that [parse_receipt_fields] assembles from the four
    extracted values and their confidences. *)
Definition parsed_map (m : str) (mc : float) (d : str) (dc : float)
  (t : str) (tc : float) (c : str) (cc : float) : FieldMap :=
  [ (lit "merchant", mk_field m mc);
    (lit "date", mk_field d (round2 dc));
    (lit "total", mk_field t (round2 tc));
    (lit "currency", mk_field c (round2 cc));
    (lit "category", mk_field (lit "Uncategorized") 0.2%float) ].

(** The issues of one severity rank, in their order. *)
Definition by_rank (k : nat) (issues : list IssueDict) : list IssueDict :=
  filter (fun i => Nat.eqb (sev_rank i) k) issues.

(** The issues that an explanation lists: failures first, then warnings
    and issues without a severity, then the rest; six at most. *)
Definition explained (issues : list IssueDict) : list IssueDict :=
  firstn 6 (by_rank 0 issues ++ by_rank 1 issues ++ by_rank 9 issues).

(** An OCR word as the parser can use it: a text that is stripped and not
    empty, and a confidence that is a number and not below zero. *)
Definition usable_word (w : OcrWord) : Prop :=
  exists t c,
    text w = Some t /\ t <> [] /\ strip t = t
    /\ conf w = Some c /\ (0 <=? c)%float = true.

(** The confidence that a word carries, read as 0 when it carries none. *)
Definition conf_value (w : OcrWord) : float :=
  match conf w with Some c => c | None => 0.0%float end.

(** The entry of the text column is not blank. *)
Definition has_text (t : option str) : bool :=
  nonempty (strip (match t with Some s => s | None => [] end)).

End Notions.
Export Notions.
(* ================================================================== *)
(** * Properties *)
(* ================================================================== *)

(** ** Facts about strings and floats used throughout *)

Module Facts.

Lemma str_eqb_refl : forall a, str_eqb a a = true.
Proof.
  induction a as [|c a IH]; simpl; [reflexivity|].
  rewrite Ascii.eqb_refl. exact IH.
Qed.

Lemma str_eqb_eq : forall a b, str_eqb a b = true <-> a = b.
Proof.
  induction a as [|x a IH]; destruct b as [|y b]; simpl; split; intro H;
    try reflexivity; try discriminate.
  - apply andb_true_iff in H. destruct H as [H1 H2].
    apply Ascii.eqb_eq in H1. apply IH in H2. congruence.
  - inversion H; subst. rewrite Ascii.eqb_refl. apply str_eqb_refl.
Qed.

Lemma flat_map_nil :
  forall (A B : Type) (f : A -> list B) (l : list A),
    (forall x, In x l -> f x = []) -> flat_map f l = [].
Proof.
  induction l as [|a l IH]; intros H; simpl; [reflexivity|].
  rewrite (H a (or_introl eq_refl)). simpl.
  apply IH. intros x Hx. apply H. right. exact Hx.
Qed.

Lemma filter_all :
  forall (A : Type) (p : A -> bool) (l : list A),
    (forall x, In x l -> p x = true) -> filter p l = l.
Proof.
  induction l as [|a l IH]; intros H; simpl; [reflexivity|].
  rewrite (H a (or_introl eq_refl)). f_equal.
  apply IH. intros x Hx. apply H. right. exact Hx.
Qed.

(** The comparison of the binary64 specification is antisymmetric. *)
Lemma SFcompare_antisym :
  forall a b c, SFcompare a b = Some c -> SFcompare b a = Some (CompOpp c).
Proof.
  intros a b c.
  destruct a as [sa|sa| |sa ma ea], b as [sb|sb| |sb mb eb]; simpl;
    intro H; try discriminate; injection H as <-; f_equal;
    try (destruct sa; reflexivity); try (destruct sb; reflexivity);
    try (destruct sa, sb; reflexivity); try reflexivity.
  rewrite (Z.compare_antisym ea eb).
  change (PosDef.Pos.compare_cont Eq mb ma) with (Pos.compare mb ma).
  change (PosDef.Pos.compare_cont Eq ma mb) with (Pos.compare ma mb).
  rewrite (Pos.compare_antisym ma mb).
  destruct sa, sb; try reflexivity;
    destruct (ea ?= eb)%Z; simpl; try reflexivity;
    destruct (ma ?= mb)%positive; reflexivity.
Qed.

(** [a <= b] excludes [b < a], also for NaN and the infinities. *)
Lemma leb_not_ltb :
  forall a b : float, (a <=? b)%float = true -> (b <? a)%float = false.
Proof.
  intros a b. rewrite leb_spec, ltb_spec. unfold SFleb, SFltb.
  destruct (SFcompare (Prim2SF a) (Prim2SF b)) as [c|] eqn:E; [|discriminate].
  rewrite (SFcompare_antisym _ _ _ E).
  destruct c; simpl; intro H; try reflexivity; discriminate.
Qed.

End Facts.

(** ** The pattern matcher *)

Module RegexFacts.

Lemma span_zero : forall p s, span p (Some 0) s = ([], s).
Proof. intros p [|c s]; reflexivity. Qed.

Lemma span_spec :
  forall p s hi t r,
    span p hi s = (t, r) -> s = t ++ r /\ forallb p t = true.
Proof.
  intros p. induction s as [|c s IH]; intros hi t r H.
  - simpl in H. injection H as <- <-. split; reflexivity.
  - cbn [span] in H.
    assert (Step : (if p c
                    then let (t0, r0) := span p (option_map pred hi) s in
                         (c :: t0, r0)
                    else ([], c :: s)) = (t, r) ->
                   c :: s = t ++ r /\ forallb p t = true).
    { destruct (p c) eqn:Pc.
      - destruct (span p (option_map pred hi) s) as [t0 r0] eqn:E.
        intro H'. injection H' as <- <-.
        destruct (IH _ _ _ E) as [-> Hall].
        split; [reflexivity|]. simpl. rewrite Pc. exact Hall.
      - intro H'. injection H' as <- <-. split; reflexivity. }
    destruct hi as [[|n]|]; [|exact (Step H)|exact (Step H)].
    injection H as <- <-. split; reflexivity.
Qed.

Lemma span_length :
  forall p s n t r, span p (Some n) s = (t, r) -> length t <= n.
Proof.
  intros p. induction s as [|c s IH]; intros n t r H.
  - simpl in H. injection H as <- <-. simpl. lia.
  - cbn [span] in H. destruct n as [|n].
    + injection H as <- <-. simpl. lia.
    + destruct (p c).
      * cbn [option_map pred] in H.
        destruct (span p (Some n) s) as [t0 r0] eqn:E.
        injection H as <- <-. simpl. apply IH in E. lia.
      * injection H as <- <-. simpl. lia.
Qed.

(** A run of the class followed by a character outside it is what the
    unbounded repetition takes. *)
Lemma span_app_stop :
  forall p ds c r,
    forallb p ds = true -> p c = false ->
    span p None (ds ++ c :: r) = (ds, c :: r).
Proof.
  intros p. induction ds as [|d ds IH]; intros c r Hall Hc.
  - simpl. rewrite Hc. reflexivity.
  - simpl in Hall. apply andb_true_iff in Hall. destruct Hall as [Hd Hall].
    cbn [app span option_map]. rewrite Hd, (IH c r Hall Hc). reflexivity.
Qed.

Lemma span_all :
  forall p ds, forallb p ds = true -> span p None ds = (ds, []).
Proof.
  intros p. induction ds as [|d ds IH]; intros Hall; [reflexivity|].
  simpl in Hall. apply andb_true_iff in Hall. destruct Hall as [Hd Hall].
  cbn [span option_map]. rewrite Hd, (IH Hall). reflexivity.
Qed.

End RegexFacts.

(** ** Rounding to two decimals inside the unit interval *)

Module RoundFacts.
Import Facts.

Lemma digits2_size : forall p, digits2_pos p = Pos.size p.
Proof. induction p; simpl; congruence. Qed.

Lemma digits2_bounds :
  forall p, (2 ^ (Zpos (digits2_pos p) - 1) <= Zpos p < 2 ^ Zpos (digits2_pos p))%Z.
Proof.
  intro p. rewrite digits2_size.
  pose proof (Pos.size_gt p) as Hgt. pose proof (Pos.size_le p) as Hle.
  assert (E : (2 ^ Zpos (Pos.size p) = Zpos (2 ^ Pos.size p))%Z)
    by (rewrite Pos2Z.inj_pow; reflexivity).
  assert (S : (2 ^ Zpos (Pos.size p)
               = 2 * 2 ^ (Zpos (Pos.size p) - 1))%Z).
  { rewrite <- Z.pow_succ_r by lia. f_equal. lia. }
  split; [|rewrite E; lia].
  assert (Zpos (2 ^ Pos.size p) <= Zpos p~0)%Z by lia.
  rewrite <- E, S in H. lia.
Qed.

Lemma round_half_even_bounds :
  forall n d, (n / d <= round_half_even n d <= n / d + 1)%Z.
Proof.
  intros n d. unfold round_half_even.
  destruct (2 * (n mod d) ?= d)%Z; [destruct (Z.even (n / d))| |]; lia.
Qed.

(** The order of two positive finite numbers: by exponent, then mantissa. *)
Lemma SFltb_finite_pos :
  forall m1 e1 m2 e2,
    SFltb (S754_finite false m1 e1) (S754_finite false m2 e2) = true
    <-> (e1 < e2 \/ (e1 = e2 /\ Zpos m1 < Zpos m2))%Z.
Proof.
  intros m1 e1 m2 e2. unfold SFltb, SFcompare.
  change (PosDef.Pos.compare_cont Eq m1 m2) with (Pos.compare m1 m2).
  destruct (Z.compare_spec e1 e2); [destruct (Pos.compare_spec m1 m2)| |];
    split; intro H'; try discriminate; try reflexivity; lia.
Qed.

Lemma between_clamp_bounds :
  forall x : float,
    (0.4 <? x)%float = true ->
    (0.95 <? x)%float = false ->
    exists m e,
      Prim2SF x = S754_finite false m e
      /\ ((e = -54 /\ 7205759403792794 < Zpos m < 9007199254740992)
          \/ (e = -53 /\ 4503599627370496 <= Zpos m <= 8556839292003942))%Z.
Proof.
  intros x Hlo Hhi. rewrite ltb_spec in Hlo, Hhi.
  replace (Prim2SF 0.4) with (S754_finite false 7205759403792794 (-54)) in Hlo
    by (vm_compute; reflexivity).
  replace (Prim2SF 0.95) with (S754_finite false 8556839292003942 (-53)) in Hhi
    by (vm_compute; reflexivity).
  pose proof (Prim2SF_valid x) as V.
  destruct (Prim2SF x) as [s|s| |s m e];
    try discriminate; try (destruct s; discriminate).
  destruct s; [discriminate|].
  exists m, e. split; [reflexivity|].
  apply SFltb_finite_pos in Hlo.
  assert (Hhi' : ~ (-53 < e \/ (-53 = e /\ 8556839292003942 < Zpos m))%Z).
  { intro C. apply SFltb_finite_pos in C. congruence. }
  clear Hhi.
  unfold SpecFloat.valid_binary, bounded, canonical_mantissa, fexp,
    SpecFloat.emin in V.
  apply andb_true_iff in V. destruct V as [V _]. apply Z.eqb_eq in V.
  change prec with 53%Z in V. change emax with 1024%Z in V.
  pose proof (digits2_bounds m) as B.
  assert (D : Zpos (digits2_pos m) = 53%Z) by lia.
  rewrite D in B.
  change (2 ^ 53)%Z with 9007199254740992%Z in B.
  change (2 ^ (53 - 1))%Z with 4503599627370496%Z in B.
  lia.
Qed.

Lemma hundredths_between_clamp :
  forall m e,
    ((e = -54 /\ 7205759403792794 < Zpos m < 9007199254740992)
     \/ (e = -53 /\ 4503599627370496 <= Zpos m <= 8556839292003942))%Z ->
    (40 <= hundredths m e <= 95)%Z.
Proof.
  intros m e H. unfold hundredths.
  destruct H as [[-> B]|[-> B]].
  - change (0 <=? -54)%Z with false. cbv iota.
    change (2 ^ (- -54))%Z with 18014398509481984%Z.
    pose proof (round_half_even_bounds (Zpos m * 100) 18014398509481984%Z) as R.
    assert (40 <= Zpos m * 100 / 18014398509481984)%Z
      by (apply Z.div_le_lower_bound; lia).
    assert (Zpos m * 100 / 18014398509481984 < 50)%Z
      by (apply Z.div_lt_upper_bound; lia).
    lia.
  - change (0 <=? -53)%Z with false. cbv iota.
    change (2 ^ (- -53))%Z with 9007199254740992%Z.
    pose proof (round_half_even_bounds (Zpos m * 100) 9007199254740992%Z) as R.
    assert (50 <= Zpos m * 100 / 9007199254740992)%Z
      by (apply Z.div_le_lower_bound; lia).
    assert (Zpos m * 100 / 9007199254740992 < 95)%Z
      by (apply Z.div_lt_upper_bound; lia).
    lia.
Qed.

Lemma hundredths_in_unit :
  forall h, (40 <= h <= 95)%Z -> in_unit (float_of_decimal false h (-2)).
Proof.
  intros h Hh.
  assert (A : forallb (fun k => unit_check (40 + Z.of_nat k)) (seq 0 56) = true)
    by (vm_compute; reflexivity).
  rewrite forallb_forall in A.
  specialize (A (Z.to_nat (h - 40))).
  replace (40 + Z.of_nat (Z.to_nat (h - 40)))%Z with h in A by lia.
  assert (I : In (Z.to_nat (h - 40)) (seq 0 56)) by (apply in_seq; lia).
  apply A in I. unfold unit_check in I. apply andb_true_iff in I. exact I.
Qed.

(** The merchant confidence: a clamp to [[0.4, 0.95]], then [round(_, 2)]. *)
Lemma clamp_round2_in_unit :
  forall x : float, in_unit (round2 (py_max2 0.4 (py_min2 x 0.95))).
Proof.
  intro x. unfold py_min2.
  destruct (0.95 <? x)%float eqn:Hhi.
  - vm_compute. split; reflexivity.
  - unfold py_max2. destruct (0.4 <? x)%float eqn:Hlo.
    + destruct (between_clamp_bounds x Hlo Hhi) as [m [e [E B]]].
      unfold round2. rewrite E.
      apply hundredths_in_unit. apply hundredths_between_clamp. exact B.
    + vm_compute. split; reflexivity.
Qed.

End RoundFacts.

(** ** The policy engine *)

Module PolicyFacts.
Import Facts.

Lemma issues_validate_with :
  forall to_float rid fields uc,
    issues (validate_policy_with to_float rid fields uc)
    = required_issues fields ++ confidence_issues_with to_float fields
        ++ meal_issues_with to_float fields.
Proof. reflexivity. Qed.

Lemma issues_validate :
  forall rid fields uc,
    issues (validate_policy rid fields uc)
    = required_issues fields ++ confidence_issues fields ++ meal_issues fields.
Proof. reflexivity. Qed.

Lemma has_severity_In :
  forall sev l i, In i l -> severity i = sev -> has_severity sev l = true.
Proof.
  intros sev l i Hi E. unfold has_severity. apply existsb_exists.
  exists i. split; [exact Hi|]. rewrite E. apply str_eqb_refl.
Qed.

Lemma aggregate_fail :
  forall l i, In i l -> severity i = lit "FAIL" -> aggregate l = lit "FAIL".
Proof.
  intros l i Hi E. unfold aggregate.
  rewrite (has_severity_In _ _ _ Hi E). reflexivity.
Qed.

(** C2: each of the five required fields whose value is missing or empty
    produces the issue (field, FAIL, POL-REQ-001), and the verdict is FAIL,
    for every field map and user context. *)
Theorem required_field_rule :
  forall rid fields uc f,
    In f REQUIRED_FIELDS ->
    falsy (value_of fields f) = true ->
    In (issue f (lit "FAIL") (lit "POL-REQ-001") (f ++ lit " is required."))
       (issues (validate_policy rid fields uc))
    /\ compliance (validate_policy rid fields uc) = lit "FAIL".
Proof.
  intros rid fields uc f Hf Hv.
  assert (Hin : In (issue f (lit "FAIL") (lit "POL-REQ-001")
                      (f ++ lit " is required."))
                   (issues (validate_policy rid fields uc))).
  { rewrite issues_validate. apply in_or_app. left.
    unfold required_issues. apply in_flat_map. exists f.
    split; [exact Hf|]. rewrite Hv. left. reflexivity. }
  split; [exact Hin|].
  change (compliance (validate_policy rid fields uc))
    with (aggregate (issues (validate_policy rid fields uc))).
  apply (aggregate_fail _ _ Hin). reflexivity.
Qed.

Lemma required_field_rule_witness :
  In (issue (lit "total") (lit "FAIL") (lit "POL-REQ-001")
        (lit "total is required."))
     (issues (validate_policy (lit "r_1") fields_without_total []))
  /\ compliance (validate_policy (lit "r_1") fields_without_total [])
     = lit "FAIL".
Proof.
  apply (required_field_rule (lit "r_1") fields_without_total [] (lit "total")).
  - simpl. auto.
  - reflexivity.
Defined.


(** *** The confidence-only case *)

Lemma get_of_key :
  forall (fields : FieldMap) f,
    In f (map fst fields) ->
    exists k v, In (k, v) fields /\ get fields f = Some v.
Proof.
  intro fm. induction fm as [|[k v] rest IH]; simpl; intros f H; [contradiction|].
  destruct (str_eqb k f) eqn:E.
  - exists k, v. split; [left; reflexivity | reflexivity].
  - destruct H as [H|H].
    + subst. rewrite str_eqb_refl in E. discriminate.
    + destruct (IH f H) as [k' [v' [Hin Hg]]].
      exists k', v'. split; [right; exact Hin | exact Hg].
Qed.

Lemma no_issue_no_evidence :
  forall rid fields uc,
    issues (validate_policy rid fields uc) = [] ->
    compliance (validate_policy rid fields uc) = lit "PASS"
    /\ rule_summaries (validate_policy rid fields uc) = []
    /\ rules_triggered (metadata (validate_policy rid fields uc)) = [].
Proof.
  intros rid fields uc H. rewrite issues_validate in H.
  unfold validate_policy, validate_policy_with. simpl.
  change (confidence_issues_with py_float) with confidence_issues.
  change (meal_issues_with py_float) with meal_issues.
  rewrite H. repeat split; reflexivity.
Qed.

(** C5: a field map over exactly the five canonical fields, each with a
    non-empty value and a confidence of at least 0.75, whose category is not
    a meal category, passes with no issue, no rule summary and no triggered
    rule. *)
Theorem confidence_only_pass :
  forall rid fields uc,
    Permutation (map fst fields) REQUIRED_FIELDS ->
    Forall (fun kv => well_scored (snd kv)) fields ->
    is_meal fields = false ->
    compliance (validate_policy rid fields uc) = lit "PASS"
    /\ issues (validate_policy rid fields uc) = []
    /\ rule_summaries (validate_policy rid fields uc) = []
    /\ rules_triggered (metadata (validate_policy rid fields uc)) = [].
Proof.
  intros rid fields uc Hkeys Hall Hmeal.
  rewrite Forall_forall in Hall.
  assert (E : issues (validate_policy rid fields uc) = []).
  { rewrite issues_validate.
    assert (R : required_issues fields = []).
    { apply flat_map_nil. intros f Hf.
      assert (Hk : In f (map fst fields))
        by (apply (Permutation_in f (Permutation_sym Hkeys)); exact Hf).
      destruct (get_of_key fields f Hk) as [k [v [Hin Hg]]].
      unfold value_of. rewrite Hg.
      destruct (Hall (k, v) Hin) as [Hv _]. simpl in Hv.
      rewrite Hv. reflexivity. }
    assert (C : confidence_issues fields = []).
    { apply flat_map_nil. intros [k v] Hin.
      destruct (Hall (k, v) Hin) as [_ Hc]. simpl in Hc.
      cbv beta iota zeta. fold (conf_of v).
      rewrite (leb_not_ltb _ _ Hc). reflexivity. }
    assert (M : meal_issues fields = [])
      by (unfold meal_issues, meal_issues_with; rewrite Hmeal; reflexivity).
    rewrite R, C, M. reflexivity. }
  destruct (no_issue_no_evidence rid fields uc E) as [H1 [H2 H3]].
  repeat split; assumption.
Qed.

Lemma confidence_only_pass_witness :
  compliance (validate_policy (lit "r_1") confident_fields []) = lit "PASS"
  /\ issues (validate_policy (lit "r_1") confident_fields []) = []
  /\ rule_summaries (validate_policy (lit "r_1") confident_fields []) = []
  /\ rules_triggered (metadata (validate_policy (lit "r_1") confident_fields []))
     = [].
Proof.
  apply (confidence_only_pass (lit "r_1") confident_fields []).
  - apply Permutation_refl.
  - repeat constructor.
  - reflexivity.
Defined.

(** *** The meal limit *)

Lemma required_rule_id :
  forall fields i, In i (required_issues fields) -> rule_id i = lit "POL-REQ-001".
Proof.
  intros fields i H. unfold required_issues in H.
  apply in_flat_map in H. destruct H as [f [_ H]].
  destruct (falsy (value_of fields f)); [|contradiction].
  destruct H as [H|[]]. subst. reflexivity.
Qed.

Lemma confidence_with_rule_id :
  forall to_float fields i,
    In i (confidence_issues_with to_float fields) ->
    rule_id i = lit "POL-CONF-100".
Proof.
  intros to_float fields i H. unfold confidence_issues_with in H.
  apply in_flat_map in H. destruct H as [[f v] [_ H]].
  destruct (conf_of_with to_float v <? CONF_THRESHOLD)%float; [|contradiction].
  destruct H as [H|[]]. subst. reflexivity.
Qed.

Lemma confidence_rule_id :
  forall fields i,
    In i (confidence_issues fields) -> rule_id i = lit "POL-CONF-100".
Proof. intros fields i. apply confidence_with_rule_id. Qed.

(** Only the third rule can raise one of the two meal rule identifiers. *)
Lemma has_meal_rule_iff :
  forall to_float rid fields uc r,
    r = lit "POL-LIM-010" \/ r = lit "POL-PARSE-101" ->
    (has_rule r (issues (validate_policy_with to_float rid fields uc))
     <-> has_rule r (meal_issues_with to_float fields)).
Proof.
  intros to_float rid fields uc r Hr. rewrite issues_validate_with.
  unfold has_rule. split.
  - intros [i [Hi E]].
    apply in_app_or in Hi. destruct Hi as [Hi|Hi].
    { apply required_rule_id in Hi. rewrite Hi in E.
      destruct Hr as [-> | ->]; vm_compute in E; discriminate. }
    apply in_app_or in Hi. destruct Hi as [Hi|Hi].
    { apply confidence_with_rule_id in Hi. rewrite Hi in E.
      destruct Hr as [-> | ->]; vm_compute in E; discriminate. }
    exists i. split; assumption.
  - intros [i [Hi E]]. exists i. split; [|exact E].
    apply in_or_app. right. apply in_or_app. right. exact Hi.
Qed.

Lemma in_meal_in_issues :
  forall to_float rid fields uc i,
    In i (meal_issues_with to_float fields) ->
    In i (issues (validate_policy_with to_float rid fields uc)).
Proof.
  intros. rewrite issues_validate_with.
  apply in_or_app. right. apply in_or_app. right. assumption.
Qed.

(** C6: the meal-limit check runs only for the categories meals, meal and
    food; there a total that [float()] reads as a number above 20 raises the
    FAIL issue POL-LIM-010 on total, a total that [float()] rejects raises
    the WARN issue POL-PARSE-101 instead, and no evaluation raises both.
    This holds whatever [float()] accepts, so for ASCII and other totals
    alike. *)
Theorem meal_limit_rule :
  forall (to_float : str -> option float) rid fields uc,
    let l := issues (validate_policy_with to_float rid fields uc) in
    (is_meal fields = false ->
       ~ has_rule (lit "POL-LIM-010") l /\ ~ has_rule (lit "POL-PARSE-101") l)
    /\ (is_meal fields = true ->
        forall t, to_float (meal_total_text fields) = Some t ->
          ((20 <? t)%float = true -> In LIMIT_ISSUE l)
          /\ ((20 <? t)%float = false -> ~ has_rule (lit "POL-LIM-010") l)
          /\ ~ has_rule (lit "POL-PARSE-101") l)
    /\ (is_meal fields = true ->
        to_float (meal_total_text fields) = None ->
          In PARSE_ISSUE l /\ ~ has_rule (lit "POL-LIM-010") l)
    /\ ~ (has_rule (lit "POL-LIM-010") l /\ has_rule (lit "POL-PARSE-101") l).
Proof.
  intros to_float rid fields uc l.
  assert (NL : ~ has_rule (lit "POL-LIM-010") (meal_issues_with to_float fields) ->
               ~ has_rule (lit "POL-LIM-010") l).
  { intros H C. apply H.
    apply (has_meal_rule_iff to_float rid fields uc _ (or_introl eq_refl)).
    exact C. }
  assert (NP : ~ has_rule (lit "POL-PARSE-101") (meal_issues_with to_float fields) ->
               ~ has_rule (lit "POL-PARSE-101") l).
  { intros H C. apply H.
    apply (has_meal_rule_iff to_float rid fields uc _ (or_intror eq_refl)).
    exact C. }
  assert (Hin := in_meal_in_issues to_float rid fields uc). fold l in Hin.
  assert (N0 : forall r, ~ has_rule r []) by (intros r [i [[] _]]).
  assert (N1 : ~ has_rule (lit "POL-PARSE-101") [LIMIT_ISSUE]).
  { intros [i [[Hi|[]] Hr]]. subst i. vm_compute in Hr. discriminate. }
  assert (N2 : ~ has_rule (lit "POL-LIM-010") [PARSE_ISSUE]).
  { intros [i [[Hi|[]] Hr]]. subst i. vm_compute in Hr. discriminate. }
  unfold meal_issues_with in NL, NP, Hin.
  destruct (is_meal fields).
  - destruct (to_float (meal_total_text fields)) as [t|].
    + split; [discriminate|]. split; [|split; [discriminate|]].
      * intros _ t' E. injection E as <-.
        destruct (20 <? t)%float; repeat split; try discriminate.
        -- intros _. apply Hin. left. reflexivity.
        -- apply NP. exact N1.
        -- intros _. apply NL. apply N0.
        -- apply NP. apply N0.
      * intros [_ C]. revert C.
        destruct (20 <? t)%float; apply NP; [exact N1 | apply N0].
    + split; [discriminate|]. split; [discriminate|]. split.
      * intros _ _. split; [apply Hin; left; reflexivity | apply NL; exact N2].
      * intros [C _]. revert C. apply NL. exact N2.
  - split; [intros _; split; [apply NL | apply NP]; apply N0|].
    split; [discriminate|]. split; [discriminate|].
    intros [C _]. revert C. apply NL. apply N0.
Qed.

Lemma meal_limit_rule_witness :
  In LIMIT_ISSUE
     (issues (validate_policy (lit "r_1") (meal_fields (lit "25.00")) []))
  /\ In PARSE_ISSUE
       (issues (validate_policy (lit "r_1") (meal_fields (lit "1,234.50")) []))
  /\ ~ has_rule (lit "POL-LIM-010")
         (issues (validate_policy (lit "r_1") confident_fields [])).
Proof.
  split; [|split].
  - destruct (meal_limit_rule py_float (lit "r_1") (meal_fields (lit "25.00")) [])
      as [_ [H _]].
    assert (M : is_meal (meal_fields (lit "25.00")) = true) by reflexivity.
    assert (P : py_float (meal_total_text (meal_fields (lit "25.00")))
                = Some 25%float) by (vm_compute; reflexivity).
    destruct (H M _ P) as [H1 _]. apply H1. reflexivity.
  - destruct (meal_limit_rule py_float (lit "r_1")
                (meal_fields (lit "1,234.50")) [])
      as [_ [_ [H _]]].
    assert (M : is_meal (meal_fields (lit "1,234.50")) = true) by reflexivity.
    assert (P : py_float (meal_total_text (meal_fields (lit "1,234.50")))
                = None) by (vm_compute; reflexivity).
    exact (proj1 (H M P)).
  - destruct (meal_limit_rule py_float (lit "r_1") confident_fields [])
      as [H _].
    assert (M : is_meal confident_fields = false) by reflexivity.
    exact (proj1 (H M)).
Defined.

Example meal_over_limit :
  issues (validate_policy (lit "r_1") (meal_fields (lit "25.00")) [])
  = [LIMIT_ISSUE].
Proof. vm_compute. reflexivity. Qed.

Example meal_unparsed_total :
  issues (validate_policy (lit "r_1") (meal_fields (lit "1,234.50")) [])
  = [PARSE_ISSUE].
Proof. vm_compute. reflexivity. Qed.

Example meal_within_limit :
  issues (validate_policy (lit "r_1") (meal_fields (lit "19.99")) []) = [].
Proof. vm_compute. reflexivity. Qed.

(** *** Evidence assembly *)

Lemma filter_filter_and :
  forall (A : Type) (p q : A -> bool) (l : list A),
    filter p (filter q l) = filter (fun x => q x && p x) l.
Proof.
  induction l as [|a l IH]; simpl; [reflexivity|].
  destruct (q a); simpl; [destruct (p a)|]; rewrite IH; reflexivity.
Qed.

Lemma distinct_first_filter :
  forall p l, distinct_first (filter p l) = filter p (distinct_first l).
Proof.
  intros p. induction l as [|x r IH]; simpl; [reflexivity|].
  destruct (p x) eqn:Px; simpl.
  - f_equal. rewrite IH.
    rewrite !filter_filter_and. apply filter_ext.
    intro y. apply andb_comm.
  - rewrite IH. rewrite filter_filter_and. apply filter_ext_in.
    intros y _. destruct (str_eqb y x) eqn:E; simpl; [|reflexivity].
    apply str_eqb_eq in E. subst. exact Px.
Qed.

Lemma distinct_first_In :
  forall l x, In x (distinct_first l) <-> In x l.
Proof.
  induction l as [|a l IH]; simpl; intros x; [tauto|].
  rewrite filter_In, IH. split.
  - intros [H|[H _]]; auto.
  - intros [H|H]; [auto|].
    destruct (str_eqb x a) eqn:E.
    + apply str_eqb_eq in E. auto.
    + right. split; [exact H | reflexivity].
Qed.

Lemma distinct_first_NoDup : forall l, NoDup (distinct_first l).
Proof.
  induction l as [|a l IH]; simpl; constructor.
  - rewrite filter_In. intros [_ H]. rewrite str_eqb_refl in H. discriminate.
  - apply NoDup_filter. exact IH.
Qed.

(** The identifiers that the loop of [attach_rule_summaries] emits. *)
Lemma attach_from_ids :
  forall l seen,
    map rs_rule_id (attach_from seen l)
    = distinct_first
        (filter (fun x => nonempty x && negb (str_in x seen)) (map rule_id l)).
Proof.
  induction l as [|i rest IH]; intros seen; simpl; [reflexivity|].
  destruct (nonempty (rule_id i)) eqn:Hn; simpl.
  - destruct (str_in (rule_id i) seen) eqn:Hs; simpl.
    + apply IH.
    + f_equal. rewrite IH. rewrite <- distinct_first_filter.
      rewrite filter_filter_and. f_equal. apply filter_ext.
      intro x. simpl.
      destruct (nonempty x), (str_eqb x (rule_id i)), (str_in x seen);
        reflexivity.
  - apply IH.
Qed.

(** No summary of the catalog is empty, so the test [if summary] of the
    source only separates a hit from a miss. *)
Lemma catalog_summaries_nonempty :
  forall k s, dict_get RULE_SUMMARIES k = Some s -> nonempty s = true.
Proof.
  intros k s. unfold RULE_SUMMARIES. cbn [dict_get].
  repeat match goal with
         | |- (if ?b then _ else _) = _ -> _ =>
             destruct b; [intro H; injection H as <-; reflexivity|]
         end.
  discriminate.
Qed.

Lemma attach_from_summaries :
  forall l seen rs,
    In rs (attach_from seen l) -> summary rs = summary_or_fallback (rs_rule_id rs).
Proof.
  induction l as [|i rest IH]; intros seen rs; cbn [attach_from];
    [contradiction|].
  destruct (negb (nonempty (rule_id i)) || str_in (rule_id i) seen).
  - apply IH.
  - intros [H|H]; [|exact (IH _ _ H)].
    subst rs. unfold summary_or_fallback. cbn [summary rs_rule_id].
    destruct (dict_get RULE_SUMMARIES (rule_id i)) as [s|] eqn:E; [|reflexivity].
    rewrite (catalog_summaries_nonempty _ _ E). reflexivity.
Qed.

(** The policy engine never emits an issue without a rule identifier. *)
Lemma engine_rule_ids_nonempty :
  forall rid fields uc i,
    In i (issues (validate_policy rid fields uc)) -> nonempty (rule_id i) = true.
Proof.
  intros rid fields uc i H. rewrite issues_validate in H.
  apply in_app_or in H. destruct H as [H|H].
  { rewrite (required_rule_id _ _ H). reflexivity. }
  apply in_app_or in H. destruct H as [H|H].
  { rewrite (confidence_rule_id _ _ H). reflexivity. }
  unfold meal_issues, meal_issues_with in H.
  destruct (is_meal fields); [|contradiction].
  destruct (py_float (meal_total_text fields)) as [t|].
  - destruct (20 <? t)%float; [|contradiction].
    destruct H as [H|[]]. subst. reflexivity.
  - destruct H as [H|[]]. subst. reflexivity.
Qed.

(** C7: the rule summaries of a compliance result list every distinct rule
    identifier of the issues once, in first-seen order; each summary is the
    catalog entry of its rule, or the fallback sentence when the catalog has
    none, for the engine's issues and for any other issue list alike (where
    only an empty identifier is skipped); and [rules_triggered] lists the
    identifiers of the summaries in the same order. *)
Theorem evidence_assembly :
  forall rid fields uc,
    let r := validate_policy rid fields uc in
    map rs_rule_id (rule_summaries r) = distinct_first (map rule_id (issues r))
    /\ NoDup (map rs_rule_id (rule_summaries r))
    /\ (forall x, In x (map rs_rule_id (rule_summaries r))
                  <-> In x (map rule_id (issues r)))
    /\ (forall l : list Issue,
          map rs_rule_id (attach_rule_summaries l)
          = distinct_first (filter nonempty (map rule_id l))
          /\ forall rs, In rs (attach_rule_summaries l) ->
               summary rs = summary_or_fallback (rs_rule_id rs))
    /\ rules_triggered (metadata r) = map rs_rule_id (rule_summaries r).
Proof.
  intros rid fields uc r.
  assert (G : forall l : list Issue,
             map rs_rule_id (attach_rule_summaries l)
             = distinct_first (filter nonempty (map rule_id l))).
  { intro l. unfold attach_rule_summaries. rewrite attach_from_ids.
    f_equal. apply filter_ext. intro x. simpl. apply andb_true_r. }
  assert (E : map rs_rule_id (rule_summaries r)
              = distinct_first (map rule_id (issues r))).
  { change (rule_summaries r) with (attach_rule_summaries (issues r)).
    rewrite G. f_equal. apply filter_all.
    intros x Hx. apply in_map_iff in Hx. destruct Hx as [i [<- Hi]].
    exact (engine_rule_ids_nonempty rid fields uc i Hi). }
  split; [exact E|]. split; [rewrite E; apply distinct_first_NoDup|].
  split; [intro x; rewrite E; apply distinct_first_In|].
  split; [|reflexivity].
  intro l. split; [apply G|].
  intros rs. apply attach_from_summaries.
Qed.

(** Two issues of one rule give one summary; an unknown rule gets the
    fallback sentence. *)
Example summaries_deduplicated :
  attach_rule_summaries
    [ issue (lit "total") (lit "WARN") (lit "POL-CONF-100") [];
      issue (lit "total") (lit "FAIL") (lit "POL-XYZ-999") [];
      issue (lit "date") (lit "WARN") (lit "POL-CONF-100") [] ]
  = [ {| rs_rule_id := lit "POL-CONF-100";
         summary := lit "The extracted value has low confidence and requires user review." |};
      {| rs_rule_id := lit "POL-XYZ-999"; summary := FALLBACK_SUMMARY |} ].
Proof. vm_compute. reflexivity. Qed.
End PolicyFacts.

(** ** The assembled field map and the pipeline *)

Module PipelineFacts.
Import Facts RoundFacts PolicyFacts.

Section Pipeline.

Variable py_sum : list float -> float.

(** The field map of [parse_receipt_fields] has the five keys in their fixed
    order, and the category placeholder at the end. *)
Lemma parsed_fields_shape :
  forall uuid_hex text words,
  exists m d t c,
    fields (parse_receipt_fields py_sum uuid_hex text words)
    = [ (lit "merchant", m); (lit "date", d); (lit "total", t);
        (lit "currency", c);
        (lit "category", mk_field (lit "Uncategorized") 0.2%float) ].
Proof.
  intros uuid_hex text words. unfold parse_receipt_fields.
  destruct (_find_merchant py_sum _ words) as [m mc].
  destruct (_find_date text) as [d dc].
  destruct (_find_total _) as [t tc].
  destruct (_find_currency text) as [c cc].
  cbn [fields]. eauto.
Qed.

(** C9: whatever the text, the words and the user context, the policy result
    of a parsed receipt holds the WARN issue POL-CONF-100 on the category
    field (the placeholder confidence 0.2 is below 0.75), so its verdict is
    WARN or FAIL and never PASS. *)
Theorem pipeline_never_auto_approved :
  forall uuid_hex text words uc,
    let rcpt := parse_receipt_fields py_sum uuid_hex text words in
    let r := validate_policy (receipt_id rcpt) (fields rcpt) uc in
    In CATEGORY_REVIEW (issues r)
    /\ (compliance r = lit "WARN" \/ compliance r = lit "FAIL")
    /\ compliance r <> lit "PASS".
Proof.
  intros uuid_hex text words uc rcpt r.
  assert (Hin : In CATEGORY_REVIEW (issues r)).
  { subst r. rewrite issues_validate.
    destruct (parsed_fields_shape uuid_hex text words) as [m [d [t [c E]]]].
    fold rcpt in E. rewrite E.
    apply in_or_app. right. apply in_or_app. left.
    unfold confidence_issues, confidence_issues_with. apply in_flat_map.
    exists (lit "category", mk_field (lit "Uncategorized") 0.2%float).
    split.
    - cbn [In]. do 4 right. left. reflexivity.
    - vm_compute. left. reflexivity. }
  assert (Hv : compliance r = lit "WARN" \/ compliance r = lit "FAIL").
  { change (compliance r) with (aggregate (issues r)). unfold aggregate.
    destruct (has_severity (lit "FAIL") (issues r)); [right; reflexivity|].
    rewrite (has_severity_In (lit "WARN") _ _ Hin eq_refl). left. reflexivity. }
  split; [exact Hin|]. split; [exact Hv|].
  destruct Hv as [E|E]; rewrite E; vm_compute; discriminate.
Qed.

(** *** The field map invariant *)

Lemma find_date_conf :
  forall text,
    In (snd (_find_date text)) [0.8%float; 0.75%float; 0.3%float].
Proof.
  intro text. unfold _find_date.
  destruct (search [SPACED_DATE_REGEX] text); [simpl; auto|].
  destruct (search [nth 0 DATE_REGEXES []] text); [simpl; auto|].
  destruct (search [nth 1 DATE_REGEXES []] text); simpl; auto.
Qed.

Lemma find_total_conf :
  forall lines,
    In (snd (_find_total lines))
       [0.7%float; 0.8%float; 0.65%float; 0.6%float; 0.5%float; 0.3%float].
Proof.
  intro lines. unfold _find_total.
  destruct (total_inputs lines) as [[tn sn] xn].
  assert (F : In (snd (total_fallback lines tn))
                 [0.7%float; 0.8%float; 0.65%float; 0.6%float; 0.5%float;
                  0.3%float]).
  { unfold total_fallback. destruct (nonempty tn).
    - destruct (py_float tn); simpl; auto.
    - destruct (_extract_all_amounts lines 30); simpl; auto 7. }
  destruct (nonempty sn && nonempty xn); [|exact F].
  unfold reconcile.
  destruct (py_float sn) as [st|]; [|exact F].
  destruct (py_float xn) as [tx|]; [|exact F].
  destruct (nonempty tn).
  - destruct (py_float tn) as [t|]; [|exact F].
    destruct (1.0 <? abs (t - (st + tx)))%float; simpl; auto.
  - simpl. auto.
Qed.

Lemma find_currency_conf :
  forall text, In (snd (_find_currency text)) [0.9%float; 0.6%float].
Proof.
  intro text. unfold _find_currency.
  destruct (search CURRENCY_REGEX text); simpl; auto.
Qed.

Lemma find_merchant_conf :
  forall lines words, in_unit (snd (_find_merchant py_sum lines words)).
Proof.
  intros lines words. unfold _find_merchant.
  destruct (flat_map _ (firstn 12 lines)) as [|c cs].
  - vm_compute. split; reflexivity.
  - cbn [snd]. apply clamp_round2_in_unit.
Qed.

Lemma round2_constants_in_unit :
  forall c,
    In c [0.9%float; 0.8%float; 0.75%float; 0.7%float; 0.65%float;
          0.6%float; 0.5%float; 0.3%float] ->
    in_unit (round2 c).
Proof.
  intros c H. cbn [In] in H.
  repeat (destruct H as [<-|H]; [vm_compute; split; reflexivity|]).
  contradiction.
Qed.

(** C3: for every text and word list, the field map of
    [parse_receipt_fields] has exactly the keys merchant, date, total,
    currency and category, and every field carries a confidence between 0
    and 1. *)
Theorem field_map_invariant :
  forall uuid_hex text words,
    let fm := fields (parse_receipt_fields py_sum uuid_hex text words) in
    map fst fm = REQUIRED_FIELDS
    /\ Forall (fun kv => scored_in_unit (snd kv)) fm.
Proof.
  intros uuid_hex text words. unfold parse_receipt_fields.
  match goal with
  | |- context [_find_merchant py_sum ?ls words] =>
      pose proof (find_merchant_conf ls words) as Hm;
      pose proof (find_total_conf ls) as Ht
  end.
  pose proof (find_date_conf text) as Hd.
  pose proof (find_currency_conf text) as Hc.
  destruct (_find_merchant py_sum _ words) as [m mc].
  destruct (_find_date text) as [d dc].
  destruct (_find_total _) as [t tc].
  destruct (_find_currency text) as [c cc].
  cbn [snd] in Hm, Hd, Ht, Hc. cbv zeta. cbn [fields].
  split; [reflexivity|].
  assert (Hd' : in_unit (round2 dc)).
  { apply round2_constants_in_unit. cbn [In] in *. intuition auto. }
  assert (Ht' : in_unit (round2 tc)).
  { apply round2_constants_in_unit. cbn [In] in *. intuition auto 10. }
  assert (Hc' : in_unit (round2 cc)).
  { apply round2_constants_in_unit. cbn [In] in *. intuition auto. }
  repeat constructor; cbn [snd]; unfold scored_in_unit, mk_field;
    cbn [value confidence]; eauto.
  do 2 eexists. split; [reflexivity|]. split; [reflexivity|].
  vm_compute. split; reflexivity.
Qed.

End Pipeline.

End PipelineFacts.
(** ** The confidence estimator *)

Module EstimatorFacts.
Import Facts.

Lemma token_matchb_spec :
  forall fold tokens w,
    token_matchb fold tokens w = true <-> token_match fold tokens w.
Proof.
  intros fold tokens w. unfold token_matchb, token_match.
  rewrite existsb_exists. split.
  - intros [t [Hin H]]. apply andb_true_iff in H. destruct H as [Hn He].
    exists t. split; [exact Hin|]. split.
    + destruct t; [discriminate | discriminate].
    + apply str_eqb_eq. exact He.
  - intros [t [Hin [Hn He]]]. exists t. split; [exact Hin|].
    apply andb_true_iff. split.
    + destruct t; [contradiction | reflexivity].
    + apply str_eqb_eq. exact He.
Qed.

(** Membership in the lowercased token set of the source is a match with
    some non-empty token. *)
Lemma token_set_matchb :
  forall fold tokens w,
    str_in (fold (text_or_empty w)) (map fold (filter nonempty tokens))
    = token_matchb fold tokens w.
Proof.
  intros fold tokens w. unfold str_in, token_matchb.
  induction tokens as [|t ts IH]; simpl; [reflexivity|].
  destruct (nonempty t); simpl; rewrite IH; reflexivity.
Qed.

Lemma matched_confs_with_matching :
  forall fold words tokens,
    matched_confs_with fold words tokens = matching_confs fold words tokens.
Proof.
  intros fold words tokens. unfold matched_confs_with, matching_confs.
  apply flat_map_ext. intro w. rewrite token_set_matchb.
  unfold nonneg_conf. destruct (conf w) as [c|].
  - destruct (token_matchb fold tokens w), (0 <=? c)%float; reflexivity.
  - destruct (token_matchb fold tokens w); reflexivity.
Qed.

Lemma matched_confs_matching :
  forall words tokens,
    matched_confs words tokens = matching_confs lower words tokens.
Proof. intros. apply matched_confs_with_matching. Qed.

Lemma matching_confs_nil :
  forall fold words tokens,
    matching_confs fold words tokens = []
    <-> forall w, In w words -> ~ word_matches fold tokens w.
Proof.
  intros fold words tokens. unfold matching_confs. split.
  - intros H w Hw [Ht [c Hc]].
    assert (I : In c (flat_map
                        (fun w => if token_matchb fold tokens w
                                  then match nonneg_conf w with
                                       | Some c => [c]
                                       | None => []
                                       end
                                  else []) words)).
    { apply in_flat_map. exists w. split; [exact Hw|].
      apply token_matchb_spec in Ht. rewrite Ht, Hc. left. reflexivity. }
    rewrite H in I. contradiction.
  - intro H. apply flat_map_nil. intros w Hw.
    destruct (token_matchb fold tokens w) eqn:Ht; [|reflexivity].
    destruct (nonneg_conf w) as [c|] eqn:Hc; [|reflexivity].
    exfalso. apply (H w Hw). split.
    + apply token_matchb_spec. exact Ht.
    + exists c. exact Hc.
Qed.

Section Estimator.

Variable py_sum : list float -> float.

(** C8: for every word list and every phrase, and whatever lowercasing
    [fold] the interpreter applies, the estimator returns 0.0 when the
    phrase has no tokens; 0.5 when it has tokens but no word with a
    confidence of at least 0 has a lowercased text equal to a lowercased
    token of the set, from which empty tokens are excluded; and otherwise
    the mean (sum over count) of the matching words' confidences. *)
Theorem avg_conf_cases :
  forall (fold : str -> str) words tokens,
    (tokens = [] -> avg_conf_with py_sum fold words tokens = 0.0%float)
    /\ (tokens <> [] ->
        (forall w, In w words -> ~ word_matches fold tokens w) ->
        avg_conf_with py_sum fold words tokens = 0.5%float)
    /\ (tokens <> [] ->
        (exists w, In w words /\ word_matches fold tokens w) ->
        avg_conf_with py_sum fold words tokens
        = mean py_sum (matching_confs fold words tokens)).
Proof.
  intros fold words tokens. unfold avg_conf_with.
  rewrite matched_confs_with_matching.
  destruct tokens as [|t ts].
  - split; [reflexivity|]. split; intro H; contradiction.
  - split; [discriminate|]. split.
    + intros _ H. rewrite (proj2 (matching_confs_nil _ _ _) H). reflexivity.
    + intros _ [w [Hw Hm]].
      destruct (matching_confs fold words (t :: ts)) as [|c cs] eqn:E.
      * exfalso. exact (proj1 (matching_confs_nil _ _ _) E w Hw Hm).
      * reflexivity.
Qed.

End Estimator.

Lemma avg_conf_cases_witness :
  _avg_conf sum_left two_words [] = 0.0%float
  /\ _avg_conf sum_left two_words [lit "bakery"] = 0.5%float
  /\ _avg_conf sum_left two_words [lit "acme"; lit "STORE"]
     = mean sum_left [0.9%float; 0.8%float].
Proof.
  split; [|split].
  - apply (proj1 (avg_conf_cases sum_left lower two_words [])). reflexivity.
  - apply (proj1 (proj2 (avg_conf_cases sum_left lower two_words
                           [lit "bakery"]))).
    + discriminate.
    + intros w Hw [Ht _]. apply token_matchb_spec in Ht.
      cbn [In two_words] in Hw.
      destruct Hw as [<-|[<-|[<-|[]]]]; vm_compute in Ht; discriminate.
  - apply (proj2 (proj2 (avg_conf_cases sum_left lower two_words
                           [lit "acme"; lit "STORE"]))).
    + discriminate.
    + exists {| text := Some (lit "ACME"); conf := Some 0.9%float |}.
      split; [left; reflexivity|]. split.
      * apply token_matchb_spec. vm_compute. reflexivity.
      * exists 0.9%float. vm_compute. reflexivity.
Defined.

End EstimatorFacts.
(** ** Date extraction *)

Module DateFacts.
Import Facts RegexFacts.

Lemma digit_classes :
  forall c, is_digit c = true ->
    is_space c = false /\ is_sep c = false /\ is_word c = true.
Proof.
  intros c H. unfold is_word. rewrite H, orb_true_r. simpl.
  unfold is_digit, is_space, is_sep, in_range in *.
  apply andb_true_iff in H. destruct H as [H1 H2].
  apply Nat.leb_le in H1, H2.
  repeat split.
  - apply orb_false_iff. split; apply andb_false_iff.
    + right. apply Nat.leb_gt. lia.
    + right. apply Nat.leb_gt. lia.
  - destruct (Ascii.eqb_spec c "."); [subst; vm_compute in H1; lia|].
    destruct (Ascii.eqb_spec c "/"); [subst; vm_compute in H1; lia|].
    destruct (Ascii.eqb_spec c "-"); [subst; vm_compute in H1; lia|].
    reflexivity.
Qed.

Lemma sep_classes :
  forall c, is_sep c = true -> is_space c = false /\ is_digit c = false.
Proof.
  intros c H. unfold is_sep in H.
  destruct (Ascii.eqb_spec c "."); [subst; split; reflexivity|].
  destruct (Ascii.eqb_spec c "/"); [subst; split; reflexivity|].
  destruct (Ascii.eqb_spec c "-"); [subst; split; reflexivity|].
  discriminate.
Qed.

(** At an un-spaced date between two word boundaries, the spaced pattern
    matches the date itself, every [\s*] matching no character. *)
Lemma spaced_matches_iso :
  forall prev d post,
    iso_date d = true ->
    is_word_opt prev = false ->
    is_word_opt (hd_error post) = false ->
    match_here SPACED_DATE_REGEX prev (d ++ post) = Some (d, post).
Proof.
  intros prev d post Hd Hp Hq.
  destruct d as [|y1 [|y2 [|y3 [|y4 [|s1 [|m1 [|m2 [|s2 [|d1 [|d2 [|x d]]]]]]]]]]];
    try discriminate.
  cbn [iso_date] in Hd.
  do 9 (apply andb_true_iff in Hd; destruct Hd as [Hd ?]).
  repeat match goal with
         | H : is_digit ?c = true |- _ =>
             destruct (digit_classes c H) as [? [? ?]]; revert H
         | H : is_sep ?c = true |- _ =>
             destruct (sep_classes c H) as [? ?]; revert H
         end.
  intros.
  unfold SPACED_DATE_REGEX.
  repeat (cbn [match_here app hd_error is_word_opt span option_map pred
                 length Nat.ltb Nat.leb map last xorb];
          unfold at_boundary, prev_after; rewrite ?span_zero;
          repeat match goal with
                 | H : _ = true |- _ => rewrite H
                 | H : _ = false |- _ => rewrite H
                 end).
  reflexivity.
Qed.

(** What a match of the un-spaced pattern [DATE_REGEXES[0]] looks like. *)
Lemma iso_match_inversion :
  forall prev s m r,
    match_here (nth 0 DATE_REGEXES []) prev s = Some (m, r) ->
    iso_date m = true /\ s = m ++ r
    /\ is_word_opt prev = false /\ is_word_opt (hd_error r) = false.
Proof.
  intros prev s m r H. cbn [nth DATE_REGEXES match_here] in H.
  destruct (at_boundary prev s) eqn:B; [|discriminate].
  destruct (span is_digit (Some 4) s) as [t1 r1] eqn:E1.
  destruct (Nat.ltb (length t1) 4) eqn:L1; [discriminate|].
  destruct (span is_sep (Some 1) r1) as [t2 r2] eqn:E2.
  destruct (Nat.ltb (length t2) 1) eqn:L2; [discriminate|].
  destruct (span is_digit (Some 2) r2) as [t3 r3] eqn:E3.
  destruct (Nat.ltb (length t3) 2) eqn:L3; [discriminate|].
  destruct (span is_sep (Some 1) r3) as [t4 r4] eqn:E4.
  destruct (Nat.ltb (length t4) 1) eqn:L4; [discriminate|].
  destruct (span is_digit (Some 2) r4) as [t5 r5] eqn:E5.
  destruct (Nat.ltb (length t5) 2) eqn:L5; [discriminate|].
  destruct (at_boundary
              (prev_after
                 (prev_after (prev_after (prev_after (prev_after prev t1) t2) t3)
                    t4) t5) r5) eqn:B'; [|discriminate].
  injection H as <- <-.
  apply Nat.ltb_ge in L1, L2, L3, L4, L5.
  pose proof (span_length _ _ _ _ _ E1) as U1.
  pose proof (span_length _ _ _ _ _ E2) as U2.
  pose proof (span_length _ _ _ _ _ E3) as U3.
  pose proof (span_length _ _ _ _ _ E4) as U4.
  pose proof (span_length _ _ _ _ _ E5) as U5.
  destruct (span_spec _ _ _ _ _ E1) as [-> A1].
  destruct (span_spec _ _ _ _ _ E2) as [-> A2].
  destruct (span_spec _ _ _ _ _ E3) as [-> A3].
  destruct (span_spec _ _ _ _ _ E4) as [-> A4].
  destruct (span_spec _ _ _ _ _ E5) as [-> A5].
  destruct t1 as [|y1 [|y2 [|y3 [|y4 [|x t1]]]]]; simpl in L1, U1; try lia.
  destruct t2 as [|s1 [|x t2]]; simpl in L2, U2; try lia.
  destruct t3 as [|m1 [|m2 [|x t3]]]; simpl in L3, U3; try lia.
  destruct t4 as [|s2 [|x t4]]; simpl in L4, U4; try lia.
  destruct t5 as [|d1 [|d2 [|x t5]]]; simpl in L5, U5; try lia.
  cbn [forallb] in A1, A2, A3, A4, A5.
  rewrite andb_true_r in A1, A2, A3, A4, A5.
  apply andb_true_iff in A1. destruct A1 as [Hy1 A1].
  apply andb_true_iff in A1. destruct A1 as [Hy2 A1].
  apply andb_true_iff in A1. destruct A1 as [Hy3 Hy4].
  apply andb_true_iff in A3. destruct A3 as [Hm1 Hm2].
  apply andb_true_iff in A5. destruct A5 as [Hd1 Hd2].
  destruct (digit_classes y1 Hy1) as [_ [_ W1]].
  destruct (digit_classes d2 Hd2) as [_ [_ W2]].
  unfold at_boundary in B, B'. unfold prev_after in B'.
  cbn [app hd_error is_word_opt map last] in B, B'.
  rewrite W1 in B. rewrite W2 in B'.
  split; [|split; [|split]].
  - cbn [app iso_date].
    rewrite Hy1, Hy2, Hy3, Hy4, A2, Hm1, Hm2, A4, Hd1, Hd2. reflexivity.
  - cbn [app]. reflexivity.
  - destruct (is_word_opt prev); [discriminate | reflexivity].
  - destruct (is_word_opt (hd_error r5)); [discriminate | reflexivity].
Qed.

(** The spaced pattern finds a match wherever the un-spaced YYYY-MM-DD
    pattern does: the first entry of [DATE_REGEXES] never decides. *)
Lemma iso_pattern_is_shadowed :
  forall text,
    search [SPACED_DATE_REGEX] text = None ->
    search [nth 0 DATE_REGEXES []] text = None.
Proof.
  unfold search. intro text. generalize (@None ascii).
  induction text as [|c text IH]; intros prev H.
  - cbn [search_from first_alt] in *.
    destruct (match_here (nth 0 DATE_REGEXES []) prev []) as [[m r]|] eqn:E;
      [|reflexivity].
    destruct (iso_match_inversion _ _ _ _ E) as [Hd [Es [Hp Hq]]].
    rewrite Es, (spaced_matches_iso _ _ _ Hd Hp Hq) in H. discriminate.
  - cbn [search_from first_alt] in *.
    destruct (match_here (nth 0 DATE_REGEXES []) prev (c :: text))
      as [[m r]|] eqn:E.
    + destruct (iso_match_inversion _ _ _ _ E) as [Hd [Es [Hp Hq]]].
      rewrite Es, (spaced_matches_iso _ _ _ Hd Hp Hq) in H. discriminate.
    + apply IH.
      destruct (match_here SPACED_DATE_REGEX prev (c :: text)) as [[m r]|];
        [discriminate | exact H].
Qed.

(** C4: the un-spaced date "2013-11-03" comes back with confidence 0.8 and
    not with the 0.75 of [DATE_REGEXES].  The first entry of [DATE_REGEXES]
    matches the date, but the pattern for dates with blanks around the
    separators is tried before it, and its optional blanks make it match
    the date without blanks as well. *)
Theorem find_date_iso_confidence :
  _find_date (lit "2013-11-03") = (lit "2013-11-03", 0.8%float)
  /\ search [SPACED_DATE_REGEX] (lit "2013-11-03") = Some (lit "2013-11-03")
  /\ search [nth 0 DATE_REGEXES []] (lit "2013-11-03")
     = Some (lit "2013-11-03")
  /\ (0.8 =? 0.75)%float = false.
Proof.
  split; [vm_compute; reflexivity|].
  split; [vm_compute; reflexivity|].
  split; vm_compute; reflexivity.
Qed.

End DateFacts.

(** ** Amounts: the keyword search, normalization and parsing *)

Module AmountFacts.
Import Facts RegexFacts.

(** What a match of [AMOUNT_REGEX] looks like. *)
Lemma match_amount_shape :
  forall prev s m r,
    match_here AMOUNT_REGEX prev s = Some (m, r) ->
    exists ds sep a b,
      m = ds ++ [sep; a; b] /\ s = m ++ r /\ ds <> []
      /\ forallb is_digit ds = true /\ is_dot_or_comma sep = true
      /\ is_digit a = true /\ is_digit b = true.
Proof.
  intros prev s m r H. unfold AMOUNT_REGEX in H. cbn [match_here] in H.
  destruct (span is_digit None s) as [t1 r1] eqn:E1.
  destruct (Nat.ltb (length t1) 1) eqn:L1; [discriminate|].
  destruct (span is_dot_or_comma (Some 1) r1) as [t2 r2] eqn:E2.
  destruct (Nat.ltb (length t2) 1) eqn:L2; [discriminate|].
  destruct (span is_digit (Some 2) r2) as [t3 r3] eqn:E3.
  destruct (Nat.ltb (length t3) 2) eqn:L3; [discriminate|].
  injection H as <- <-.
  apply Nat.ltb_ge in L1, L2, L3.
  pose proof (span_length _ _ _ _ _ E2) as U2.
  pose proof (span_length _ _ _ _ _ E3) as U3.
  destruct (span_spec _ _ _ _ _ E1) as [-> A1].
  destruct (span_spec _ _ _ _ _ E2) as [-> A2].
  destruct (span_spec _ _ _ _ _ E3) as [-> A3].
  destruct t2 as [|sep [|x t2]]; simpl in L2, U2; try lia.
  destruct t3 as [|a [|b [|x t3]]]; simpl in L3, U3; try lia.
  simpl in A2, A3.
  rewrite andb_true_r in A2.
  apply andb_true_iff in A3. destruct A3 as [Ha A3].
  rewrite andb_true_r in A3.
  exists t1, sep, a, b. rewrite app_nil_r.
  repeat split; try assumption.
  - rewrite <- !app_assoc. reflexivity.
  - destruct t1; [simpl in L1; lia | discriminate].
Qed.

Lemma replace_no_comma : forall line, no_comma (replace_char "," "." line) = true.
Proof.
  induction line as [|c line IH]; [reflexivity|].
  unfold no_comma, replace_char in *. cbn [map forallb]. rewrite IH.
  destruct (Ascii.eqb c ",") eqn:E; [reflexivity|]. rewrite E. reflexivity.
Qed.

(** On a text without commas every match found is digits, a dot and two
    digits. *)
Lemma finditer_amount_text :
  forall s skip prev m,
    no_comma s = true ->
    In m (finditer_from AMOUNT_REGEX skip prev s) -> amount_text m.
Proof.
  induction s as [|c s IH]; intros skip prev m Hs Hin; [contradiction|].
  assert (Hs' : no_comma s = true).
  { unfold no_comma in *. simpl in Hs. apply andb_true_iff in Hs. tauto. }
  cbn [finditer_from] in Hin. destruct skip as [|k].
  - destruct (match_here AMOUNT_REGEX prev (c :: s)) as [[m0 r]|] eqn:E.
    + destruct Hin as [<-|Hin]; [|exact (IH _ _ _ Hs' Hin)].
      destruct (match_amount_shape _ _ _ _ E)
        as [ds [sep [a [b [Em [Es [Hne [Hds [Hsep [Ha Hb]]]]]]]]]].
      assert (Hc : negb (Ascii.eqb sep ",") = true).
      { unfold no_comma in Hs. rewrite forallb_forall in Hs. apply Hs.
        rewrite Es, Em. apply in_or_app. left. apply in_or_app. right.
        left. reflexivity. }
      unfold is_dot_or_comma in Hsep.
      destruct (Ascii.eqb sep ",") eqn:E2; [discriminate|].
      rewrite orb_false_r in Hsep. apply Ascii.eqb_eq in Hsep. subst sep.
      exists ds, a, b. repeat split; assumption.
    + exact (IH _ _ _ Hs' Hin).
  - exact (IH _ _ _ Hs' Hin).
Qed.

Lemma amount_on_lines_text :
  forall key avoid rlines m,
    amount_on_lines key avoid rlines = Some m -> amount_text m.
Proof.
  intros key avoid. induction rlines as [|line rest IH]; intros m H;
    [discriminate|].
  cbn [amount_on_lines] in H.
  destruct (contains key (lower line)); [|exact (IH _ H)].
  destruct (match avoid with
            | Some a => nonempty a && contains a (lower line)
            | None => false
            end); [exact (IH _ H)|].
  destruct (rev (finditer AMOUNT_REGEX (replace_char "," "." line)))
    as [|m0 ms] eqn:E; [exact (IH _ H)|].
  injection H as <-.
  apply (finditer_amount_text (replace_char "," "." line) 0 None).
  - apply replace_no_comma.
  - apply in_rev. fold (finditer AMOUNT_REGEX (replace_char "," "." line)).
    rewrite E. left. reflexivity.
Qed.

(** Every amount that the keyword search returns is digits, a dot and two
    decimal digits. *)
Lemma extract_amount_text :
  forall lines keyword avoid m,
    _extract_amount_on_lines lines keyword avoid = Some m -> amount_text m.
Proof.
  intros lines keyword avoid m H. unfold _extract_amount_on_lines in H.
  exact (amount_on_lines_text _ _ _ _ H).
Qed.

(** *** Digits are not blanks, signs, separators or letters *)

Lemma digit_code :
  forall c, is_digit c = true -> 48 <= code c <= 57.
Proof.
  intros c H. unfold is_digit, in_range in H.
  apply andb_true_iff in H. destruct H as [H1 H2].
  apply Nat.leb_le in H1, H2. lia.
Qed.

Lemma digit_differs :
  forall c x, is_digit c = true -> is_digit x = false -> Ascii.eqb c x = false.
Proof.
  intros c x Hc Hx. destruct (Ascii.eqb_spec c x); [subst; congruence|].
  reflexivity.
Qed.

Lemma digit_not_blank :
  forall c, is_digit c = true ->
    is_space c = false /\ is_c_space c = false /\ is_underscore c = false
    /\ lower_char c = c.
Proof.
  intros c H. apply digit_code in H.
  unfold is_space, is_c_space, is_underscore, lower_char, in_range.
  assert (A : forall lo hi, hi < 48 \/ 57 < lo ->
            Nat.leb lo (code c) && Nat.leb (code c) hi = false).
  { intros lo hi Hr. apply andb_false_iff.
    destruct Hr; [right|left]; apply Nat.leb_gt; lia. }
  rewrite (A 9 13), (A 28 32), (A 65 90) by lia.
  repeat split; cbn [orb]; apply Nat.eqb_neq; lia.
Qed.

Lemma amount_char_plain :
  forall c, amount_char c = true ->
    Ascii.eqb c "," = false /\ is_underscore c = false.
Proof.
  intros c H. unfold amount_char in H. apply orb_true_iff in H.
  destruct H as [H|H].
  - split; [apply digit_differs; [exact H | reflexivity]|].
    apply (digit_not_blank c H).
  - apply Ascii.eqb_eq in H. subst. split; reflexivity.
Qed.

Lemma amount_text_chars :
  forall ds a b,
    forallb is_digit ds = true -> is_digit a = true -> is_digit b = true ->
    forallb amount_char (ds ++ ["."%char; a; b]) = true.
Proof.
  intros ds a b Hds Ha Hb. rewrite forallb_app. apply andb_true_iff. split.
  - rewrite forallb_forall in *. intros c Hc. unfold amount_char.
    rewrite (Hds c Hc). reflexivity.
  - unfold amount_char. simpl. rewrite Ha, Hb. reflexivity.
Qed.

(** Stripping leaves a text alone whose first and last characters are not
    stripped. *)
Lemma strip_with_id :
  forall p c s z,
    p c = false -> p z = false -> strip_with p (c :: s ++ [z]) = c :: s ++ [z].
Proof.
  intros p c s z Hc Hz. unfold strip_with. cbn [drop_while]. rewrite Hc.
  change (c :: s ++ [z]) with ((c :: s) ++ [z]).
  rewrite rev_app_distr. cbn [rev app drop_while]. rewrite Hz.
  change (z :: rev s ++ [c]) with ([z] ++ rev (c :: s)).
  rewrite rev_app_distr, rev_involutive. reflexivity.
Qed.

(** An amount text read as [first digit :: middle ++ [last digit]]. *)
Lemma amount_text_ends :
  forall m, amount_text m ->
    exists c s z, m = c :: s ++ [z] /\ is_digit c = true /\ is_digit z = true.
Proof.
  intros m [ds [a [b [-> [Hne [Hds [Ha Hb]]]]]]].
  destruct ds as [|c ds]; [contradiction|].
  simpl in Hds. apply andb_true_iff in Hds. destruct Hds as [Hc Hds].
  exists c, (ds ++ ["."%char; a]), b. split; [|split; assumption].
  simpl. rewrite <- app_assoc. reflexivity.
Qed.

Lemma map_id_in :
  forall (A : Type) (f : A -> A) (l : list A),
    (forall x, In x l -> f x = x) -> map f l = l.
Proof.
  induction l as [|a l IH]; intros H; [reflexivity|].
  simpl. rewrite (H a (or_introl eq_refl)). f_equal.
  apply IH. intros x Hx. apply H. right. exact Hx.
Qed.

(** Normalization leaves an extracted amount as it is. *)
Lemma normalize_amount_text :
  forall m, amount_text m -> _normalize_amount m = m.
Proof.
  intros m Hm.
  destruct (amount_text_ends m Hm) as [c [s [z [E [Hc Hz]]]]].
  destruct Hm as [ds [a [b [Em [Hne [Hds [Ha Hb]]]]]]].
  pose proof (amount_text_chars ds a b Hds Ha Hb) as Hch.
  rewrite <- Em in Hch. rewrite forallb_forall in Hch.
  unfold _normalize_amount.
  assert (N : nonempty m = true) by (rewrite E; reflexivity).
  rewrite N. cbn [negb].
  assert (S : strip m = m).
  { rewrite E. apply strip_with_id.
    - apply (digit_not_blank c Hc).
    - apply (digit_not_blank z Hz). }
  rewrite S.
  assert (R : replace_char "," "." m = m).
  { unfold replace_char. apply map_id_in. intros x Hx.
    destruct (amount_char_plain x (Hch x Hx)) as [Hx' _]. rewrite Hx'.
    reflexivity. }
  rewrite R. apply filter_all. exact Hch.
Qed.

Lemma underscores_ok_plain :
  forall s prev,
    match prev with Some p => is_underscore p = false | None => True end ->
    forallb (fun c => negb (is_underscore c)) s = true ->
    underscores_ok prev s = true.
Proof.
  induction s as [|c s IH]; intros prev Hp Hs.
  - simpl. destruct prev as [p|]; [rewrite Hp|]; reflexivity.
  - simpl in Hs. apply andb_true_iff in Hs. destruct Hs as [Hc Hs].
    apply negb_true_iff in Hc.
    cbn [underscores_ok]. rewrite Hc.
    rewrite (IH (Some c) Hc Hs).
    destruct prev as [p|]; [rewrite Hp|]; reflexivity.
Qed.

(** [float()] accepts an extracted amount and reads the number of
    hundredths that its digits spell. *)
Lemma py_float_amount_text :
  forall ds a b,
    ds <> [] -> forallb is_digit ds = true ->
    is_digit a = true -> is_digit b = true ->
    py_float (ds ++ ["."%char; a; b])
    = Some (float_of_decimal false (Z_of_digits (ds ++ [a; b])) (-2)).
Proof.
  intros ds a b Hne Hds Ha Hb.
  set (m := ds ++ ["."%char; a; b]).
  assert (Hm : amount_text m) by (exists ds, a, b; repeat split; assumption).
  destruct (amount_text_ends m Hm) as [c [s [z [E [Hc Hz]]]]].
  pose proof (amount_text_chars ds a b Hds Ha Hb) as Hch.
  fold m in Hch. rewrite forallb_forall in Hch.
  unfold py_float.
  assert (S : strip_with is_c_space m = m).
  { rewrite E. apply strip_with_id.
    - apply (digit_not_blank c Hc).
    - apply (digit_not_blank z Hz). }
  rewrite S.
  assert (P : forallb (fun x => negb (is_underscore x)) m = true).
  { apply forallb_forall. intros x Hx.
    destruct (amount_char_plain x (Hch x Hx)) as [_ Hu]. rewrite Hu.
    reflexivity. }
  rewrite (underscores_ok_plain m None I P). cbn [negb].
  rewrite (filter_all _ _ m (proj1 (forallb_forall _ _) P)).
  assert (G : parse_sign m = (false, m)).
  { rewrite E. unfold parse_sign.
    rewrite (digit_differs c "-" Hc eq_refl), (digit_differs c "+" Hc eq_refl).
    reflexivity. }
  rewrite G.
  assert (L : forall w, str_eqb (lower m) (lit w) = true -> is_digit c = true ->
                        match w with
                        | String x _ => is_digit x = false
                        | EmptyString => True
                        end -> False).
  { intros w Hw _ Hx. rewrite E in Hw. destruct w as [|x w]; [discriminate|].
    cbn [lower map lit list_ascii_of_string str_eqb] in Hw.
    apply andb_true_iff in Hw. destruct Hw as [Hw _].
    destruct (digit_not_blank c Hc) as [_ [_ [_ Hl]]]. rewrite Hl in Hw.
    rewrite (digit_differs c x Hc Hx) in Hw. discriminate. }
  destruct (str_eqb (lower m) (lit "inf")) eqn:L1;
    [exfalso; exact (L _ L1 Hc eq_refl)|].
  destruct (str_eqb (lower m) (lit "infinity")) eqn:L2;
    [exfalso; exact (L _ L2 Hc eq_refl)|].
  destruct (str_eqb (lower m) (lit "nan")) eqn:L3;
    [exfalso; exact (L _ L3 Hc eq_refl)|].
  cbn [orb].
  unfold parse_number. subst m.
  rewrite (span_app_stop is_digit ds "." [a; b] Hds eq_refl).
  rewrite Ascii.eqb_refl.
  rewrite (span_all is_digit [a; b]) by (simpl; rewrite Ha, Hb; reflexivity).
  destruct ds as [|d ds]; [contradiction|].
  cbn [length Nat.add Nat.eqb]. reflexivity.
Qed.

(** *** Amounts are read as numbers that are neither negative nor NaN *)

Lemma shr_1_nonneg :
  forall mrs, (0 <= shr_m mrs)%Z -> (0 <= shr_m (shr_1 mrs))%Z.
Proof.
  intros [m r s] H. simpl in *.
  destruct m as [|[p|p|]|[p|p|]]; simpl; lia.
Qed.

Lemma iter_pos_shr_1_nonneg :
  forall p mrs, (0 <= shr_m mrs)%Z -> (0 <= shr_m (iter_pos shr_1 p mrs))%Z.
Proof.
  induction p as [p IH|p IH|]; intros mrs H; simpl.
  - apply IH, IH, shr_1_nonneg, H.
  - apply IH, IH, H.
  - apply shr_1_nonneg, H.
Qed.

Lemma shr_fexp_nonneg :
  forall m e l,
    (0 <= m)%Z -> (0 <= shr_m (fst (shr_fexp prec emax m e l)))%Z.
Proof.
  intros m e l H. unfold shr_fexp, shr.
  assert (R : (0 <= shr_m (shr_record_of_loc m l))%Z)
    by (destruct l as [|[| |]]; exact H).
  destruct (fexp prec emax (Zdigits2 m + e) - e)%Z; simpl; try exact R.
  apply iter_pos_shr_1_nonneg, R.
Qed.

(** Rounding a non-negative mantissa with a positive sign gives [+0], a
    positive finite number or [+inf]. *)
Lemma binary_round_aux_nonneg :
  forall mx ex lx,
    (0 <= mx)%Z -> sf_nonneg (binary_round_aux prec emax false mx ex lx).
Proof.
  intros mx ex lx H. unfold binary_round_aux.
  pose proof (shr_fexp_nonneg mx ex lx H) as H1.
  destruct (shr_fexp prec emax mx ex lx) as [mrs' e'] eqn:E1.
  cbn [fst] in H1.
  assert (H2 : (0 <= round_nearest_even (shr_m mrs') (loc_of_shr_record mrs'))%Z).
  { unfold round_nearest_even.
    destruct (loc_of_shr_record mrs') as [|[| |]];
      [| destruct (Z.even (shr_m mrs')) | |]; lia. }
  pose proof (shr_fexp_nonneg _ e' loc_Exact H2) as H3.
  destruct (shr_fexp prec emax
              (round_nearest_even (shr_m mrs') (loc_of_shr_record mrs')) e'
              loc_Exact) as [mrs'' e''] eqn:E2.
  cbn [fst] in H3.
  destruct (shr_m mrs'') as [|p|p]; simpl; [exact I| |lia].
  match goal with |- context [if ?c then _ else _] => destruct c end; exact I.
Qed.

Lemma binary_round_nonneg :
  forall m e, sf_nonneg (binary_round prec emax false m e).
Proof.
  intros m e. unfold binary_round.
  destruct (shl_align m e (fexp prec emax (Zpos (digits2_pos m) + e)))
    as [mz ez].
  apply binary_round_aux_nonneg. lia.
Qed.

Lemma binary_normalize_nonneg :
  forall z e,
    (0 <= z)%Z -> sf_nonneg (binary_normalize prec emax z e false).
Proof.
  intros z e H. unfold binary_normalize.
  destruct z as [|p|p]; [exact I | apply binary_round_nonneg | lia].
Qed.

Lemma SFdiv_nonneg :
  forall m1 e1 m2 e2,
    sf_nonneg (SFdiv prec emax (S754_finite false m1 e1)
                 (S754_finite false m2 e2)).
Proof.
  intros m1 e1 m2 e2. unfold SFdiv, SFdiv_core_binary.
  set (s := (e1 - e2
             - Z.min (fexp prec emax (Zdigits2 (Zpos m1) + e1
                                      - (Zdigits2 (Zpos m2) + e2)))
                 (e1 - e2))%Z).
  set (m' := match s with
             | Zpos _ => Z.shiftl (Zpos m1) s
             | Z0 => Zpos m1
             | Zneg _ => 0%Z
             end).
  assert (Hm : (0 <= m')%Z).
  { subst m'. destruct s; [lia | apply Z.shiftl_nonneg; lia | lia]. }
  pose proof (Z.div_pos m' (Zpos m2) Hm eq_refl) as Hq.
  unfold Z.div in Hq.
  destruct (Z.div_eucl m' (Zpos m2)) as [q r]. cbn [fst] in Hq.
  apply binary_round_aux_nonneg. exact Hq.
Qed.

Lemma SFldexp_nonneg :
  forall y e, sf_nonneg y -> sf_nonneg (SFldexp prec emax y e).
Proof.
  intros [s|s| |s m ex] e H; simpl in *; try exact H.
  destruct s; [contradiction|]. apply binary_round_nonneg.
Qed.

(** The primitive number built from a non-negative specification is
    non-negative. *)
Lemma SF2Prim_nonneg :
  forall y, sf_nonneg y -> nonneg (SF2Prim y).
Proof.
  intros [s|s| |s m e] H; simpl in H; try contradiction;
    destruct s; try contradiction.
  - vm_compute. exact I.
  - vm_compute. exact I.
  - unfold nonneg, SF2Prim, Z.ldexp.
    rewrite ldshiftexp_spec, of_uint63_spec.
    apply SFldexp_nonneg. apply binary_normalize_nonneg.
    apply Uint63.to_Z_bounded.
Qed.

Lemma float_of_decimal_nonneg :
  forall mant exp10,
    (0 <= mant)%Z -> nonneg (float_of_decimal false mant exp10).
Proof.
  intros mant exp10 H. unfold float_of_decimal.
  destruct mant as [|m|m]; [vm_compute; exact I | | lia].
  destruct (0 <=? exp10)%Z.
  - apply SF2Prim_nonneg. apply binary_normalize_nonneg.
    cbn [cond_Zopp]. apply Z.mul_nonneg_nonneg; [lia|].
    apply Z.pow_nonneg. lia.
  - apply SF2Prim_nonneg. apply SFdiv_nonneg.
Qed.

Lemma Z_of_digits_nonneg : forall ds, (0 <= Z_of_digits ds)%Z.
Proof.
  intro ds. unfold Z_of_digits.
  assert (G : forall acc, (0 <= acc)%Z ->
            (0 <= fold_left (fun a c => (10 * a + digit_val c)%Z) ds acc)%Z).
  { induction ds as [|d ds IH]; intros acc Ha; [exact Ha|].
    cbn [fold_left]. apply IH. unfold digit_val. lia. }
  apply G. lia.
Qed.

Lemma add_nonneg :
  forall x y : float, nonneg x -> nonneg y -> nonneg (x + y)%float.
Proof.
  intros x y Hx Hy. unfold nonneg in *. rewrite add_spec.
  unfold SF64add, SFadd.
  destruct (Prim2SF x) as [sx|sx| |sx mx ex]; simpl in Hx; try contradiction;
    destruct sx; try contradiction;
    destruct (Prim2SF y) as [sy|sy| |sy my ey]; simpl in Hy;
    try contradiction; destruct sy; try contradiction; try exact I.
  apply binary_normalize_nonneg. cbn [cond_Zopp]. lia.
Qed.

Lemma py_max_nonneg :
  forall xs x, nonneg x -> Forall nonneg xs -> nonneg (py_max x xs).
Proof.
  unfold py_max. induction xs as [|y ys IH]; intros x Hx Hall; [exact Hx|].
  inversion Hall as [|y' ys' Hy Hys]; subst.
  simpl. apply IH; [|exact Hys].
  unfold py_max2. destruct (x <? y)%float; assumption.
Qed.

(** *** Formatting with two decimals *)

Lemma round_half_even_bounds_lower :
  forall n d, (n / d <= round_half_even n d)%Z.
Proof.
  intros n d. unfold round_half_even.
  destruct (2 * (n mod d) ?= d)%Z; [destruct (Z.even (n / d))| |]; lia.
Qed.

Lemma string_of_uint_digits :
  forall u,
    forallb is_digit (list_ascii_of_string (NilEmpty.string_of_uint u)) = true.
Proof.
  induction u; simpl; try rewrite IHu; reflexivity.
Qed.

Lemma digits_of_Z_text :
  forall n, digits_of_Z n <> [] /\ forallb is_digit (digits_of_Z n) = true.
Proof.
  intro n. unfold digits_of_Z. split; [|apply string_of_uint_digits].
  assert (U : N.to_uint (Z.to_N n) <> Decimal.Nil).
  { destruct (Z.to_N n) as [|p]; [discriminate|].
    apply Unsigned.to_uint_nonnil. }
  destruct (N.to_uint (Z.to_N n)); simpl; first [congruence | discriminate].
Qed.

Lemma digit_char_digit :
  forall k, (0 <= k <= 9)%Z -> is_digit (digit_char k) = true.
Proof.
  intros k H.
  assert (C : (k = 0 \/ k = 1 \/ k = 2 \/ k = 3 \/ k = 4 \/ k = 5 \/ k = 6
               \/ k = 7 \/ k = 8 \/ k = 9)%Z) by lia.
  repeat (destruct C as [->|C]; [reflexivity|]). subst. reflexivity.
Qed.

Lemma hundredths_nonneg : forall m e, (0 <= hundredths m e)%Z.
Proof.
  intros m e. unfold hundredths. destruct (0 <=? e)%Z eqn:E.
  - apply Z.mul_nonneg_nonneg; [|lia].
    apply Z.mul_nonneg_nonneg; [lia|]. apply Z.pow_nonneg. lia.
  - apply Z.leb_gt in E.
    pose proof (round_half_even_bounds_lower (Zpos m * 100) (2 ^ (- e))) as R.
    assert (0 < 2 ^ (- e))%Z by (apply Z.pow_pos_nonneg; lia).
    assert (0 <= Zpos m * 100 / 2 ^ (- e))%Z by (apply Z.div_pos; lia).
    lia.
Qed.

(** A number that is neither negative nor NaN is printed as digits, a dot
    and two digits, unless it is infinite. *)
Lemma format_2f_nonneg :
  forall x, nonneg x -> format_2f x = lit "inf" \/ amount_text (format_2f x).
Proof.
  intros x H. unfold nonneg in H. unfold format_2f.
  destruct (Prim2SF x) as [s|s| |s m e]; simpl in H; try contradiction;
    destruct s; try contradiction.
  - right. exists (lit "0"), "0"%char, "0"%char.
    repeat split; try reflexivity. discriminate.
  - left. reflexivity.
  - right. cbn [sign_str app].
    pose proof (hundredths_nonneg m e) as Hh.
    destruct (digits_of_Z_text (hundredths m e / 100)) as [Hne Hds].
    exists (digits_of_Z (hundredths m e / 100)),
      (digit_char (hundredths m e mod 100 / 10)),
      (digit_char (hundredths m e mod 10)).
    repeat split; try assumption.
    + apply digit_char_digit.
      pose proof (Z.mod_pos_bound (hundredths m e) 100 eq_refl).
      split; [apply Z.div_pos; lia|].
      apply Z.lt_succ_r. apply Z.div_lt_upper_bound; lia.
    + apply digit_char_digit.
      pose proof (Z.mod_pos_bound (hundredths m e) 10 eq_refl). lia.
Qed.

(** *** The total extractor *)

Lemma amount_text_nonempty : forall m, amount_text m -> nonempty m = true.
Proof.
  intros m [ds [a [b [-> [Hne _]]]]]. destruct ds; [contradiction|reflexivity].
Qed.

Lemma extract_amount_opt :
  forall lines keyword avoid,
    amount_opt (_extract_amount_on_lines lines keyword avoid).
Proof.
  intros lines keyword avoid.
  destruct (_extract_amount_on_lines lines keyword avoid) as [m|] eqn:E;
    [|exact I].
  exact (extract_amount_text _ _ _ _ E).
Qed.

Lemma or_else_amount_opt :
  forall o alt, amount_opt o -> amount_opt alt -> amount_opt (or_else o alt).
Proof.
  intros o alt Ho Ha. unfold or_else. destruct (falsy o); assumption.
Qed.

Lemma normalized_amount :
  forall o, amount_opt o -> amount_or_empty (normalized o).
Proof.
  intros [m|] H; [|left; reflexivity]. simpl in H. unfold normalized.
  rewrite (amount_text_nonempty m H), (normalize_amount_text m H).
  right. exact H.
Qed.

Lemma total_inputs_amounts :
  forall lines tn sn xn,
    total_inputs lines = (tn, sn, xn) ->
    amount_or_empty tn /\ amount_or_empty sn /\ amount_or_empty xn.
Proof.
  intros lines tn sn xn H. unfold total_inputs in H.
  injection H as <- <- <-.
  repeat split; apply normalized_amount;
    repeat apply or_else_amount_opt; apply extract_amount_opt.
Qed.

(** An extracted amount always parses, to a number that is neither negative
    nor NaN. *)
Lemma py_float_amount :
  forall m, amount_text m -> exists x, py_float m = Some x /\ nonneg x.
Proof.
  intros m [ds [a [b [-> [Hne [Hds [Ha Hb]]]]]]].
  rewrite (py_float_amount_text ds a b Hne Hds Ha Hb).
  eexists. split; [reflexivity|].
  apply float_of_decimal_nonneg, Z_of_digits_nonneg.
Qed.

Lemma amount_or_empty_cases :
  forall s, amount_or_empty s ->
    (s = [] /\ nonempty s = false) \/ (amount_text s /\ nonempty s = true).
Proof.
  intros s [->|H]; [left; split; reflexivity|].
  right. split; [exact H | apply amount_text_nonempty, H].
Qed.

Lemma reconcile_succeeds :
  forall tn sn xn,
    amount_or_empty tn -> amount_text sn -> amount_text xn ->
    exists v c,
      reconcile tn sn xn = Some (v, c) /\ total_text v
      /\ In c [0.7%float; 0.8%float; 0.65%float].
Proof.
  intros tn sn xn Ht Hs Hx. unfold reconcile.
  destruct (py_float_amount sn Hs) as [st [-> Nst]].
  destruct (py_float_amount xn Hx) as [tx [-> Ntx]].
  pose proof (add_nonneg st tx Nst Ntx) as Ne.
  destruct (amount_or_empty_cases tn Ht) as [[-> _]|[Ht' Hn]].
  - cbn [nonempty]. do 2 eexists. split; [reflexivity|].
    split; [apply format_2f_nonneg, Ne | simpl; auto].
  - rewrite Hn. destruct (py_float_amount tn Ht') as [t [-> Nt]].
    destruct (1.0 <? abs (t - (st + tx)))%float; do 2 eexists;
      (split; [reflexivity|]).
    + split; [apply format_2f_nonneg, Ne | simpl; auto].
    + split; [apply format_2f_nonneg, Nt | simpl; auto].
Qed.

Lemma all_amounts_nonneg :
  forall lines n, Forall nonneg (_extract_all_amounts lines n).
Proof.
  intros lines n. unfold _extract_all_amounts.
  apply Forall_forall. intros x Hx.
  apply in_flat_map in Hx. destruct Hx as [line [_ Hx]].
  apply in_flat_map in Hx. destruct Hx as [m [Hm Hx]].
  assert (T : amount_text m).
  { apply (finditer_amount_text (replace_char "," "." line) 0 None);
      [apply replace_no_comma | exact Hm]. }
  destruct (py_float_amount m T) as [y [E Ny]]. rewrite E in Hx.
  destruct Hx as [<-|[]]. exact Ny.
Qed.

Lemma total_fallback_outcome :
  forall lines tn, amount_or_empty tn -> total_outcome (total_fallback lines tn).
Proof.
  intros lines tn Ht. unfold total_fallback.
  destruct (amount_or_empty_cases tn Ht) as [[-> _]|[Ht' Hn]].
  - cbn [nonempty].
    pose proof (all_amounts_nonneg lines 30) as A.
    destruct (_extract_all_amounts lines 30) as [|x xs].
    + left. split; reflexivity.
    + right. inversion A as [|x' xs' Hx Hxs]; subst. split.
      * apply format_2f_nonneg, py_max_nonneg; assumption.
      * simpl. auto.
  - rewrite Hn. destruct (py_float_amount tn Ht') as [t [-> Nt]].
    right. split; [apply format_2f_nonneg, Nt | simpl; auto].
Qed.

Lemma find_total_outcome : forall lines, total_outcome (_find_total lines).
Proof.
  intro lines. unfold _find_total.
  destruct (total_inputs lines) as [[tn sn] xn] eqn:E.
  destruct (total_inputs_amounts _ _ _ _ E) as [Ht [Hs Hx]].
  destruct (amount_or_empty_cases sn Hs) as [[-> _]|[Hs' Hsn]];
    [apply total_fallback_outcome, Ht|].
  destruct (amount_or_empty_cases xn Hx) as [[-> _]|[Hx' Hxn]];
    [rewrite Hsn; apply total_fallback_outcome, Ht|].
  rewrite Hsn, Hxn. cbn [andb].
  destruct (reconcile_succeeds tn sn xn Ht Hs' Hx') as [v [c [-> [Hv Hc]]]].
  right. split; [exact Hv|]. cbn [snd In] in *. intuition auto.
Qed.

Lemma float_differs :
  forall a b : float, (a =? b)%float = false -> (b =? b)%float = true -> a <> b.
Proof. intros a b H1 H2 E. subst. congruence. Qed.

Lemma inf_is_no_amount : ~ amount_text (lit "inf").
Proof.
  intros [ds [a [b [E [Hne _]]]]].
  apply (f_equal (@length ascii)) in E. rewrite length_app in E.
  destruct ds; [contradiction|]. simpl in E. lia.
Qed.

(** C10, as the code has it: every amount of the keyword search is digits, a
    dot and two digits, is left alone by the normalization and always
    parses; so the handler around the reconciliation and the confidence-0.6
    return are never reached; and every non-empty total comes with a
    confidence among 0.5, 0.65, 0.7 and 0.8 and has exactly two decimals,
    unless an amount overflows the double range and the total is "inf". *)
Theorem total_parse_failure_unreachable :
  forall lines,
    (forall keyword avoid m,
        _extract_amount_on_lines lines keyword avoid = Some m ->
        amount_text m /\ _normalize_amount m = m
        /\ exists x, py_float m = Some x)
    /\ (forall tn sn xn,
          total_inputs lines = (tn, sn, xn) ->
          (nonempty sn && nonempty xn = true -> reconcile tn sn xn <> None)
          /\ (nonempty tn = true -> py_float tn <> None))
    /\ snd (_find_total lines) <> 0.6%float
    /\ (nonempty (fst (_find_total lines)) = true ->
        total_text (fst (_find_total lines))
        /\ In (snd (_find_total lines))
             [0.5%float; 0.65%float; 0.7%float; 0.8%float]).
Proof.
  intro lines. split; [|split; [|split]].
  - intros keyword avoid m H.
    pose proof (extract_amount_text _ _ _ _ H) as T.
    split; [exact T|]. split; [apply normalize_amount_text, T|].
    destruct (py_float_amount m T) as [x [E _]]. exists x. exact E.
  - intros tn sn xn E.
    destruct (total_inputs_amounts _ _ _ _ E) as [Ht [Hs Hx]]. split.
    + intro G. apply andb_true_iff in G. destruct G as [Gs Gx].
      destruct (amount_or_empty_cases sn Hs) as [[_ C]|[Hs' _]]; [congruence|].
      destruct (amount_or_empty_cases xn Hx) as [[_ C]|[Hx' _]]; [congruence|].
      destruct (reconcile_succeeds tn sn xn Ht Hs' Hx') as [v [c [-> _]]].
      discriminate.
    + intro G.
      destruct (amount_or_empty_cases tn Ht) as [[_ C]|[Ht' _]]; [congruence|].
      destruct (py_float_amount tn Ht') as [x [-> _]]. discriminate.
  - destruct (find_total_outcome lines) as [[_ C]|[_ C]].
    + rewrite C. apply float_differs; reflexivity.
    + cbn [In] in C.
      destruct C as [<-|[<-|[<-|[<-|[]]]]]; apply float_differs; reflexivity.
  - intro G. destruct (find_total_outcome lines) as [[C _]|C].
    + rewrite C in G. discriminate.
    + exact C.
Qed.

Lemma total_parse_failure_unreachable_witness :
  amount_text (lit "31.44")
  /\ reconcile (lit "31.44") (lit "170.00") (lit "21.00") <> None
  /\ total_text (fst (_find_total receipt_lines)).
Proof.
  destruct (total_parse_failure_unreachable receipt_lines)
    as [H1 [H2 [_ H4]]].
  split; [|split].
  - assert (E : _extract_amount_on_lines receipt_lines (lit "total")
                  (Some (lit "sub")) = Some (lit "31.44"))
      by (vm_compute; reflexivity).
    exact (proj1 (H1 _ _ _ E)).
  - assert (E : total_inputs receipt_lines
                = (lit "31.44", lit "170.00", lit "21.00"))
      by (vm_compute; reflexivity).
    apply (proj1 (H2 _ _ _ E)). reflexivity.
  - assert (E : nonempty (fst (_find_total receipt_lines)) = true)
      by (vm_compute; reflexivity).
    exact (proj1 (H4 E)).
Defined.

(** C10 as claimed fails beyond the double range: the total is printed as
    "inf", which has no decimals. *)
Lemma find_total_overflow :
  _find_total overflowing_lines = (lit "inf", 0.8%float)
  /\ nonempty (fst (_find_total overflowing_lines)) = true
  /\ ~ amount_text (fst (_find_total overflowing_lines)).
Proof.
  assert (E : _find_total overflowing_lines = (lit "inf", 0.8%float))
    by (vm_compute; reflexivity).
  rewrite E. split; [reflexivity|]. split; [reflexivity|].
  exact inf_is_no_amount.
Qed.

Example total_without_subtotal :
  _find_total [lit "TOTAL 45.50"] = (lit "45.50", 0.8%float).
Proof. vm_compute. reflexivity. Qed.

Example total_from_subtotal_and_tax :
  _find_total [lit "Subtotal 10,00"; lit "Tax 1,90"] = (lit "11.90", 0.65%float).
Proof. vm_compute. reflexivity. Qed.

Example total_from_largest_amount :
  _find_total [lit "Coffee 3.50"; lit "Cake 4.20"] = (lit "4.20", 0.5%float).
Proof. vm_compute. reflexivity. Qed.

End AmountFacts.

(** ** Total extraction on the reference receipt *)

Module TotalExample.

Example receipt_inputs :
  total_inputs receipt_lines = (lit "31.44", lit "170.00", lit "21.00").
Proof. vm_compute. reflexivity. Qed.

(** C1, as the code has it: when the lines yield the total 31.44, the
    subtotal 170.00 and the tax 21.00, the OCR total is more than 1.0 away
    from subtotal + tax and is overridden by the computed sum, which is
    formatted as "191.00", with confidence 0.7. *)
Theorem find_total_overrides_misread_total :
  forall lines,
    total_inputs lines = (lit "31.44", lit "170.00", lit "21.00") ->
    _find_total lines = (lit "191.00", 0.7%float).
Proof.
  intros lines H. unfold _find_total. rewrite H.
  vm_compute. reflexivity.
Qed.

Lemma find_total_overrides_misread_total_witness :
  total_inputs receipt_lines = (lit "31.44", lit "170.00", lit "21.00")
  /\ _find_total receipt_lines = (lit "191.00", 0.7%float).
Proof.
  split.
  - vm_compute. reflexivity.
  - apply (find_total_overrides_misread_total receipt_lines).
    vm_compute. reflexivity.
Defined.

(** C1 as the specification words it: the extracted value is not "191.44". *)
Lemma find_total_is_not_191_44 :
  _find_total receipt_lines = (lit "191.00", 0.7%float)
  /\ _find_total receipt_lines <> (lit "191.44", 0.7%float).
Proof.
  assert (E : _find_total receipt_lines = (lit "191.00", 0.7%float))
    by (vm_compute; reflexivity).
  split; [exact E|]. rewrite E. vm_compute. discriminate.
Qed.

End TotalExample.

(** ** The verdict, the confidence rule and the evidence of the policy engine *)

Module VerdictFacts.
Import Facts PolicyFacts.

(** Every issue of the engine is a FAIL or a WARN. *)
Lemma engine_severities :
  forall rid fields uc i,
    In i (issues (validate_policy rid fields uc)) ->
    severity i = lit "FAIL" \/ severity i = lit "WARN".
Proof.
  intros rid fields uc i H. rewrite issues_validate in H.
  apply in_app_or in H. destruct H as [H|H].
  { unfold required_issues in H. apply in_flat_map in H.
    destruct H as [f [_ H]].
    destruct (falsy (value_of fields f)); [|contradiction].
    destruct H as [H|[]]. subst. left. reflexivity. }
  apply in_app_or in H. destruct H as [H|H].
  { unfold confidence_issues, confidence_issues_with in H. apply in_flat_map in H.
    destruct H as [[f v] [_ H]].
    destruct (conf_of_with py_float v <? CONF_THRESHOLD)%float; [|contradiction].
    destruct H as [H|[]]. subst. right. reflexivity. }
  unfold meal_issues, meal_issues_with in H.
  destruct (is_meal fields); [|contradiction].
  destruct (py_float (meal_total_text fields)) as [t|].
  - destruct (20 <? t)%float; [|contradiction].
    destruct H as [H|[]]. subst. left. reflexivity.
  - destruct H as [H|[]]. subst. right. reflexivity.
Qed.

Lemma has_severity_false :
  forall sev l i, has_severity sev l = false -> In i l -> severity i <> sev.
Proof.
  intros sev l i H Hi E.
  rewrite (has_severity_In sev l i Hi E) in H. discriminate.
Qed.

Lemma has_severity_exists :
  forall sev l,
    has_severity sev l = true -> exists i, In i l /\ severity i = sev.
Proof.
  intros sev l H. unfold has_severity in H. apply existsb_exists in H.
  destruct H as [i [Hi E]]. apply str_eqb_eq in E. eauto.
Qed.

(** X1: the verdict of [validate_policy] is read off the issues alone.
    Every issue is a FAIL or a WARN; the verdict is PASS exactly when there
    is no issue, FAIL exactly when some issue is a FAIL, and WARN exactly
    when there are issues and all of them are WARN. *)
Theorem verdict_tracks_issues :
  forall rid fields uc,
    let r := validate_policy rid fields uc in
    (forall i, In i (issues r) ->
       severity i = lit "FAIL" \/ severity i = lit "WARN")
    /\ (compliance r = lit "PASS" <-> issues r = [])
    /\ (compliance r = lit "FAIL"
        <-> exists i, In i (issues r) /\ severity i = lit "FAIL")
    /\ (compliance r = lit "WARN"
        <-> issues r <> []
            /\ forall i, In i (issues r) -> severity i = lit "WARN").
Proof.
  intros rid fields uc r.
  pose proof (engine_severities rid fields uc) as S. fold r in S.
  change (compliance r) with (aggregate (issues r)).
  set (l := issues r) in *. clearbody l. clear r.
  split; [exact S|]. unfold aggregate.
  destruct (has_severity (lit "FAIL") l) eqn:F.
  - destruct (has_severity_exists _ _ F) as [i [Hi E]].
    split; [|split].
    + split; [discriminate|]. intros ->. contradiction.
    + split; [intros _; eauto | reflexivity].
    + split; [discriminate|]. intros [_ A].
      rewrite (A i Hi) in E. discriminate.
  - destruct (has_severity (lit "WARN") l) eqn:W.
    + destruct (has_severity_exists _ _ W) as [i [Hi E]].
      split; [|split].
      * split; [discriminate|]. intros ->. contradiction.
      * split; [discriminate|]. intros [j [Hj Ej]].
        exfalso. exact (has_severity_false _ _ _ F Hj Ej).
      * split; [|reflexivity]. intros _. split.
        -- intros ->. contradiction.
        -- intros j Hj. destruct (S j Hj) as [Ej|Ej]; [|exact Ej].
           exfalso. exact (has_severity_false _ _ _ F Hj Ej).
    + assert (N : l = []).
      { destruct l as [|i l']; [reflexivity|]. exfalso.
        destruct (S i (or_introl eq_refl)) as [E|E].
        - exact (has_severity_false _ _ _ F (or_introl eq_refl) E).
        - exact (has_severity_false _ _ _ W (or_introl eq_refl) E). }
      split; [|split].
      * split; [intros _; exact N | reflexivity].
      * split; [discriminate|]. intros [j [Hj _]]. rewrite N in Hj.
        contradiction.
      * split; [discriminate|]. intros [A _]. contradiction.
Qed.

(** *** The confidence rule *)

Lemma filter_app_rule :
  forall (p : Issue -> bool) a b, filter p (a ++ b) = filter p a ++ filter p b.
Proof. intros. apply filter_app. Qed.

Lemma filter_none :
  forall (A : Type) (p : A -> bool) (l : list A),
    (forall x, In x l -> p x = false) -> filter p l = [].
Proof.
  induction l as [|a l IH]; intros H; simpl; [reflexivity|].
  rewrite (H a (or_introl eq_refl)).
  apply IH. intros x Hx. apply H. right. exact Hx.
Qed.

Lemma meal_with_rule_id :
  forall to_float fields i,
    In i (meal_issues_with to_float fields) ->
    rule_id i = lit "POL-LIM-010" \/ rule_id i = lit "POL-PARSE-101".
Proof.
  intros to_float fields i H. unfold meal_issues_with in H.
  destruct (is_meal fields); [|contradiction].
  destruct (to_float (meal_total_text fields)) as [t|].
  - destruct (20 <? t)%float; [|contradiction].
    destruct H as [H|[]]. subst. left. reflexivity.
  - destruct H as [H|[]]. subst. right. reflexivity.
Qed.

Lemma meal_rule_id :
  forall fields i,
    In i (meal_issues fields) ->
    rule_id i = lit "POL-LIM-010" \/ rule_id i = lit "POL-PARSE-101".
Proof. intros fields i. apply meal_with_rule_id. Qed.

Lemma confidence_issues_map :
  forall to_float fields,
    confidence_issues_with to_float fields
    = map (fun kv =>
             issue (fst kv) (lit "WARN") (lit "POL-CONF-100")
               (fst kv ++ lit " confidence below threshold ("
                  ++ format_2f (conf_of_with to_float (snd kv)) ++ lit ")."))
        (below_threshold to_float fields).
Proof.
  intros to_float fm. unfold confidence_issues_with, below_threshold.
  induction fm as [|[f v] rest IH]; [reflexivity|].
  cbn [flat_map filter snd].
  destruct (conf_of_with to_float v <? CONF_THRESHOLD)%float;
    cbn [map app fst snd]; rewrite IH; reflexivity.
Qed.

Lemma unscored_conf :
  forall to_float v, unscored to_float v -> conf_of_with to_float v = 0.0%float.
Proof.
  intros to_float v H. unfold unscored in H. unfold conf_of_with.
  destruct (confidence v) as [[c|s|]|]; try reflexivity; [contradiction|].
  rewrite H. reflexivity.
Qed.

(** X2: the confidence rule looks at every entry of the field map, required
    or not.  The POL-CONF-100 issues of a result are, in the order of the
    map, one WARN per entry whose confidence reads below 0.75, with the
    confidence printed in the message; an entry whose confidence is absent,
    not a number, or a string that [float()] rejects, is reported with 0.00.
    This holds whatever [float()] accepts. *)
Theorem confidence_review_rule :
  forall (to_float : str -> option float) rid fields uc,
    let l := issues (validate_policy_with to_float rid fields uc) in
    filter (fun i => str_eqb (rule_id i) (lit "POL-CONF-100")) l
    = map (fun kv =>
             issue (fst kv) (lit "WARN") (lit "POL-CONF-100")
               (fst kv ++ lit " confidence below threshold ("
                  ++ format_2f (conf_of_with to_float (snd kv)) ++ lit ")."))
        (below_threshold to_float fields)
    /\ (forall f v,
          In (f, v) fields -> unscored to_float v ->
          In (issue f (lit "WARN") (lit "POL-CONF-100")
                (f ++ lit " confidence below threshold (0.00)."))
             l).
Proof.
  intros to_float rid fields uc l. subst l. rewrite issues_validate_with. split.
  - rewrite !filter_app_rule.
    rewrite (filter_none _ _ (required_issues fields)).
    2:{ intros i Hi. rewrite (required_rule_id _ _ Hi). reflexivity. }
    rewrite (filter_none _ _ (meal_issues_with to_float fields)).
    2:{ intros i Hi. destruct (meal_with_rule_id _ _ _ Hi) as [E|E]; rewrite E;
          reflexivity. }
    rewrite app_nil_r. cbn [app].
    rewrite filter_all; [apply confidence_issues_map|].
    intros i Hi. rewrite (confidence_with_rule_id _ _ _ Hi). reflexivity.
  - intros f v Hin Hu. apply in_or_app. right. apply in_or_app. left.
    unfold confidence_issues_with. apply in_flat_map. exists (f, v).
    split; [exact Hin|]. cbv beta iota zeta.
    rewrite (unscored_conf to_float v Hu).
    replace (0.0 <? CONF_THRESHOLD)%float with true by (vm_compute; reflexivity).
    left. reflexivity.
Qed.

Lemma confidence_review_rule_witness :
  In (issue (lit "tip") (lit "WARN") (lit "POL-CONF-100")
        (lit "tip confidence below threshold (0.00)."))
     (issues (validate_policy []
                [ (lit "tip",
                   {| value := Some (lit "2.00");
                      confidence := Some (VStr (lit "high")) |}) ]
                [])).
Proof.
  apply (proj2 (confidence_review_rule py_float []
                  [ (lit "tip",
                     {| value := Some (lit "2.00");
                        confidence := Some (VStr (lit "high")) |}) ]
                  [])
           (lit "tip")
           {| value := Some (lit "2.00");
              confidence := Some (VStr (lit "high")) |}).
  - left. reflexivity.
  - vm_compute. reflexivity.
Defined.

(** *** The evidence *)

Lemma all_equal_repeat :
  forall (l : list str) x, (forall y, In y l -> y = x) -> l = repeat x (length l).
Proof.
  induction l as [|a l IH]; intros x H; [reflexivity|].
  simpl. rewrite (H a (or_introl eq_refl)). f_equal.
  apply IH. intros y Hy. apply H. right. exact Hy.
Qed.

Lemma distinct_first_repeat_app :
  forall x n l,
    distinct_first (x :: (repeat x n ++ l))
    = x :: filter (fun y => negb (str_eqb y x)) (distinct_first l).
Proof.
  intros x n l. induction n as [|n IH].
  - reflexivity.
  - change (repeat x (S n) ++ l) with (x :: (repeat x n ++ l)).
    change (distinct_first (x :: x :: (repeat x n ++ l)))
      with (x :: filter (fun y => negb (str_eqb y x))
                   (distinct_first (x :: (repeat x n ++ l)))).
    rewrite IH. cbn [filter].
    rewrite str_eqb_refl. cbn [negb]. f_equal.
    rewrite filter_filter_and. apply filter_ext. intro y.
    destruct (str_eqb y x); reflexivity.
Qed.

Lemma triggered_app :
  forall a b rid, triggered (a ++ b) rid = triggered a rid || triggered b rid.
Proof. intros. unfold triggered. apply existsb_app. Qed.

Lemma triggered_all :
  forall l x rid,
    (forall i, In i l -> rule_id i = x) ->
    triggered l rid
    = match l with [] => false | _ :: _ => true end && str_eqb x rid.
Proof.
  induction l as [|i l IH]; intros x rid H; [reflexivity|].
  unfold triggered in *. cbn [existsb andb].
  rewrite (H i (or_introl eq_refl)).
  destruct (str_eqb x rid) eqn:E; [reflexivity|]. cbn [orb].
  rewrite (IH x rid); [|intros j Hj; apply H; right; exact Hj].
  rewrite E. apply andb_false_r.
Qed.

Lemma meal_issues_cases :
  forall fields,
    meal_issues fields = [] \/ meal_issues fields = [LIMIT_ISSUE]
    \/ meal_issues fields = [PARSE_ISSUE].
Proof.
  intro fm. unfold meal_issues, meal_issues_with.
  destruct (is_meal fm); [|left; reflexivity].
  destruct (py_float (meal_total_text fm)) as [t|].
  - destruct (20 <? t)%float; [right; left|left]; reflexivity.
  - right. right. reflexivity.
Qed.

(** The triggered rules, in the order of the three rules of the engine. *)
Lemma triggered_rules_listed :
  forall rid fields uc,
    rules_triggered (metadata (validate_policy rid fields uc))
    = filter (triggered (issues (validate_policy rid fields uc))) ENGINE_RULES.
Proof.
  intros rid fields uc.
  change (rules_triggered (metadata (validate_policy rid fields uc)))
    with (map rs_rule_id
            (attach_from [] (issues (validate_policy rid fields uc)))).
  rewrite attach_from_ids.
  rewrite filter_all.
  2:{ intros x Hx. apply in_map_iff in Hx. destruct Hx as [i [<- Hi]].
      rewrite (engine_rule_ids_nonempty rid fields uc i Hi). reflexivity. }
  rewrite issues_validate, !map_app.
  rewrite (all_equal_repeat (map rule_id (required_issues fields))
             (lit "POL-REQ-001")).
  2:{ intros y Hy. apply in_map_iff in Hy. destruct Hy as [i [<- Hi]].
      apply (required_rule_id _ _ Hi). }
  rewrite (all_equal_repeat (map rule_id (confidence_issues fields))
             (lit "POL-CONF-100")).
  2:{ intros y Hy. apply in_map_iff in Hy. destruct Hy as [i [<- Hi]].
      apply (confidence_rule_id _ _ Hi). }
  unfold ENGINE_RULES. cbn [filter].
  rewrite !triggered_app.
  rewrite !(triggered_all (required_issues fields) (lit "POL-REQ-001"))
    by apply required_rule_id.
  rewrite !(triggered_all (confidence_issues fields) (lit "POL-CONF-100"))
    by apply confidence_rule_id.
  rewrite !length_map.
  destruct (required_issues fields) as [|i1 l1];
    destruct (confidence_issues fields) as [|i2 l2];
    destruct (meal_issues_cases fields) as [M|[M|M]]; rewrite M;
    cbn [length repeat app map];
    try rewrite !distinct_first_repeat_app;
    vm_compute; reflexivity.
Qed.

(** X3: the evidence of a compliance result comes from the catalog alone.
    [rules_triggered] lists the rules that have an issue in the fixed order
    POL-REQ-001, POL-CONF-100, POL-LIM-010, POL-PARSE-101, never more than
    three of them; every rule summary is the catalog entry of its rule, and
    the fallback sentence is never used. *)
Theorem evidence_within_catalog :
  forall rid fields uc,
    let r := validate_policy rid fields uc in
    rules_triggered (metadata r) = filter (triggered (issues r)) ENGINE_RULES
    /\ length (rules_triggered (metadata r)) <= 3
    /\ Forall (fun rs =>
                 dict_get RULE_SUMMARIES (rs_rule_id rs) = Some (summary rs)
                 /\ summary rs <> FALLBACK_SUMMARY)
         (rule_summaries r).
Proof.
  intros rid fields uc r.
  pose proof (triggered_rules_listed rid fields uc) as E. fold r in E.
  split; [exact E|]. split.
  - rewrite E. subst r. rewrite issues_validate.
    unfold ENGINE_RULES. cbn [filter]. rewrite !triggered_app.
    rewrite !(triggered_all (required_issues fields) (lit "POL-REQ-001"))
      by apply required_rule_id.
    rewrite !(triggered_all (confidence_issues fields) (lit "POL-CONF-100"))
      by apply confidence_rule_id.
    generalize (match required_issues fields with
                | [] => false | _ :: _ => true end).
    generalize (match confidence_issues fields with
                | [] => false | _ :: _ => true end).
    intros b a.
    destruct (meal_issues_cases fields) as [M|[M|M]]; rewrite M;
      destruct a, b; vm_compute; lia.
  - apply Forall_forall. intros rs Hrs.
    assert (Hid : In (rs_rule_id rs) ENGINE_RULES).
    { assert (In (rs_rule_id rs) (rules_triggered (metadata r)))
        by (apply in_map; exact Hrs).
      rewrite E in H. apply filter_In in H. tauto. }
    pose proof (attach_from_summaries _ _ _ Hrs) as Hs.
    unfold summary_or_fallback in Hs. rewrite Hs.
    unfold ENGINE_RULES in Hid. cbn [In] in Hid.
    destruct Hid as [<-|[<-|[<-|[<-|[]]]]];
      (split; [reflexivity | vm_compute; discriminate]).
Qed.

(** The identifiers of the rule summaries of a result. *)
Lemma engine_summary_ids :
  forall rid fields uc,
    map rs_rule_id (rule_summaries (validate_policy rid fields uc))
    = distinct_first (map rule_id (issues (validate_policy rid fields uc))).
Proof.
  intros rid fields uc.
  change (rule_summaries (validate_policy rid fields uc))
    with (attach_from [] (issues (validate_policy rid fields uc))).
  rewrite attach_from_ids. f_equal. apply filter_all.
  intros x Hx. apply in_map_iff in Hx. destruct Hx as [i [<- Hi]].
  rewrite (engine_rule_ids_nonempty rid fields uc i Hi). reflexivity.
Qed.

Lemma engine_rule_ids :
  forall rid fields uc i,
    In i (issues (validate_policy rid fields uc)) ->
    In (rule_id i) ENGINE_RULES.
Proof.
  intros rid fields uc i H. rewrite issues_validate in H.
  unfold ENGINE_RULES. cbn [In].
  apply in_app_or in H. destruct H as [H|H].
  { rewrite (required_rule_id _ _ H). auto. }
  apply in_app_or in H. destruct H as [H|H].
  { rewrite (confidence_rule_id _ _ H). auto. }
  destruct (meal_rule_id _ _ H) as [E|E]; rewrite E; auto.
Qed.

Lemma pass_without_issue :
  forall rid fields uc,
    compliance (validate_policy rid fields uc) = lit "PASS"
    <-> issues (validate_policy rid fields uc) = [].
Proof.
  intros rid fields uc.
  change (compliance (validate_policy rid fields uc))
    with (aggregate (issues (validate_policy rid fields uc))).
  pose proof (engine_severities rid fields uc) as S.
  destruct (issues (validate_policy rid fields uc)) as [|i l].
  - split; reflexivity.
  - split; [|discriminate]. intro H. exfalso. unfold aggregate in H.
    destruct (has_severity (lit "FAIL") (i :: l)) eqn:F; [discriminate|].
    destruct (has_severity (lit "WARN") (i :: l)) eqn:W; [discriminate|].
    destruct (S i (or_introl eq_refl)) as [E|E].
    + exact (has_severity_false _ _ _ F (or_introl eq_refl) E).
    + exact (has_severity_false _ _ _ W (or_introl eq_refl) E).
Qed.

End VerdictFacts.

(** ** Strings: stripping, collapsing blanks, substrings *)

Module StringFacts.
Import Facts.

Lemma drop_while_suffix :
  forall p s,
    exists pre, s = pre ++ drop_while p s /\ forallb p pre = true.
Proof.
  intros p. induction s as [|c s IH].
  - exists []. split; reflexivity.
  - cbn [drop_while]. destruct (p c) eqn:Pc.
    + destruct IH as [pre [E Hp]]. exists (c :: pre). split.
      * cbn [app]. f_equal. exact E.
      * cbn [forallb]. rewrite Pc. exact Hp.
    + exists []. split; reflexivity.
Qed.

Lemma drop_while_head :
  forall p s c r, drop_while p s = c :: r -> p c = false.
Proof.
  intros p. induction s as [|a s IH]; intros c r H; [discriminate|].
  cbn [drop_while] in H. destruct (p a) eqn:Pa.
  - exact (IH _ _ H).
  - injection H as <- _. exact Pa.
Qed.

Lemma drop_while_all :
  forall p s, forallb p s = true -> drop_while p s = [].
Proof.
  intros p. induction s as [|a s IH]; intros H; [reflexivity|].
  cbn [forallb] in H. apply andb_true_iff in H. destruct H as [Pa H].
  cbn [drop_while]. rewrite Pa. exact (IH H).
Qed.

Lemma forallb_rev :
  forall (p : ascii -> bool) s, forallb p (rev s) = forallb p s.
Proof.
  intros p. induction s as [|a s IH]; [reflexivity|].
  cbn [rev forallb]. rewrite forallb_app, IH. cbn [forallb].
  rewrite andb_true_r. apply andb_comm.
Qed.

(** What [strip] leaves: the text between a run of blanks at either end. *)
Lemma strip_with_parts :
  forall p s,
    exists pre post,
      s = pre ++ strip_with p s ++ post
      /\ forallb p pre = true /\ forallb p post = true.
Proof.
  intros p s. unfold strip_with.
  destruct (drop_while_suffix p s) as [pre [E1 H1]].
  destruct (drop_while_suffix p (rev (drop_while p s))) as [post [E2 H2]].
  exists pre, (rev post). split; [|split].
  - rewrite <- rev_app_distr, <- E2, rev_involutive. exact E1.
  - exact H1.
  - rewrite forallb_rev. exact H2.
Qed.

Lemma strip_with_nil :
  forall p s, strip_with p s = [] <-> forallb p s = true.
Proof.
  intros p s. split; intro H.
  - destruct (strip_with_parts p s) as [pre [post [E [H1 H2]]]].
    rewrite H in E. rewrite E, forallb_app, H1. exact H2.
  - unfold strip_with. rewrite (drop_while_all p s H). reflexivity.
Qed.

Lemma strip_with_head :
  forall p s c r, strip_with p s = c :: r -> p c = false.
Proof.
  intros p s c r H. unfold strip_with in H.
  destruct (drop_while_suffix p (rev (drop_while p s))) as [post [E2 H2]].
  assert (E : drop_while p s = (c :: r) ++ rev post).
  { rewrite <- H, <- rev_app_distr, <- E2, rev_involutive. reflexivity. }
  exact (drop_while_head p s c _ E).
Qed.

Lemma ends_visible_last :
  forall t z, ends_visible (t ++ [z]) = visible z.
Proof.
  induction t as [|c t IH]; intro z; [reflexivity|].
  cbn [app ends_visible]. rewrite <- (IH z).
  destruct t; reflexivity.
Qed.

Lemma strip_ends_visible : forall s, ends_visible (strip s) = true.
Proof.
  intro s. unfold strip, strip_with.
  destruct (drop_while is_space (rev (drop_while is_space s))) as [|z x] eqn:E;
    [reflexivity|].
  cbn [rev]. rewrite ends_visible_last. unfold visible.
  rewrite (drop_while_head _ _ _ _ E). reflexivity.
Qed.

Lemma strip_head_visible :
  forall s, match strip s with c :: _ => visible c | [] => true end = true.
Proof.
  intro s. destruct (strip s) as [|c r] eqn:E; [reflexivity|].
  unfold visible. rewrite (strip_with_head _ _ _ _ E). reflexivity.
Qed.

(** A text with a visible character at either end is its own [strip]. *)
Lemma strip_fixed :
  forall t,
    match t with c :: _ => visible c | [] => true end = true ->
    ends_visible t = true -> strip t = t.
Proof.
  intros t Hh He. unfold strip, strip_with.
  assert (D : drop_while is_space t = t).
  { destruct t as [|c r]; [reflexivity|]. cbn [drop_while].
    unfold visible in Hh. destruct (is_space c); [discriminate|reflexivity]. }
  rewrite D.
  destruct (rev t) as [|z x] eqn:R.
  - cbn [drop_while rev]. rewrite <- (rev_involutive t), R. reflexivity.
  - assert (T : t = rev x ++ [z])
      by (rewrite <- (rev_involutive t), R; reflexivity).
    rewrite T, ends_visible_last in He. unfold visible in He.
    cbn [drop_while]. destruct (is_space z); [discriminate|].
    rewrite <- R. apply rev_involutive.
Qed.

Lemma filter_all_false :
  forall (p q : ascii -> bool) s,
    (forall c, p c = true -> q c = false) ->
    forallb p s = true -> filter q s = [].
Proof.
  intros p q. induction s as [|c s IH]; intros Hpq H; [reflexivity|].
  cbn [forallb] in H. apply andb_true_iff in H. destruct H as [Pc H].
  cbn [filter]. rewrite (Hpq c Pc). exact (IH Hpq H).
Qed.

(** Stripping drops blanks only. *)
Lemma strip_keeps :
  forall (q : ascii -> bool) s,
    (forall c, is_space c = true -> q c = false) ->
    filter q (strip s) = filter q s.
Proof.
  intros q s Hq.
  destruct (strip_with_parts is_space s) as [pre [post [E [H1 H2]]]].
  rewrite E at 2. rewrite !filter_app.
  rewrite (filter_all_false is_space q pre Hq H1).
  rewrite (filter_all_false is_space q post Hq H2).
  rewrite app_nil_r. reflexivity.
Qed.

(** *** Collapsing runs of blanks *)

Lemma collapse_keeps_visible :
  forall s b, filter visible (collapse_spaces b s) = filter visible s.
Proof.
  induction s as [|c s IH]; intro b; [reflexivity|].
  cbn [collapse_spaces filter]. unfold visible at 2.
  destruct (is_space c) eqn:Sc; cbn [negb].
  - destruct b; [apply IH|]. cbn [filter]. apply IH.
  - cbn [filter]. unfold visible at 1. rewrite Sc. cbn [negb].
    f_equal. apply IH.
Qed.

Lemma ends_visible_tail :
  forall c d r, ends_visible (c :: d :: r) = ends_visible (d :: r).
Proof. reflexivity. Qed.

Lemma collapse_nonempty :
  forall s b,
    s <> [] -> ends_visible s = true -> collapse_spaces b s <> [].
Proof.
  induction s as [|c s IH]; intros b Hne He; [contradiction|].
  cbn [collapse_spaces]. destruct (is_space c) eqn:Sc; [|discriminate].
  destruct s as [|d r].
  - cbn [ends_visible] in He. unfold visible in He. rewrite Sc in He.
    discriminate.
  - destruct b; [|discriminate].
    apply IH; [discriminate | exact He].
Qed.

Lemma collapse_true_head :
  forall s,
    match collapse_spaces true s with c :: _ => visible c | [] => true end
    = true.
Proof.
  induction s as [|c s IH]; [reflexivity|].
  cbn [collapse_spaces]. destruct (is_space c) eqn:Sc; [exact IH|].
  unfold visible. rewrite Sc. reflexivity.
Qed.

Lemma collapse_single_spaced :
  forall s b, ends_visible s = true -> single_spaced (collapse_spaces b s) = true.
Proof.
  induction s as [|c s IH]; intros b He; [reflexivity|].
  assert (He' : s <> [] -> ends_visible s = true).
  { destruct s; [contradiction|]. intros _. exact He. }
  cbn [collapse_spaces]. destruct (is_space c) eqn:Sc.
  - assert (Hs : s <> []).
    { destruct s; [|discriminate]. cbn [ends_visible] in He.
      unfold visible in He. rewrite Sc in He. discriminate. }
    destruct b; [exact (IH true (He' Hs))|].
    cbn [single_spaced].
    replace (is_space " ") with true by reflexivity.
    rewrite (IH true (He' Hs)).
    pose proof (collapse_true_head s) as Hh.
    pose proof (collapse_nonempty s true Hs (He' Hs)) as Hn.
    destruct (collapse_spaces true s) as [|d r]; [contradiction|].
    rewrite Hh. reflexivity.
  - cbn [single_spaced]. rewrite Sc.
    destruct s as [|d r]; [reflexivity|].
    exact (IH false He).
Qed.

Lemma collapse_fixed :
  forall s b,
    single_spaced s = true ->
    (b = true -> match s with c :: _ => visible c | [] => true end = true) ->
    collapse_spaces b s = s.
Proof.
  induction s as [|c s IH]; intros b Hs Hb; [reflexivity|].
  cbn [single_spaced] in Hs. apply andb_true_iff in Hs.
  destruct Hs as [Hc Hs]. cbn [collapse_spaces].
  destruct (is_space c) eqn:Sc.
  - apply andb_true_iff in Hc. destruct Hc as [Ec Hd].
    apply Ascii.eqb_eq in Ec. subst c.
    destruct b.
    + specialize (Hb eq_refl). unfold visible in Hb. rewrite Sc in Hb.
      discriminate.
    + f_equal. apply IH; [exact Hs|]. intros _.
      destruct s; [discriminate | exact Hd].
  - f_equal. apply IH; [exact Hs|]. intro C. discriminate.
Qed.

Lemma single_spaced_ends_visible :
  forall s, single_spaced s = true -> ends_visible s = true.
Proof.
  induction s as [|c s IH]; intro H; [reflexivity|].
  cbn [single_spaced] in H. apply andb_true_iff in H. destruct H as [Hc Hs].
  destruct s as [|d r].
  - cbn [ends_visible]. unfold visible.
    destruct (is_space c); [|reflexivity].
    apply andb_true_iff in Hc. destruct Hc as [_ Hc]. discriminate.
  - rewrite ends_visible_tail. exact (IH Hs).
Qed.

(** *** Substrings *)

Lemma starts_with_app : forall p s, starts_with p (p ++ s) = true.
Proof.
  induction p as [|a p IH]; intro s; [reflexivity|].
  cbn [app starts_with]. rewrite Ascii.eqb_refl. apply IH.
Qed.

Lemma starts_with_prefix :
  forall p s, starts_with p s = true -> exists post, s = p ++ post.
Proof.
  induction p as [|a p IH]; intros s H.
  - exists s. reflexivity.
  - destruct s as [|b s]; [discriminate|]. cbn [starts_with] in H.
    apply andb_true_iff in H. destruct H as [E H].
    apply Ascii.eqb_eq in E. subst b.
    destruct (IH s H) as [post ->]. exists post. reflexivity.
Qed.

Lemma contains_here :
  forall p s, starts_with p s = true -> contains p s = true.
Proof.
  intros p s H. destruct s; cbn [contains]; rewrite H; reflexivity.
Qed.

Lemma contains_app :
  forall p pre post, contains p (pre ++ p ++ post) = true.
Proof.
  intros p. induction pre as [|c pre IH]; intro post.
  - apply contains_here. exact (starts_with_app p post).
  - cbn [app contains]. rewrite IH. apply orb_true_r.
Qed.

Lemma contains_parts :
  forall p s,
    contains p s = true -> exists pre post, s = pre ++ p ++ post.
Proof.
  intros p. induction s as [|c s IH]; intro H.
  - cbn [contains] in H. rewrite orb_false_r in H.
    destruct (starts_with_prefix _ _ H) as [post E].
    exists [], post. exact E.
  - cbn [contains] in H. apply orb_true_iff in H. destruct H as [H|H].
    + destruct (starts_with_prefix _ _ H) as [post E].
      exists [], post. exact E.
    + destruct (IH H) as [pre [post ->]]. exists (c :: pre), post.
      reflexivity.
Qed.

(** A text that contains a phrase contains every end of the phrase. *)
Lemma contains_suffix :
  forall a b s, contains (a ++ b) s = true -> contains b s = true.
Proof.
  intros a b s H. destruct (contains_parts _ _ H) as [pre [post ->]].
  rewrite <- app_assoc, app_assoc. apply contains_app.
Qed.

Lemma lower_app : forall a b, lower (a ++ b) = lower a ++ lower b.
Proof. intros. unfold lower. apply map_app. Qed.

Lemma lower_length : forall s, length (lower s) = length s.
Proof. intro s. unfold lower. apply length_map. Qed.

Lemma map_id_in_chars :
  forall (f : ascii -> ascii) (l : str),
    (forall x, In x l -> f x = x) -> map f l = l.
Proof.
  intros f. induction l as [|a l IH]; intros H; [reflexivity|].
  cbn [map]. rewrite (H a (or_introl eq_refl)). f_equal.
  apply IH. intros x Hx. apply H. right. exact Hx.
Qed.

Lemma in_skipn :
  forall (A : Type) (x : A) n l, In x (skipn n l) -> In x l.
Proof.
  intros A x n l H. rewrite <- (firstn_skipn n l).
  apply in_or_app. right. exact H.
Qed.

Lemma in_firstn :
  forall (A : Type) (x : A) n l, In x (firstn n l) -> In x l.
Proof.
  intros A x n l H. rewrite <- (firstn_skipn n l).
  apply in_or_app. left. exact H.
Qed.

Lemma forallb_same :
  forall (A : Type) (p q : A -> bool) (l : list A),
    (forall x, p x = q x) -> forallb p l = forallb q l.
Proof.
  intros A p q l H. induction l as [|a l IH]; [reflexivity|].
  cbn [forallb]. rewrite H, IH. reflexivity.
Qed.

End StringFacts.

(** ** Cleaning a line, noise lines and amount normalization *)

Module LineFacts.
Import Facts StringFacts.

Lemma clean_line_is_clean : forall s, clean (_clean_line s) = true.
Proof.
  intro s. unfold _clean_line, clean.
  pose proof (strip_head_visible s) as Hh.
  pose proof (strip_ends_visible s) as He.
  rewrite (collapse_single_spaced _ false He), andb_true_r.
  destruct (strip s) as [|c r]; [reflexivity|].
  cbn [collapse_spaces]. unfold visible in Hh.
  destruct (is_space c) eqn:Sc; [discriminate|].
  unfold visible. rewrite Sc. reflexivity.
Qed.

Lemma clean_fixed : forall s, clean s = true -> _clean_line s = s.
Proof.
  intros s H. unfold clean in H. apply andb_true_iff in H.
  destruct H as [Hh Hs]. unfold _clean_line.
  rewrite (strip_fixed s Hh (single_spaced_ends_visible s Hs)).
  apply collapse_fixed; [exact Hs | discriminate].
Qed.

Lemma clean_line_nil :
  forall s, _clean_line s = [] <-> forallb is_space s = true.
Proof.
  intro s. unfold _clean_line. rewrite <- (strip_with_nil is_space s).
  fold (strip s). split; intro H.
  - pose proof (strip_head_visible s) as Hh.
    destruct (strip s) as [|c r]; [reflexivity|].
    cbn [collapse_spaces] in H. unfold visible in Hh.
    destruct (is_space c); discriminate.
  - rewrite H. reflexivity.
Qed.

(** X4: on an ASCII line, [_clean_line] brings the line into one form and
    changes nothing else.  The result has no blank at either end and single
    spaces between its words; its visible characters are those of the line,
    in their order; it is empty exactly for a line of blanks; and the lines
    that the function leaves as they are, are the lines of that form, so
    that cleaning twice is cleaning once. *)
Theorem clean_line_normal_form :
  forall s,
    isascii s = true ->
    clean (_clean_line s) = true
    /\ filter visible (_clean_line s) = filter visible s
    /\ (_clean_line s = [] <-> forallb is_space s = true)
    /\ (_clean_line s = s <-> clean s = true)
    /\ _clean_line (_clean_line s) = _clean_line s.
Proof.
  intros s _. split; [apply clean_line_is_clean|]. split; [|split; [|split]].
  - unfold _clean_line. rewrite collapse_keeps_visible.
    apply strip_keeps. intros c Hc. unfold visible. rewrite Hc. reflexivity.
  - apply clean_line_nil.
  - split; intro H.
    + rewrite <- H. apply clean_line_is_clean.
    + apply clean_fixed. exact H.
  - apply clean_fixed. apply clean_line_is_clean.
Qed.

Lemma clean_line_normal_form_witness :
  clean (_clean_line (lit "  ACME   Store Ltd. ")) = true
  /\ filter visible (_clean_line (lit "  ACME   Store Ltd. "))
     = filter visible (lit "  ACME   Store Ltd. ")
  /\ _clean_line (_clean_line (lit "  ACME   Store Ltd. "))
     = _clean_line (lit "  ACME   Store Ltd. ").
Proof.
  destruct (clean_line_normal_form (lit "  ACME   Store Ltd. ") eq_refl)
    as [H1 [H2 [_ [_ H5]]]].
  split; [exact H1|]. split; [exact H2 | exact H5].
Defined.

(** *** Noise lines *)

Lemma noise_words_decide :
  forall low,
    existsb (fun p => contains p low) NOISE_PREFIXES
    = existsb (fun p => contains p low) NOISE_WORDS.
Proof.
  intro low. unfold NOISE_PREFIXES, NOISE_WORDS. cbn [existsb].
  rewrite !orb_false_r.
  destruct (contains (lit "duplicate") low); [reflexivity|].
  destruct (contains (lit "copy") low) eqn:C; [reflexivity|].
  destruct (contains (lit "merchant copy") low) eqn:M.
  { apply (contains_suffix (lit "merchant ") (lit "copy")) in M. congruence. }
  destruct (contains (lit "customer copy") low) eqn:U.
  { apply (contains_suffix (lit "customer ") (lit "copy")) in U. congruence. }
  destruct (contains (lit "thank you") low); [reflexivity|].
  destruct (contains (lit "invoice") low) eqn:V.
  { rewrite orb_true_r. reflexivity. }
  destruct (contains (lit "tax invoice") low) eqn:T; [|reflexivity].
  apply (contains_suffix (lit "tax ") (lit "invoice")) in T. congruence.
Qed.

(** X5: what [_is_noise_line] takes for noise, on an ASCII line.  A line of
    fewer than three characters is noise; so is a line in which a noise
    phrase occurs at any place and in any letter case, not only at its
    start; and a line is noise only for one of these reasons, where five of
    the eight phrases decide (duplicate, copy, thank you, invoice,
    receipt). *)
Theorem noise_phrase_anywhere :
  forall line,
    isascii line = true ->
    (length line < 3 -> _is_noise_line line = true)
    /\ (forall pre w post,
          line = pre ++ w ++ post -> In (lower w) NOISE_PREFIXES ->
          _is_noise_line line = true)
    /\ (_is_noise_line line = true
        <-> length line < 3
            \/ exists p, In p NOISE_WORDS /\ contains p (lower line) = true).
Proof.
  intros line _. unfold _is_noise_line. cbv zeta. rewrite lower_length.
  split; [|split].
  - intro H. apply Nat.ltb_lt in H. rewrite H. reflexivity.
  - intros pre w post -> Hw.
    destruct (Nat.ltb _ 3); [reflexivity|].
    apply existsb_exists. exists (lower w). split; [exact Hw|].
    rewrite !lower_app. apply contains_app.
  - rewrite noise_words_decide.
    destruct (Nat.ltb (length line) 3) eqn:L.
    + apply Nat.ltb_lt in L. split; [intros _; left; exact L | reflexivity].
    + apply Nat.ltb_ge in L. rewrite existsb_exists. split.
      * intros [p [Hp Hc]]. right. exists p. split; assumption.
      * intros [H|[p [Hp Hc]]]; [lia|]. exists p. split; assumption.
Qed.

Lemma noise_phrase_anywhere_witness :
  _is_noise_line (lit "ab") = true
  /\ _is_noise_line (lit "ACME Copy Shop") = true.
Proof.
  split.
  - apply (proj1 (noise_phrase_anywhere (lit "ab") eq_refl)). simpl. lia.
  - apply (proj1 (proj2 (noise_phrase_anywhere (lit "ACME Copy Shop") eq_refl))
             (lit "ACME ") (lit "Copy") (lit " Shop")).
    + reflexivity.
    + simpl. right. left. reflexivity.
Defined.

(** *** Amount normalization *)

Lemma blank_is_no_amount_char :
  forall c, is_space c = true -> amount_char c = false.
Proof.
  intros c H. unfold is_space, in_range in H. unfold amount_char, is_digit, in_range.
  destruct (Ascii.eqb c ".") eqn:E.
  - apply Ascii.eqb_eq in E. subst c. discriminate.
  - rewrite orb_false_r.
    apply orb_true_iff in H.
    destruct H as [H|H]; apply andb_true_iff in H; destruct H as [H1 H2];
      apply Nat.leb_le in H1, H2.
    + destruct (Nat.leb 48 (code c)) eqn:G; [|reflexivity].
      apply Nat.leb_le in G. lia.
    + destruct (Nat.leb 48 (code c)) eqn:G; [|reflexivity].
      apply Nat.leb_le in G. lia.
Qed.

Lemma blank_is_no_comma :
  forall c, is_space c = true -> Ascii.eqb c "," = false.
Proof.
  intros c H. destruct (Ascii.eqb c ",") eqn:E; [|reflexivity].
  apply Ascii.eqb_eq in E. subst c. discriminate.
Qed.

Lemma amount_char_no_comma :
  forall c, amount_char c = true -> Ascii.eqb c "," = false.
Proof.
  intros c H. destruct (Ascii.eqb c ",") eqn:E; [|reflexivity].
  apply Ascii.eqb_eq in E. subst c. discriminate.
Qed.

Lemma normalize_as_filter :
  forall s,
    _normalize_amount s = filter amount_char (replace_char "," "." s).
Proof.
  intro s. unfold _normalize_amount.
  destruct s as [|a s']; [reflexivity|]. cbn [nonempty negb].
  set (s := a :: s').
  destruct (strip_with_parts is_space s) as [pre [post [E [H1 H2]]]].
  fold (strip s) in E. rewrite E at 2. unfold replace_char.
  rewrite !map_app, !filter_app.
  assert (B : forall t, forallb is_space t = true ->
            filter amount_char
              (map (fun c => if Ascii.eqb c "," then "."%char else c) t) = []).
  { induction t as [|c t IH]; intro H; [reflexivity|].
    cbn [forallb] in H. apply andb_true_iff in H. destruct H as [Hc H].
    cbn [map filter]. rewrite (blank_is_no_comma c Hc).
    rewrite (blank_is_no_amount_char c Hc). exact (IH H). }
  rewrite (B pre H1), (B post H2), app_nil_r. reflexivity.
Qed.

Lemma filter_forallb :
  forall (p : ascii -> bool) s, forallb p (filter p s) = true.
Proof.
  intros p. induction s as [|c s IH]; [reflexivity|].
  cbn [filter]. destruct (p c) eqn:Pc; [|exact IH].
  cbn [forallb]. rewrite Pc. exact IH.
Qed.

(** X6: [_normalize_amount] keeps the digits and the dots of a text, with
    every comma read as a dot, and nothing else; the surrounding [strip] adds
    nothing to that.  The result holds digits and dots only, and normalizing
    it again changes nothing. *)
Theorem normalize_amount_canonical :
  forall s,
    _normalize_amount s = filter amount_char (replace_char "," "." s)
    /\ forallb amount_char (_normalize_amount s) = true
    /\ _normalize_amount (_normalize_amount s) = _normalize_amount s.
Proof.
  intro s. split; [apply normalize_as_filter|].
  assert (A : forallb amount_char (_normalize_amount s) = true).
  { rewrite normalize_as_filter. apply filter_forallb. }
  split; [exact A|].
  rewrite (normalize_as_filter (_normalize_amount s)).
  rewrite forallb_forall in A.
  unfold replace_char. rewrite map_id_in_chars.
  - apply filter_all. exact A.
  - intros c Hc. rewrite (amount_char_no_comma c (A c Hc)). reflexivity.
Qed.

End LineFacts.

(** ** What a match looks like: currency and date *)

Module MatchFacts.
Import Facts RegexFacts StringFacts DateFacts.

Lemma match_cls_inv :
  forall p lo hi pat prev s m r,
    match_here (Cls p lo hi :: pat) prev s = Some (m, r) ->
    exists t rest m',
      s = t ++ rest /\ m = t ++ m' /\ forallb p t = true
      /\ lo <= length t
      /\ (forall n, hi = Some n -> length t <= n)
      /\ match_here pat (prev_after prev t) rest = Some (m', r).
Proof.
  intros p lo hi pat prev s m r H. cbn [match_here] in H.
  destruct (span p hi s) as [t rest] eqn:E.
  destruct (Nat.ltb (length t) lo) eqn:L; [discriminate|].
  destruct (match_here pat (prev_after prev t) rest) as [[m' r']|] eqn:M;
    [|discriminate].
  injection H as <- <-.
  destruct (span_spec _ _ _ _ _ E) as [Es Hp].
  exists t, rest, m'. apply Nat.ltb_ge in L.
  repeat split; try assumption.
  intros n ->. exact (span_length _ _ _ _ _ E).
Qed.

Lemma match_bnd_inv :
  forall pat prev s m r,
    match_here (Bnd :: pat) prev s = Some (m, r) ->
    at_boundary prev s = true /\ match_here pat prev s = Some (m, r).
Proof.
  intros pat prev s m r H. cbn [match_here] in H.
  destruct (at_boundary prev s); [split; [reflexivity | exact H] | discriminate].
Qed.

(** A match is a prefix of the text it is found in. *)
Lemma match_here_prefix :
  forall pat prev s m r, match_here pat prev s = Some (m, r) -> s = m ++ r.
Proof.
  induction pat as [|a pat IH]; intros prev s m r H.
  - cbn [match_here] in H. injection H as <- <-. reflexivity.
  - destruct a as [p lo hi|w|].
    + destruct (match_cls_inv _ _ _ _ _ _ _ _ H)
        as [t [rest [m' [-> [-> [_ [_ [_ M]]]]]]]].
      rewrite (IH _ _ _ _ M). apply app_assoc.
    + cbn [match_here] in H.
      destruct (starts_with w s) eqn:W; [|discriminate].
      destruct (match_here pat (prev_after prev w) (skipn (length w) s))
        as [[m' r']|] eqn:M; [|discriminate].
      injection H as <- <-.
      destruct (starts_with_prefix _ _ W) as [post ->].
      rewrite skipn_app, skipn_all, Nat.sub_diag in M. cbn [skipn app] in M.
      rewrite (IH _ _ _ _ M). apply app_assoc.
    + apply match_bnd_inv in H. destruct H as [_ H]. exact (IH _ _ _ _ H).
Qed.

(** A search result is a match at some position of the text. *)
Lemma search_from_match :
  forall pat s prev m,
    search_from [pat] prev s = Some m ->
    exists prev' pre rest r,
      s = pre ++ rest /\ match_here pat prev' rest = Some (m, r).
Proof.
  intros pat. induction s as [|c s IH]; intros prev m H;
    cbn [search_from first_alt] in H.
  - destruct (match_here pat prev []) as [[m' r]|] eqn:E; [|discriminate].
    injection H as <-. exists prev, [], [], r. split; [reflexivity | exact E].
  - destruct (match_here pat prev (c :: s)) as [[m' r]|] eqn:E.
    + injection H as <-. exists prev, [], (c :: s), r.
      split; [reflexivity | exact E].
    + destruct (IH _ _ H) as [prev' [pre [rest [r [-> M]]]]].
      exists prev', (c :: pre), rest, r. split; [reflexivity | exact M].
Qed.

(** *** Currency *)

Lemma first_alt_literals :
  forall ws prev s,
    first_alt (map (fun w => [Lit w]) ws) prev s
    = find (fun w => starts_with w s) ws.
Proof.
  induction ws as [|w ws IH]; intros prev s; [reflexivity|].
  cbn [map first_alt find match_here].
  destruct (starts_with w s); [|apply IH].
  rewrite app_nil_r. reflexivity.
Qed.

(** A search for one of several literal words returns the word that occurs
    first in the text. *)
Lemma search_literals :
  forall ws s prev,
    match search_from (map (fun w => [Lit w]) ws) prev s with
    | Some m =>
        In m ws
        /\ exists pre post,
             s = pre ++ m ++ post
             /\ forall pre1 pre2 w,
                  pre = pre1 ++ pre2 -> pre2 <> [] -> In w ws ->
                  starts_with w (pre2 ++ m ++ post) = false
    | None => forall w, In w ws -> contains w s = false
    end.
Proof.
  intros ws. induction s as [|c s IH]; intro prev;
    cbn [search_from]; rewrite first_alt_literals.
  - destruct (find (fun w => starts_with w []) ws) as [m|] eqn:F.
    + apply find_some in F. destruct F as [Hin Hs]. split; [exact Hin|].
      destruct (starts_with_prefix _ _ Hs) as [post E].
      exists [], post. split; [exact E|].
      intros pre1 pre2 w E' Hne. destruct pre1; destruct pre2;
        try discriminate. contradiction.
    + intros w Hw. cbn [contains]. rewrite orb_false_r.
      exact (find_none _ _ F w Hw).
  - destruct (find (fun w => starts_with w (c :: s)) ws) as [m|] eqn:F.
    + apply find_some in F. destruct F as [Hin Hs]. split; [exact Hin|].
      destruct (starts_with_prefix _ _ Hs) as [post E].
      exists [], post. split; [exact E|].
      intros pre1 pre2 w E' Hne. destruct pre1; destruct pre2;
        try discriminate. contradiction.
    + specialize (IH (Some c)).
      destruct (search_from (map (fun w => [Lit w]) ws) (Some c) s) as [m|].
      * destruct IH as [Hin [pre [post [Es Hfirst]]]]. split; [exact Hin|].
        exists (c :: pre), post. split; [rewrite Es; reflexivity|].
        intros pre1 pre2 w E' Hne Hw. destruct pre1 as [|a pre1].
        -- cbn [app] in E'. subst pre2. cbn [app]. rewrite <- Es.
           exact (find_none _ _ F w Hw).
        -- cbn [app] in E'. injection E' as _ E'.
           exact (Hfirst pre1 pre2 w E' Hne Hw).
      * intros w Hw. cbn [contains]. rewrite (IH w Hw).
        rewrite (find_none _ _ F w Hw). reflexivity.
Qed.

(** X7: [_find_currency] returns the currency code or symbol that occurs
    first in the text, with confidence 0.9, and "EUR" with confidence 0.6
    when none of the eight occurs; the match is case-sensitive and needs no
    word boundary.  The value is never empty. *)
Theorem find_currency_first_token :
  forall text,
    let r := _find_currency text in
    nonempty (fst r) = true
    /\ (existsb (fun t => contains t text) CURRENCY_TOKENS = false ->
        r = (lit "EUR", 0.6%float))
    /\ (existsb (fun t => contains t text) CURRENCY_TOKENS = true ->
        snd r = 0.9%float
        /\ In (fst r) CURRENCY_TOKENS
        /\ exists pre post,
             text = pre ++ fst r ++ post
             /\ forall pre1 pre2 t,
                  pre = pre1 ++ pre2 -> pre2 <> [] -> In t CURRENCY_TOKENS ->
                  starts_with t (pre2 ++ fst r ++ post) = false).
Proof.
  intros text r. subst r. unfold _find_currency, search.
  change CURRENCY_REGEX with (map (fun w => [Lit w]) CURRENCY_TOKENS).
  pose proof (search_literals CURRENCY_TOKENS text None) as S.
  destruct (search_from (map (fun w => [Lit w]) CURRENCY_TOKENS) None text)
    as [m|].
  - destruct S as [Hin [pre [post [Es Hfirst]]]]. cbn [fst snd].
    assert (Hex : existsb (fun t => contains t text) CURRENCY_TOKENS = true).
    { apply existsb_exists. exists m. split; [exact Hin|].
      rewrite Es. apply contains_app. }
    split; [|split].
    + unfold CURRENCY_TOKENS in Hin. cbn [In] in Hin.
      repeat (destruct Hin as [<-|Hin]; [reflexivity|]). contradiction.
    + rewrite Hex. discriminate.
    + intros _. split; [reflexivity|]. split; [exact Hin|].
      exists pre, post. split; [exact Es | exact Hfirst].
  - assert (Hex : existsb (fun t => contains t text) CURRENCY_TOKENS = false).
    { destruct (existsb (fun t => contains t text) CURRENCY_TOKENS) eqn:X;
        [|reflexivity].
      apply existsb_exists in X. destruct X as [t [Ht Hc]].
      rewrite (S t Ht) in Hc. discriminate. }
    split; [reflexivity|]. split; [reflexivity|].
    rewrite Hex. discriminate.
Qed.

Lemma find_currency_first_token_witness :
  _find_currency (lit "Total 12.00 kr") = (lit "EUR", 0.6%float)
  /\ snd (_find_currency (lit "Total USD 12.00 (EUR 11.00)")) = 0.9%float.
Proof.
  split.
  - apply (proj1 (proj2 (find_currency_first_token (lit "Total 12.00 kr")))).
    vm_compute. reflexivity.
  - refine (proj1 (proj2 (proj2 (find_currency_first_token
                                   (lit "Total USD 12.00 (EUR 11.00)"))) _)).
    vm_compute. reflexivity.
Defined.

(** *** Dates *)

Lemma exact_length_2 :
  forall (t : str), 2 <= length t -> length t <= 2 -> exists a b, t = [a; b].
Proof.
  intros [|a [|b [|c t]]] H1 H2; simpl in *; try lia. eauto.
Qed.

Lemma exact_length_1 :
  forall (t : str), 1 <= length t -> length t <= 1 -> exists a, t = [a].
Proof.
  intros [|a [|b t]] H1 H2; simpl in *; try lia. eauto.
Qed.

Lemma exact_length_4 :
  forall (t : str),
    4 <= length t -> length t <= 4 -> exists a b c d, t = [a; b; c; d].
Proof.
  intros [|a [|b [|c [|d [|e t]]]]] H1 H2; simpl in *; try lia. eauto 6.
Qed.

Lemma filter_visible_blanks :
  forall t, forallb is_space t = true -> filter visible t = [].
Proof.
  intros t H. apply (filter_all_false is_space visible t); [|exact H].
  intros c Hc. unfold visible. rewrite Hc. reflexivity.
Qed.

Lemma digit_visible : forall c, is_digit c = true -> visible c = true.
Proof.
  intros c H. unfold visible.
  destruct (digit_classes c H) as [-> _]. reflexivity.
Qed.

Lemma sep_visible : forall c, is_sep c = true -> visible c = true.
Proof.
  intros c H. unfold visible.
  destruct (sep_classes c H) as [-> _]. reflexivity.
Qed.

(** A match of the spaced pattern, its blanks removed, is a date
    YYYY[sep]MM[sep]DD. *)
Lemma spaced_match_shape :
  forall prev s m r,
    match_here SPACED_DATE_REGEX prev s = Some (m, r) ->
    iso_date (filter visible m) = true.
Proof.
  intros prev s m r H. unfold SPACED_DATE_REGEX in H.
  apply match_bnd_inv in H. destruct H as [_ H].
  destruct (match_cls_inv _ _ _ _ _ _ _ _ H)
    as [t1 [x1 [m1 [_ [-> [A1 [L1 [U1 H1]]]]]]]]. clear H.
  destruct (match_cls_inv _ _ _ _ _ _ _ _ H1)
    as [b1 [x2 [m2 [_ [-> [B1 [_ [_ H2]]]]]]]]. clear H1.
  destruct (match_cls_inv _ _ _ _ _ _ _ _ H2)
    as [t2 [x3 [m3 [_ [-> [A2 [L2 [U2 H3]]]]]]]]. clear H2.
  destruct (match_cls_inv _ _ _ _ _ _ _ _ H3)
    as [b2 [x4 [m4 [_ [-> [B2 [_ [_ H4]]]]]]]]. clear H3.
  destruct (match_cls_inv _ _ _ _ _ _ _ _ H4)
    as [t3 [x5 [m5 [_ [-> [A3 [L3 [U3 H5]]]]]]]]. clear H4.
  destruct (match_cls_inv _ _ _ _ _ _ _ _ H5)
    as [b3 [x6 [m6 [_ [-> [B3 [_ [_ H6]]]]]]]]. clear H5.
  destruct (match_cls_inv _ _ _ _ _ _ _ _ H6)
    as [t4 [x7 [m7 [_ [-> [A4 [L4 [U4 H7]]]]]]]]. clear H6.
  destruct (match_cls_inv _ _ _ _ _ _ _ _ H7)
    as [b4 [x8 [m8 [_ [-> [B4 [_ [_ H8]]]]]]]]. clear H7.
  destruct (match_cls_inv _ _ _ _ _ _ _ _ H8)
    as [t5 [x9 [m9 [_ [-> [A5 [L5 [U5 H9]]]]]]]]. clear H8.
  apply match_bnd_inv in H9. destruct H9 as [_ H9].
  cbn [match_here] in H9. injection H9 as <- _.
  destruct (exact_length_4 t1 L1 (U1 _ eq_refl)) as [y1 [y2 [y3 [y4 ->]]]].
  destruct (exact_length_1 t2 L2 (U2 _ eq_refl)) as [s1 ->].
  destruct (exact_length_2 t3 L3 (U3 _ eq_refl)) as [n1 [n2 ->]].
  destruct (exact_length_1 t4 L4 (U4 _ eq_refl)) as [s2 ->].
  destruct (exact_length_2 t5 L5 (U5 _ eq_refl)) as [d1 [d2 ->]].
  rewrite !filter_app.
  rewrite (filter_visible_blanks b1 B1), (filter_visible_blanks b2 B2),
    (filter_visible_blanks b3 B3), (filter_visible_blanks b4 B4).
  cbn [forallb] in A1, A2, A3, A4, A5.
  rewrite andb_true_r in A1, A2, A3, A4, A5.
  apply andb_true_iff in A1. destruct A1 as [Hy1 A1].
  apply andb_true_iff in A1. destruct A1 as [Hy2 A1].
  apply andb_true_iff in A1. destruct A1 as [Hy3 Hy4].
  apply andb_true_iff in A3. destruct A3 as [Hn1 Hn2].
  apply andb_true_iff in A5. destruct A5 as [Hd1 Hd2].
  cbn [filter].
  rewrite (digit_visible _ Hy1), (digit_visible _ Hy2), (digit_visible _ Hy3),
    (digit_visible _ Hy4), (sep_visible _ A2), (digit_visible _ Hn1),
    (digit_visible _ Hn2), (sep_visible _ A4), (digit_visible _ Hd1),
    (digit_visible _ Hd2).
  cbn [app iso_date].
  rewrite Hy1, Hy2, Hy3, Hy4, A2, Hn1, Hn2, A4, Hd1, Hd2. reflexivity.
Qed.

(** A match of the second pattern of [DATE_REGEXES] is a date
    DD[sep]MM[sep]YY with two to four digits of the year. *)
Lemma short_match_shape :
  forall prev s m r,
    match_here (nth 1 DATE_REGEXES []) prev s = Some (m, r) ->
    short_date m = true.
Proof.
  intros prev s m r H. cbn [nth DATE_REGEXES] in H.
  apply match_bnd_inv in H. destruct H as [_ H].
  destruct (match_cls_inv _ _ _ _ _ _ _ _ H)
    as [t1 [x1 [m1 [_ [-> [A1 [L1 [U1 H1]]]]]]]]. clear H.
  destruct (match_cls_inv _ _ _ _ _ _ _ _ H1)
    as [t2 [x2 [m2 [_ [-> [A2 [L2 [U2 H2]]]]]]]]. clear H1.
  destruct (match_cls_inv _ _ _ _ _ _ _ _ H2)
    as [t3 [x3 [m3 [_ [-> [A3 [L3 [U3 H3]]]]]]]]. clear H2.
  destruct (match_cls_inv _ _ _ _ _ _ _ _ H3)
    as [t4 [x4 [m4 [_ [-> [A4 [L4 [U4 H4]]]]]]]]. clear H3.
  destruct (match_cls_inv _ _ _ _ _ _ _ _ H4)
    as [t5 [x5 [m5 [_ [-> [A5 [L5 [U5 H5]]]]]]]]. clear H4.
  apply match_bnd_inv in H5. destruct H5 as [_ H5].
  cbn [match_here] in H5. injection H5 as <- _.
  destruct (exact_length_2 t1 L1 (U1 _ eq_refl)) as [d1 [d2 ->]].
  destruct (exact_length_1 t2 L2 (U2 _ eq_refl)) as [s1 ->].
  destruct (exact_length_2 t3 L3 (U3 _ eq_refl)) as [n1 [n2 ->]].
  destruct (exact_length_1 t4 L4 (U4 _ eq_refl)) as [s2 ->].
  pose proof (U5 _ eq_refl) as U.
  destruct t5 as [|y1 [|y2 rest]]; simpl in L5; try lia.
  cbn [forallb] in A1, A2, A3, A4, A5.
  rewrite andb_true_r in A1, A2, A3, A4.
  apply andb_true_iff in A1. destruct A1 as [Hd1 Hd2].
  apply andb_true_iff in A3. destruct A3 as [Hn1 Hn2].
  apply andb_true_iff in A5. destruct A5 as [Hy1 A5].
  apply andb_true_iff in A5. destruct A5 as [Hy2 A5].
  cbn [app short_date]. rewrite app_nil_r.
  rewrite Hd1, Hd2, A2, Hn1, Hn2, A4, Hy1, Hy2, A5. cbn [andb].
  apply Nat.leb_le. simpl in U. lia.
Qed.

Lemma iso_date_nonempty : forall d, iso_date d = true -> d <> [].
Proof. intros [|c d] H; [discriminate | discriminate]. Qed.

Lemma short_date_nonempty : forall d, short_date d = true -> d <> [].
Proof. intros [|c d] H; [discriminate | discriminate]. Qed.

(** X8: the three outcomes of [_find_date] on an ASCII text.  With
    confidence 0.8 the value is a date YYYY[sep]MM[sep]DD of exactly ten
    characters, whatever blanks stood around the separators in the text;
    with confidence 0.75 it is a date DD[sep]MM[sep]YY with two to four
    digits of the year; otherwise it is empty with confidence 0.3.  The
    value is empty only in the last case. *)
Theorem find_date_shapes :
  forall text,
    isascii text = true ->
    let r := _find_date text in
    ((snd r = 0.8%float /\ iso_date (fst r) = true)
     \/ (snd r = 0.75%float /\ short_date (fst r) = true)
     \/ r = ([], 0.3%float))
    /\ (fst r = [] <-> snd r = 0.3%float).
Proof.
  intros text _ r. subst r. unfold _find_date.
  destruct (search [SPACED_DATE_REGEX] text) as [m|] eqn:S.
  - unfold search in S.
    destruct (search_from_match _ _ _ _ S) as [prev [pre [rest [r [_ M]]]]].
    pose proof (spaced_match_shape _ _ _ _ M) as I.
    cbn [fst snd]. split; [left; split; [reflexivity | exact I]|].
    split; intro H.
    + exfalso. exact (iso_date_nonempty _ I H).
    + exfalso. revert H. vm_compute. discriminate.
  - rewrite (iso_pattern_is_shadowed text S).
    destruct (search [nth 1 DATE_REGEXES []] text) as [m|] eqn:S1.
    + unfold search in S1.
      destruct (search_from_match _ _ _ _ S1) as [prev [pre [rest [r [_ M]]]]].
      pose proof (short_match_shape _ _ _ _ M) as I.
      cbn [fst snd].
      split; [right; left; split; [reflexivity | exact I]|].
      split; intro H.
      * exfalso. exact (short_date_nonempty _ I H).
      * exfalso. revert H. vm_compute. discriminate.
    + cbn [fst snd]. split; [right; right; reflexivity|].
      split; reflexivity.
Qed.

Lemma find_date_shapes_witness :
  (snd (_find_date (lit "Date 2013 - 11 - 03 14:05")) = 0.8%float
   /\ iso_date (fst (_find_date (lit "Date 2013 - 11 - 03 14:05"))) = true)
  \/ (snd (_find_date (lit "Date 2013 - 11 - 03 14:05")) = 0.75%float
      /\ short_date (fst (_find_date (lit "Date 2013 - 11 - 03 14:05"))) = true)
  \/ _find_date (lit "Date 2013 - 11 - 03 14:05") = ([], 0.3%float).
Proof.
  exact (proj1 (find_date_shapes (lit "Date 2013 - 11 - 03 14:05") eq_refl)).
Defined.

End MatchFacts.

(** ** The keyword search, the scan of the last lines and the empty total *)

Module AmountLineFacts.
Import Facts RegexFacts StringFacts AmountFacts.

Lemma rev_head_last :
  forall (l : list str) m ms, rev l = m :: ms -> last l [] = m.
Proof.
  intros l m ms H.
  assert (E : l = rev ms ++ [m])
    by (rewrite <- (rev_involutive l), H; reflexivity).
  rewrite E. apply last_last.
Qed.

Lemma nonempty_lower : forall a, nonempty (lower a) = nonempty a.
Proof. intros [|c a]; reflexivity. Qed.

(** One step of the search, from the bottom line upwards. *)
Lemma extract_last_line :
  forall lines line keyword avoid,
    _extract_amount_on_lines (lines ++ [line]) keyword avoid
    = if qualifies keyword avoid line
      then Some (last (line_amounts line) [])
      else _extract_amount_on_lines lines keyword avoid.
Proof.
  intros lines line keyword avoid.
  unfold _extract_amount_on_lines, qualifies. rewrite rev_app_distr.
  cbn [rev app amount_on_lines].
  destruct (contains (lower keyword) (lower line)); [|reflexivity].
  cbn [andb].
  assert (A : match
                match avoid with
                | Some a => if nonempty a then Some (lower a) else None
                | None => None
                end
              with
              | Some a => nonempty a && contains a (lower line)
              | None => false
              end
              = match avoid with
                | Some a => nonempty a && contains (lower a) (lower line)
                | None => false
                end).
  { destruct avoid as [a|]; [|reflexivity].
    destruct (nonempty a) eqn:N; [|reflexivity].
    rewrite nonempty_lower, N. reflexivity. }
  rewrite A.
  destruct (match avoid with
            | Some a => nonempty a && contains (lower a) (lower line)
            | None => false
            end); [reflexivity|].
  cbn [negb andb]. fold (line_amounts line).
  destruct (rev (line_amounts line)) as [|m ms] eqn:R.
  - assert (E : line_amounts line = [])
      by (rewrite <- (rev_involutive (line_amounts line)), R; reflexivity).
    rewrite E. reflexivity.
  - rewrite (rev_head_last _ _ _ R).
    destruct (line_amounts line); [discriminate | reflexivity].
Qed.

Lemma extract_none :
  forall keyword avoid lines,
    (forall l, In l lines -> qualifies keyword avoid l = false) ->
    _extract_amount_on_lines lines keyword avoid = None.
Proof.
  intros keyword avoid lines. induction lines as [|x lines IH] using rev_ind;
    intro H; [reflexivity|].
  rewrite extract_last_line.
  rewrite (H x) by (apply in_or_app; right; left; reflexivity).
  apply IH. intros l Hl. apply H. apply in_or_app. left. exact Hl.
Qed.

(** X9: the keyword search of [_extract_amount_on_lines] reads the lowest
    line that contains the keyword, does not contain the keyword to avoid,
    and carries an amount, and returns the last amount of that line; what
    stands above that line, and every line that does not qualify, is without
    influence; with no such line the result is [None]. *)
Theorem amount_from_lowest_line :
  forall keyword avoid,
    (forall lines,
        (forall l, In l lines -> qualifies keyword avoid l = false) ->
        _extract_amount_on_lines lines keyword avoid = None)
    /\ (forall above line below,
          qualifies keyword avoid line = true ->
          (forall l, In l below -> qualifies keyword avoid l = false) ->
          _extract_amount_on_lines (above ++ line :: below) keyword avoid
          = Some (last (line_amounts line) []))
    /\ (forall lines,
          _extract_amount_on_lines (filter (qualifies keyword avoid) lines)
            keyword avoid
          = _extract_amount_on_lines lines keyword avoid).
Proof.
  intros keyword avoid. split; [apply extract_none|]. split.
  - intros above line below Hq.
    induction below as [|x below IH] using rev_ind; intro H.
    + change (above ++ [line]) with (above ++ [line]).
      rewrite extract_last_line, Hq. reflexivity.
    + change (above ++ line :: below ++ [x])
        with (above ++ (line :: below) ++ [x]).
      rewrite app_assoc, extract_last_line.
      rewrite (H x) by (apply in_or_app; right; left; reflexivity).
      apply IH. intros l Hl. apply H. apply in_or_app. left. exact Hl.
  - intro lines. induction lines as [|x lines IH] using rev_ind;
      [reflexivity|].
    rewrite filter_app. cbn [filter]. rewrite (extract_last_line lines).
    destruct (qualifies keyword avoid x) eqn:Q.
    + rewrite extract_last_line, Q. reflexivity.
    + rewrite app_nil_r. exact IH.
Qed.

Lemma amount_from_lowest_line_witness :
  _extract_amount_on_lines
    ([lit "TOTAL 9.99"] ++ lit "Total 12,50 or 13.00" :: [lit "Sub Total 5.00"])
    (lit "total") (Some (lit "sub"))
  = Some (lit "13.00").
Proof.
  apply (proj1 (proj2 (amount_from_lowest_line (lit "total")
                         (Some (lit "sub"))))
           [lit "TOTAL 9.99"] (lit "Total 12,50 or 13.00")
           [lit "Sub Total 5.00"]).
  - vm_compute. reflexivity.
  - intros l [<-|[]]. vm_compute. reflexivity.
Defined.

(** *** The scan of the last thirty lines *)

Lemma line_amounts_text :
  forall line m, In m (line_amounts line) -> amount_text m.
Proof.
  intros line m H.
  apply (finditer_amount_text (replace_char "," "." line) 0 None);
    [apply replace_no_comma | exact H].
Qed.

Lemma parsed_length :
  forall ms : list str,
    (forall m, In m ms -> amount_text m) ->
    length (flat_map (fun m => match py_float m with
                               | Some x => [x]
                               | None => []
                               end) ms)
    = length ms.
Proof.
  induction ms as [|m ms IH]; intro H; [reflexivity|].
  cbn [flat_map]. rewrite length_app.
  destruct (py_float_amount m (H m (or_introl eq_refl))) as [x [-> _]].
  cbn [length Nat.add]. f_equal. apply IH. intros m' Hm'. apply H. right.
  exact Hm'.
Qed.

Lemma all_amounts_length :
  forall ls : list str,
    length (flat_map
              (fun line =>
                 flat_map (fun m => match py_float m with
                                    | Some x => [x]
                                    | None => []
                                    end)
                   (finditer AMOUNT_REGEX (replace_char "," "." line))) ls)
    = length (flat_map line_amounts ls).
Proof.
  induction ls as [|l ls IH]; [reflexivity|].
  cbn [flat_map]. rewrite !length_app, IH. f_equal.
  apply parsed_length. apply line_amounts_text.
Qed.

Lemma last_n_app :
  forall (above lines : list str) n,
    n <= length lines -> last_n n (above ++ lines) = last_n n lines.
Proof.
  intros above lines n H. unfold last_n.
  rewrite length_app, skipn_app.
  replace (length above + length lines - n - length above)
    with (length lines - n) by lia.
  rewrite skipn_all2 by lia. reflexivity.
Qed.

Lemma last_n_short :
  forall (lines : list str) n, length lines <= n -> last_n n lines = lines.
Proof.
  intros lines n H. unfold last_n.
  replace (length lines - n) with 0 by lia. reflexivity.
Qed.

(** X10: [_extract_all_amounts] reads the last thirty lines and nothing
    above them; of at most thirty lines it reads all.  Every money-like
    number found there is converted, so the handler of the conversion is
    never reached, and no converted number is negative or NaN. *)
Theorem all_amounts_window :
  forall lines,
    length (_extract_all_amounts lines 30)
    = length (flat_map line_amounts (last_n 30 lines))
    /\ Forall nonneg (_extract_all_amounts lines 30)
    /\ (forall above,
          30 <= length lines ->
          _extract_all_amounts (above ++ lines) 30
          = _extract_all_amounts lines 30)
    /\ (length lines <= 30 ->
        length (_extract_all_amounts lines 30)
        = length (flat_map line_amounts lines)).
Proof.
  intro lines. split; [|split; [|split]].
  - unfold _extract_all_amounts. apply all_amounts_length.
  - apply all_amounts_nonneg.
  - intros above H. unfold _extract_all_amounts.
    rewrite (last_n_app above lines 30 H). reflexivity.
  - intro H. unfold _extract_all_amounts.
    rewrite (last_n_short lines 30 H). apply all_amounts_length.
Qed.

Lemma all_amounts_window_witness :
  _extract_all_amounts
    ([lit "Deposit 500.00"] ++ repeat (lit "Item 1.00") 30) 30
  = _extract_all_amounts (repeat (lit "Item 1.00") 30) 30.
Proof.
  apply (proj1 (proj2 (proj2 (all_amounts_window
                                (repeat (lit "Item 1.00") 30))))
           [lit "Deposit 500.00"]).
  simpl. lia.
Defined.

(** *** The empty total *)

Lemma format_2f_nonempty : forall x, format_2f x <> [].
Proof.
  intro x. unfold format_2f.
  destruct (Prim2SF x) as [s|s| |s m e]; try (destruct s; discriminate).
  - discriminate.
  - destruct s; [discriminate|]. cbn [sign_str app].
    destruct (digits_of_Z (hundredths m e / 100)); discriminate.
Qed.

Lemma total_fallback_empty :
  forall lines tn c,
    total_fallback lines tn = ([], c) ->
    _extract_all_amounts lines 30 = [].
Proof.
  intros lines tn c H. unfold total_fallback in H.
  destruct (nonempty tn) eqn:N.
  - destruct (py_float tn) as [t|].
    + apply (f_equal fst) in H. cbn [fst] in H.
      exfalso. exact (format_2f_nonempty _ H).
    + apply (f_equal fst) in H. cbn [fst] in H. subst tn. discriminate.
  - destruct (_extract_all_amounts lines 30) as [|x xs]; [reflexivity|].
    apply (f_equal fst) in H. cbn [fst] in H.
    exfalso. exact (format_2f_nonempty _ H).
Qed.

Lemma reconcile_nonempty :
  forall tn sn xn r, reconcile tn sn xn = Some r -> fst r <> [].
Proof.
  intros tn sn xn r H. unfold reconcile in H.
  destruct (py_float sn) as [st|]; [|discriminate].
  destruct (py_float xn) as [tx|]; [|discriminate].
  destruct (nonempty tn).
  - destruct (py_float tn) as [t|]; [|discriminate].
    destruct (1.0 <? abs (t - (st + tx)))%float; injection H as <-;
      apply format_2f_nonempty.
  - injection H as <-. apply format_2f_nonempty.
Qed.

Lemma extract_none_without_amounts :
  forall lines keyword avoid,
    (forall l, In l lines -> line_amounts l = []) ->
    _extract_amount_on_lines lines keyword avoid = None.
Proof.
  intros lines keyword avoid H. apply extract_none.
  intros l Hl. unfold qualifies. rewrite (H l Hl). apply andb_false_r.
Qed.

(** X11: [_find_total] returns the empty value exactly with confidence 0.3.
    It does so for every receipt without a money-like number, and only when
    the last thirty lines hold none. *)
Theorem find_total_empty :
  forall lines,
    (fst (_find_total lines) = [] <-> snd (_find_total lines) = 0.3%float)
    /\ ((forall l, In l lines -> line_amounts l = []) ->
        _find_total lines = ([], 0.3%float))
    /\ (fst (_find_total lines) = [] ->
        flat_map line_amounts (last_n 30 lines) = []).
Proof.
  intro lines. split; [|split].
  - pose proof (find_total_outcome lines) as O. unfold total_outcome in O.
    destruct O as [[Hv Hc]|[Hv Hc]].
    + rewrite Hv, Hc. split; reflexivity.
    + split; intro H.
      * exfalso. rewrite H in Hv. destruct Hv as [Hv|Hv]; [discriminate|].
        apply amount_text_nonempty in Hv. discriminate.
      * exfalso. rewrite H in Hc. cbn [In] in Hc.
        destruct Hc as [Hc|[Hc|[Hc|[Hc|[]]]]]; revert Hc; vm_compute;
          discriminate.
  - intro H. unfold _find_total, total_inputs.
    rewrite !(extract_none_without_amounts lines _ _ H).
    cbn [or_else falsy normalized nonempty andb]. unfold total_fallback.
    cbn [nonempty]. unfold _extract_all_amounts.
    rewrite flat_map_nil; [reflexivity|].
    intros l Hl. fold (line_amounts l).
    rewrite (H l); [reflexivity|].
    unfold last_n in Hl. exact (in_skipn _ _ _ _ Hl).
  - intro H.
    assert (E : _extract_all_amounts lines 30 = []).
    { unfold _find_total in H.
      destruct (total_inputs lines) as [[tn sn] xn].
      destruct (nonempty sn && nonempty xn).
      - destruct (reconcile tn sn xn) as [r|] eqn:R.
        + exfalso. exact (reconcile_nonempty _ _ _ _ R H).
        + destruct (total_fallback lines tn) as [v c] eqn:F.
          cbn [fst] in H. subst v. exact (total_fallback_empty _ _ _ F).
      - destruct (total_fallback lines tn) as [v c] eqn:F.
        cbn [fst] in H. subst v. exact (total_fallback_empty _ _ _ F). }
    apply length_zero_iff_nil.
    rewrite <- (all_amounts_length (last_n 30 lines)).
    fold (_extract_all_amounts lines 30). rewrite E. reflexivity.
Qed.

Lemma find_total_empty_witness :
  _find_total [lit "ACME Store"; lit "Thank you"] = ([], 0.3%float).
Proof.
  apply (proj1 (proj2 (find_total_empty [lit "ACME Store"; lit "Thank you"]))).
  intros l [<-|[<-|[]]]; vm_compute; reflexivity.
Defined.

End AmountLineFacts.

(** ** The lines of a receipt and the merchant *)

Module MerchantFacts.
Import Facts RoundFacts StringFacts LineFacts.

(** *** The lines handed to the extractors *)

Lemma linebreak_is_blank : forall c, is_linebreak c = true -> is_space c = true.
Proof.
  intros c H. unfold is_linebreak, is_space, in_range in *.
  apply orb_true_iff in H. apply orb_true_iff.
  destruct H as [H|H]; apply andb_true_iff in H; destruct H as [H1 H2];
    apply Nat.leb_le in H1, H2; [left|right]; apply andb_true_iff; split;
    apply Nat.leb_le; lia.
Qed.

Lemma forallb_blank_snoc :
  forall cur c s,
    is_space c = true ->
    forallb is_space (cur ++ c :: s) = forallb is_space (cur ++ s).
Proof.
  intros cur c s H. rewrite !forallb_app. cbn [forallb]. rewrite H.
  reflexivity.
Qed.

Lemma splitlines_blank :
  forall s after_cr cur,
    forallb (forallb is_space) (splitlines_aux after_cr cur s)
    = forallb is_space (cur ++ s).
Proof.
  induction s as [|c s IH]; intros after_cr cur.
  - cbn [splitlines_aux]. rewrite app_nil_r.
    destruct cur as [|a cur]; [reflexivity|].
    cbn [nonempty forallb]. rewrite andb_true_r. reflexivity.
  - cbn [splitlines_aux].
    destruct (Nat.eqb (code c) 10 && after_cr) eqn:LF.
    + rewrite IH. symmetry. apply forallb_blank_snoc.
      apply andb_true_iff in LF. destruct LF as [LF _].
      apply Nat.eqb_eq in LF. unfold is_space, in_range. rewrite LF.
      reflexivity.
    + destruct (is_linebreak c) eqn:B.
      * cbn [forallb]. rewrite IH. cbn [app].
        rewrite (forallb_blank_snoc cur c s (linebreak_is_blank c B)).
        rewrite forallb_app. reflexivity.
      * rewrite IH, <- app_assoc. reflexivity.
Qed.

Lemma filter_nil_forallb :
  forall (A : Type) (p : A -> bool) (l : list A),
    filter p l = [] <-> forallb (fun x => negb (p x)) l = true.
Proof.
  induction l as [|a l IH]; [split; reflexivity|].
  cbn [filter forallb]. destruct (p a); cbn [negb andb].
  - split; discriminate.
  - exact IH.
Qed.

Lemma blank_strip : forall l, negb (nonempty (strip l)) = forallb is_space l.
Proof.
  intro l. destruct (forallb is_space l) eqn:B.
  - apply (strip_with_nil is_space) in B. fold (strip l) in B. rewrite B.
    reflexivity.
  - destruct (strip l) as [|c r] eqn:S; [|reflexivity].
    apply (strip_with_nil is_space) in S. congruence.
Qed.

Lemma receipt_lines_nil :
  forall text, receipt_lines_of text = [] <-> forallb is_space text = true.
Proof.
  intro text. unfold receipt_lines_of, splitlines.
  change (forallb is_space text) with (forallb is_space ([] ++ text)).
  rewrite <- (splitlines_blank text false []).
  destruct (filter (fun l => nonempty (strip l))
              (splitlines_aux false [] text)) as [|a f] eqn:F.
  - apply filter_nil_forallb in F.
    rewrite (forallb_same _ _ (forallb is_space)) in F
      by (intro l; apply blank_strip).
    rewrite F. split; reflexivity.
  - cbn [map]. split; [discriminate|]. intro H. exfalso.
    assert (G : filter (fun l => nonempty (strip l))
                  (splitlines_aux false [] text) = []).
    { apply filter_nil_forallb.
      rewrite (forallb_same _ _ (forallb is_space))
        by (intro l; apply blank_strip).
      exact H. }
    congruence.
Qed.

Lemma clean_no_linebreak :
  forall l,
    single_spaced l = true ->
    forallb (fun c => negb (is_linebreak c)) l = true.
Proof.
  induction l as [|c l IH]; intro H; [reflexivity|].
  cbn [single_spaced] in H. apply andb_true_iff in H. destruct H as [Hc H].
  cbn [forallb]. rewrite (IH H), andb_true_r.
  destruct (is_linebreak c) eqn:B; [|reflexivity].
  rewrite (linebreak_is_blank c B) in Hc.
  apply andb_true_iff in Hc. destruct Hc as [Hc _].
  apply Ascii.eqb_eq in Hc. subst c. discriminate.
Qed.

Lemma receipt_lines_form :
  forall text,
    Forall (fun l =>
              l <> [] /\ clean l = true
              /\ forallb (fun c => negb (is_linebreak c)) l = true)
      (receipt_lines_of text).
Proof.
  intro text. unfold receipt_lines_of. apply Forall_forall. intros l Hl.
  apply in_map_iff in Hl. destruct Hl as [raw [<- Hraw]].
  apply filter_In in Hraw. destruct Hraw as [_ Hraw].
  pose proof (clean_line_is_clean raw) as C.
  split; [|split; [exact C|]].
  - intro E. apply clean_line_nil in E.
    rewrite <- blank_strip, Hraw in E. discriminate.
  - apply clean_no_linebreak. unfold clean in C.
    apply andb_true_iff in C. tauto.
Qed.

Section Merchant.

Variable py_sum : list float -> float.

(** What [parse_receipt_fields] assembles, with its line list named. *)
Lemma parse_receipt_fields_lines :
  forall uuid_hex text words,
    fields (parse_receipt_fields py_sum uuid_hex text words)
    = [ (lit "merchant",
         mk_field (fst (_find_merchant py_sum (receipt_lines_of text) words))
           (snd (_find_merchant py_sum (receipt_lines_of text) words)));
        (lit "date",
         mk_field (fst (_find_date text)) (round2 (snd (_find_date text))));
        (lit "total",
         mk_field (fst (_find_total (receipt_lines_of text)))
           (round2 (snd (_find_total (receipt_lines_of text)))));
        (lit "currency",
         mk_field (fst (_find_currency text))
           (round2 (snd (_find_currency text))));
        (lit "category", mk_field (lit "Uncategorized") 0.2%float) ].
Proof.
  intros uuid_hex text words. unfold parse_receipt_fields.
  fold (receipt_lines_of text).
  destruct (_find_merchant py_sum (receipt_lines_of text) words) as [m mc].
  destruct (_find_date text) as [d dc].
  destruct (_find_total (receipt_lines_of text)) as [t tc].
  destruct (_find_currency text) as [c cc].
  reflexivity.
Qed.

(** X12: for an ASCII text, the lines that [parse_receipt_fields] hands to
    the merchant and total extractors are never empty and are in cleaned
    form, without a line break inside; there is no such line exactly when
    the text consists of blanks only. *)
Theorem receipt_lines_clean :
  forall uuid_hex text words,
    isascii text = true ->
    value_of (fields (parse_receipt_fields py_sum uuid_hex text words))
      (lit "total")
    = Some (fst (_find_total (receipt_lines_of text)))
    /\ value_of (fields (parse_receipt_fields py_sum uuid_hex text words))
         (lit "merchant")
       = Some (fst (_find_merchant py_sum (receipt_lines_of text) words))
    /\ Forall (fun l =>
                 l <> [] /\ clean l = true
                 /\ forallb (fun c => negb (is_linebreak c)) l = true)
         (receipt_lines_of text)
    /\ (receipt_lines_of text = [] <-> forallb is_space text = true).
Proof.
  intros uuid_hex text words _.
  rewrite parse_receipt_fields_lines.
  split; [reflexivity|]. split; [reflexivity|]. split.
  - apply receipt_lines_form.
  - apply receipt_lines_nil.
Qed.

(** *** The merchant *)

Lemma clamp_round2_bounds :
  forall x : float,
    ((0.4 <=? round2 (py_max2 0.4 (py_min2 x 0.95)))
     && (round2 (py_max2 0.4 (py_min2 x 0.95)) <=? 0.95))%float = true.
Proof.
  intro x. unfold py_min2.
  destruct (0.95 <? x)%float eqn:Hhi.
  - vm_compute. reflexivity.
  - unfold py_max2. destruct (0.4 <? x)%float eqn:Hlo.
    + destruct (between_clamp_bounds x Hlo Hhi) as [m [e [E B]]].
      unfold round2. rewrite E.
      pose proof (hundredths_between_clamp m e B) as Hh.
      assert (A : forallb (fun k => clamp_check (40 + Z.of_nat k)) (seq 0 56)
                  = true) by (vm_compute; reflexivity).
      rewrite forallb_forall in A.
      specialize (A (Z.to_nat (hundredths m e - 40))).
      replace (40 + Z.of_nat (Z.to_nat (hundredths m e - 40)))%Z
        with (hundredths m e) in A by lia.
      apply A. apply in_seq. lia.
    + vm_compute. reflexivity.
Qed.

Lemma drop_to_letter :
  forall c,
    existsb is_alpha c = true ->
    exists a r pre,
      drop_while (fun ch => negb (is_alpha ch)) c = a :: r
      /\ is_alpha a = true /\ c = pre ++ a :: r.
Proof.
  induction c as [|x c IH]; intro H; [discriminate|].
  cbn [existsb] in H. cbn [drop_while].
  destruct (is_alpha x) eqn:A; cbn [negb].
  - exists x, c, []. repeat split. exact A.
  - cbn [orb] in H. destruct (IH H) as [a [r [pre [E [Ha Ec]]]]].
    exists a, r, (x :: pre). split; [exact E|]. split; [exact Ha|].
    rewrite Ec. reflexivity.
Qed.

Lemma letter_visible : forall a, is_alpha a = true -> is_space a = false.
Proof.
  intros a H. unfold is_alpha, is_space, in_range in *.
  apply orb_true_iff in H. apply orb_false_iff.
  destruct H as [H|H]; apply andb_true_iff in H; destruct H as [H1 H2];
    apply Nat.leb_le in H1, H2; split; apply andb_false_iff;
    try (left; apply Nat.leb_gt; lia); right; apply Nat.leb_gt; lia.
Qed.

Lemma strip_keeps_head :
  forall a r,
    is_space a = false ->
    exists r' post, strip (a :: r) = a :: r' /\ a :: r = (a :: r') ++ post.
Proof.
  intros a r Ha.
  destruct (strip_with_parts is_space (a :: r)) as [pre [post [E [H1 H2]]]].
  fold (strip (a :: r)) in E.
  destruct pre as [|p pre].
  - cbn [app] in E. destruct (strip (a :: r)) as [|b r'] eqn:S.
    + cbn [app] in E. subst post. cbn [forallb] in H2. rewrite Ha in H2.
      discriminate.
    + cbn [app] in E. injection E as <- E. exists r', post.
      split; [reflexivity|]. cbn [app]. f_equal. exact E.
  - cbn [app] in E. injection E as <- _. cbn [forallb] in H1.
    rewrite Ha in H1. discriminate.
Qed.

Lemma strip_idempotent : forall s, strip (strip s) = strip s.
Proof.
  intro s. apply strip_fixed;
    [apply strip_head_visible | apply strip_ends_visible].
Qed.

Lemma candidate_inv :
  forall line l,
    merchant_candidate line = Some l ->
    l = _clean_line line /\ _is_noise_line l = false
    /\ existsb is_alpha l = true.
Proof.
  intros line l H. unfold merchant_candidate in H.
  destruct (negb (nonempty (_clean_line line)) || _is_noise_line (_clean_line line))
    eqn:N; [discriminate|].
  apply orb_false_iff in N. destruct N as [_ N].
  destruct (Nat.leb 6 (length (filter is_digit (_clean_line line)))
            && Nat.ltb 8 (length (_clean_line line))); [discriminate|].
  destruct (existsb is_alpha (_clean_line line)) eqn:A; [|discriminate].
  injection H as <-. repeat split; assumption.
Qed.

Lemma candidates_head :
  forall ls c cs,
    flat_map (fun line => match merchant_candidate line with
                          | Some l => [l]
                          | None => []
                          end) ls = c :: cs ->
    exists line, In line ls /\ merchant_candidate line = Some c.
Proof.
  induction ls as [|x ls IH]; intros c cs H; [discriminate|].
  cbn [flat_map] in H.
  destruct (merchant_candidate x) as [l|] eqn:M.
  - cbn [app] in H. injection H as <- _. exists x.
    split; [left; reflexivity | exact M].
  - cbn [app] in H. destruct (IH _ _ H) as [line [Hin Hm]].
    exists line. split; [right; exact Hin | exact Hm].
Qed.

Lemma merchant_fallback :
  forall lines words,
    flat_map (fun line => match merchant_candidate line with
                          | Some l => [l]
                          | None => []
                          end) (firstn 12 lines) = [] ->
    _find_merchant py_sum lines words = (hd [] lines, 0.4%float).
Proof.
  intros lines words F. unfold _find_merchant. rewrite F. reflexivity.
Qed.

Lemma merchant_from_candidate :
  forall lines words c cs,
    flat_map (fun line => match merchant_candidate line with
                          | Some l => [l]
                          | None => []
                          end) (firstn 12 lines) = c :: cs ->
    exists a rest line pre post,
      fst (_find_merchant py_sum lines words) = a :: rest
      /\ is_alpha a = true
      /\ strip (a :: rest) = a :: rest
      /\ In line (firstn 12 lines)
      /\ _clean_line line = pre ++ (a :: rest) ++ post
      /\ _is_noise_line (_clean_line line) = false.
Proof.
  intros lines words c cs F. unfold _find_merchant. rewrite F. cbn [fst].
  destruct (candidates_head _ _ _ F) as [line [Hin Hm]].
  destruct (candidate_inv _ _ Hm) as [Ec [Hn Ha]].
  destruct (drop_to_letter c Ha) as [a [r0 [pre [Ed [Hal Epre]]]]].
  rewrite Ed.
  destruct (strip_keeps_head a r0 (letter_visible a Hal))
    as [r' [post [Es Epost]]].
  exists a, r', line, pre, post. rewrite Es.
  split; [reflexivity|]. split; [exact Hal|].
  split; [rewrite <- Es; apply strip_idempotent|].
  split; [exact Hin|]. split; [|rewrite <- Ec; exact Hn].
  rewrite <- Ec, Epre, Epost. reflexivity.
Qed.

(** X13: on ASCII lines, [_find_merchant] looks at the first twelve lines
    only.  Its confidence lies between 0.4 and 0.95.  When none of these
    lines is a candidate, it returns the first line (or the empty text) with
    confidence 0.4; otherwise the merchant begins with a letter, carries no
    blank at either end, and is a part of one of the twelve lines, cleaned,
    which is not a noise line. *)
Theorem find_merchant_cases :
  forall lines words,
    ascii_strs lines = true ->
    let r := _find_merchant py_sum lines words in
    ((0.4 <=? snd r) && (snd r <=? 0.95))%float = true
    /\ _find_merchant py_sum (firstn 12 lines) words = r
    /\ ((forall l, In l (firstn 12 lines) -> merchant_candidate l = None) ->
        r = (hd [] lines, 0.4%float))
    /\ ((exists l, In l (firstn 12 lines) /\ merchant_candidate l <> None) ->
        exists a rest line pre post,
          fst r = a :: rest /\ is_alpha a = true /\ strip (fst r) = fst r
          /\ In line (firstn 12 lines)
          /\ _clean_line line = pre ++ fst r ++ post
          /\ _is_noise_line (_clean_line line) = false).
Proof.
  intros lines words _ r.
  assert (Hhd : hd [] (firstn 12 lines) = hd [] lines)
    by (destruct lines; reflexivity).
  destruct (flat_map (fun line => match merchant_candidate line with
                                  | Some l => [l]
                                  | None => []
                                  end) (firstn 12 lines)) as [|c cs] eqn:F.
  - pose proof (merchant_fallback lines words F) as E. fold r in E.
    split; [rewrite E; vm_compute; reflexivity|]. split; [|split].
    + rewrite E. rewrite <- Hhd. apply merchant_fallback.
      rewrite firstn_firstn. exact F.
    + intros _. exact E.
    + intros [l [Hl Hc]]. exfalso.
      destruct (merchant_candidate l) as [c|] eqn:M; [|contradiction].
      assert (I : In c (flat_map (fun line => match merchant_candidate line with
                                              | Some l => [l]
                                              | None => []
                                              end) (firstn 12 lines))).
      { apply in_flat_map. exists l. split; [exact Hl|].
        rewrite M. left. reflexivity. }
      rewrite F in I. contradiction.
  - split; [|split; [|split]].
    + subst r. unfold _find_merchant. rewrite F. cbn [snd].
      apply clamp_round2_bounds.
    + subst r. unfold _find_merchant. rewrite firstn_firstn. cbn [Nat.min].
      rewrite F. reflexivity.
    + intro H. exfalso.
      destruct (candidates_head _ _ _ F) as [line [Hin Hm]].
      rewrite (H line Hin) in Hm. discriminate.
    + intros _.
      destruct (merchant_from_candidate lines words c cs F)
        as [a [rest [line [pre [post [E [Ha [Hs [Hin [Hc Hn]]]]]]]]]].
      fold r in E. exists a, rest, line, pre, post. rewrite E.
      repeat split; assumption.
Qed.

End Merchant.

Lemma receipt_lines_clean_witness :
  Forall (fun l =>
            l <> [] /\ clean l = true
            /\ forallb (fun c => negb (is_linebreak c)) l = true)
    (receipt_lines_of (lit "ACME   Store " ++ nl ++ nl ++ lit " Total 9.99"))
  /\ (receipt_lines_of (lit " " ++ nl ++ lit "  ") = []
      <-> forallb is_space (lit " " ++ nl ++ lit "  ") = true).
Proof.
  split.
  - exact (proj1 (proj2 (proj2
             (receipt_lines_clean sum_left []
                (lit "ACME   Store " ++ nl ++ nl ++ lit " Total 9.99") []
                eq_refl)))).
  - exact (proj2 (proj2 (proj2
             (receipt_lines_clean sum_left []
                (lit " " ++ nl ++ lit "  ") [] eq_refl)))).
Defined.

Lemma find_merchant_cases_witness :
  _find_merchant sum_left [lit "12"; lit "** RECEIPT **"] [] = (lit "12", 0.4%float)
  /\ exists a rest,
       fst (_find_merchant sum_left [lit "Tel 555"; lit "*** ACME Ltd. ***"] [])
       = a :: rest.
Proof.
  split.
  - apply (proj1 (proj2 (proj2 (find_merchant_cases sum_left
                                  [lit "12"; lit "** RECEIPT **"] []
                                  eq_refl)))).
    intros l [<-|[<-|[]]]; vm_compute; reflexivity.
  - destruct (proj2 (proj2 (proj2 (find_merchant_cases sum_left
                                     [lit "Tel 555"; lit "*** ACME Ltd. ***"] []
                                     eq_refl)))
                (ex_intro _ (lit "Tel 555")
                   (conj (or_introl eq_refl)
                      (fun H : merchant_candidate (lit "Tel 555") = None =>
                         eq_ind (merchant_candidate (lit "Tel 555"))
                           (fun o => match o with Some _ => True | None => False end)
                           I None H))))
      as [a [rest [_ [_ [_ [E _]]]]]].
    exists a, rest. exact E.
Defined.

End MerchantFacts.


(** ** The verdict on a parsed receipt *)

Module ParsedVerdictFacts.
Import Facts StringFacts PolicyFacts VerdictFacts PipelineFacts MatchFacts
  AmountLineFacts MerchantFacts.

Lemma parsed_values :
  forall m mc d dc t tc c cc,
    let fm := parsed_map m mc d dc t tc c cc in
    value_of fm (lit "merchant") = Some m
    /\ value_of fm (lit "date") = Some d
    /\ value_of fm (lit "total") = Some t
    /\ value_of fm (lit "currency") = Some c
    /\ value_of fm (lit "category") = Some (lit "Uncategorized").
Proof. intros. repeat split. Qed.

Lemma parsed_required :
  forall m mc d dc t tc c cc,
    required_issues (parsed_map m mc d dc t tc c cc)
    = (if nonempty m then [] else [REQUIRED_ISSUE (lit "merchant")])
      ++ (if nonempty d then [] else [REQUIRED_ISSUE (lit "date")])
      ++ (if nonempty t then [] else [REQUIRED_ISSUE (lit "total")])
      ++ (if nonempty c then [] else [REQUIRED_ISSUE (lit "currency")]).
Proof.
  intros m mc d dc t tc c cc.
  destruct (parsed_values m mc d dc t tc c cc) as [Vm [Vd [Vt [Vc Vk]]]].
  unfold required_issues, REQUIRED_FIELDS. cbn [flat_map].
  rewrite Vm, Vd, Vt, Vc, Vk. cbn [falsy].
  destruct (nonempty m), (nonempty d), (nonempty t), (nonempty c);
    reflexivity.
Qed.

Lemma parsed_confidence :
  forall m mc d dc t tc c cc,
    confidence_issues (parsed_map m mc d dc t tc c cc)
    = (if (mc <? 0.75)%float then [REVIEW_ISSUE (lit "merchant") mc] else [])
      ++ (if (round2 dc <? 0.75)%float
          then [REVIEW_ISSUE (lit "date") (round2 dc)] else [])
      ++ (if (round2 tc <? 0.75)%float
          then [REVIEW_ISSUE (lit "total") (round2 tc)] else [])
      ++ (if (round2 cc <? 0.75)%float
          then [REVIEW_ISSUE (lit "currency") (round2 cc)] else [])
      ++ [CATEGORY_REVIEW].
Proof.
  intros m mc d dc t tc c cc.
  unfold confidence_issues, confidence_issues_with, parsed_map.
  cbn [flat_map conf_of_with confidence mk_field]. unfold CONF_THRESHOLD.
  replace (0.2 <? 0.75)%float with true by reflexivity.
  replace (issue (lit "category") (lit "WARN") (lit "POL-CONF-100")
             (lit "category" ++ lit " confidence below threshold ("
                ++ format_2f 0.2 ++ lit ")."))
    with CATEGORY_REVIEW by (vm_compute; reflexivity).
  destruct (mc <? 0.75)%float, (round2 dc <? 0.75)%float,
    (round2 tc <? 0.75)%float, (round2 cc <? 0.75)%float; reflexivity.
Qed.

Lemma parsed_meal :
  forall m mc d dc t tc c cc,
    meal_issues (parsed_map m mc d dc t tc c cc) = [].
Proof.
  intros m mc d dc t tc c cc. unfold meal_issues, meal_issues_with, is_meal.
  destruct (parsed_values m mc d dc t tc c cc) as [_ [_ [_ [_ Vk]]]].
  rewrite Vk. reflexivity.
Qed.

Lemma flagged_In :
  forall l f i,
    In i l -> rule_id i = lit "POL-CONF-100" -> field i = f ->
    flagged l f = true.
Proof.
  intros l f i Hi Hr Hf. unfold flagged. apply existsb_exists.
  exists i. split; [exact Hi|]. rewrite Hr, Hf, !str_eqb_refl. reflexivity.
Qed.

Lemma flagged_app :
  forall a b f, flagged (a ++ b) f = flagged a f || flagged b f.
Proof. intros. unfold flagged. apply existsb_app. Qed.

Lemma flagged_required :
  forall fields f, flagged (required_issues fields) f = false.
Proof.
  intros fm f. unfold flagged.
  destruct (existsb _ (required_issues fm)) eqn:E; [|reflexivity].
  apply existsb_exists in E. destruct E as [i [Hi E]].
  rewrite (required_rule_id _ _ Hi) in E. discriminate.
Qed.

Lemma flagged_review :
  forall (b : bool) g c f,
    flagged (if b then [REVIEW_ISSUE g c] else []) f = b && str_eqb g f.
Proof.
  intros [|] g c f; [|reflexivity].
  unfold flagged, REVIEW_ISSUE, issue. cbn [existsb rule_id field].
  rewrite str_eqb_refl, orb_false_r. reflexivity.
Qed.

Lemma has_severity_app :
  forall sev a b,
    has_severity sev (a ++ b) = has_severity sev a || has_severity sev b.
Proof. intros. unfold has_severity. apply existsb_app. Qed.

Lemma confidence_no_fail :
  forall fields, has_severity (lit "FAIL") (confidence_issues fields) = false.
Proof.
  intro fm. destruct (has_severity (lit "FAIL") (confidence_issues fm)) eqn:E;
    [|reflexivity].
  destruct (has_severity_exists _ _ E) as [i [Hi Hs]].
  unfold confidence_issues, confidence_issues_with in Hi. apply in_flat_map in Hi.
  destruct Hi as [[f v] [_ Hi]].
  destruct (conf_of_with py_float v <? CONF_THRESHOLD)%float; [|contradiction].
  destruct Hi as [<-|[]]. discriminate.
Qed.

(** The confidence rule on a parsed receipt: which fields it flags. *)
Lemma parsed_flagged :
  forall rid uc m mc d dc t tc c cc,
    let l := issues (validate_policy rid (parsed_map m mc d dc t tc c cc) uc) in
    flagged l (lit "merchant") = (mc <? 0.75)%float
    /\ flagged l (lit "date") = (round2 dc <? 0.75)%float
    /\ flagged l (lit "total") = (round2 tc <? 0.75)%float
    /\ flagged l (lit "currency") = (round2 cc <? 0.75)%float
    /\ flagged l (lit "category") = true.
Proof.
  intros rid uc m mc d dc t tc c cc l. subst l. rewrite issues_validate.
  rewrite parsed_meal, app_nil_r, parsed_confidence.
  repeat split; rewrite !flagged_app, flagged_required, !flagged_review;
    cbn [orb];
    match goal with
    | |- context [flagged [CATEGORY_REVIEW] ?f] =>
        replace (flagged [CATEGORY_REVIEW] f) with
          (str_eqb (lit "category") f) by reflexivity
    end;
    repeat match goal with
           | |- context [str_eqb (lit ?a) (lit ?b)] =>
               let v := eval vm_compute in (str_eqb (lit a) (lit b)) in
               change (str_eqb (lit a) (lit b)) with v
           end;
    rewrite ?andb_true_r, ?andb_false_r, ?orb_false_r, ?orb_true_r;
    cbn [orb]; rewrite ?orb_false_r; reflexivity.
Qed.

Section ParsedVerdict.

Variable py_sum : list float -> float.

Lemma parsed_as_map :
  forall uuid_hex text words,
    fields (parse_receipt_fields py_sum uuid_hex text words)
    = parsed_map
        (fst (_find_merchant py_sum (receipt_lines_of text) words))
        (snd (_find_merchant py_sum (receipt_lines_of text) words))
        (fst (_find_date text)) (snd (_find_date text))
        (fst (_find_total (receipt_lines_of text)))
        (snd (_find_total (receipt_lines_of text)))
        (fst (_find_currency text)) (snd (_find_currency text)).
Proof. intros. apply parse_receipt_fields_lines. Qed.

(** The merchant is empty only when the text has no line, and then with
    confidence 0.4. *)
Lemma merchant_empty :
  forall text words,
    fst (_find_merchant py_sum (receipt_lines_of text) words) = [] ->
    receipt_lines_of text = []
    /\ snd (_find_merchant py_sum (receipt_lines_of text) words) = 0.4%float.
Proof.
  intros text words H.
  destruct (flat_map (fun line => match merchant_candidate line with
                                  | Some l => [l]
                                  | None => []
                                  end) (firstn 12 (receipt_lines_of text)))
    as [|c cs] eqn:F.
  - rewrite (merchant_fallback py_sum _ words F) in *. cbn [fst snd] in *.
    split; [|reflexivity].
    pose proof (receipt_lines_form text) as L.
    destruct (receipt_lines_of text) as [|l ls]; [reflexivity|].
    inversion L as [|x xs [Hne _] _]; subst. cbn [hd] in H. contradiction.
  - destruct (merchant_from_candidate py_sum _ words c cs F)
      as [a [rest [_ [_ [_ [E _]]]]]].
    rewrite E in H. discriminate.
Qed.

Lemma date_conf_cases :
  forall text,
    (fst (_find_date text) = [] /\ snd (_find_date text) = 0.3%float)
    \/ (fst (_find_date text) <> []
        /\ (snd (_find_date text) = 0.8%float
            \/ snd (_find_date text) = 0.75%float)).
Proof.
  intro text. unfold _find_date.
  destruct (search [SPACED_DATE_REGEX] text) as [m|] eqn:S.
  - right. cbn [fst snd]. split; [|left; reflexivity].
    unfold search in S.
    destruct (search_from_match _ _ _ _ S) as [prev [pre [rest [r [_ M]]]]].
    exact (iso_date_nonempty _ (spaced_match_shape _ _ _ _ M)).
  - destruct (search [nth 0 DATE_REGEXES []] text) as [m|] eqn:S0.
    + rewrite (DateFacts.iso_pattern_is_shadowed text S) in S0. discriminate.
    + destruct (search [nth 1 DATE_REGEXES []] text) as [m|] eqn:S1.
      * right. cbn [fst snd]. split; [|right; reflexivity].
        unfold search in S1.
        destruct (search_from_match _ _ _ _ S1)
          as [prev [pre [rest [r [_ M]]]]].
        exact (short_date_nonempty _ (short_match_shape _ _ _ _ M)).
      * left. split; reflexivity.
Qed.

Lemma total_conf_cases :
  forall lines,
    (fst (_find_total lines) = [] /\ snd (_find_total lines) = 0.3%float)
    \/ (fst (_find_total lines) <> []
        /\ In (snd (_find_total lines))
             [0.5%float; 0.65%float; 0.7%float; 0.8%float]).
Proof.
  intro lines.
  pose proof (AmountFacts.find_total_outcome lines) as O.
  unfold total_outcome in O. destruct O as [[Hv Hc]|[Hv Hc]].
  - left. split; assumption.
  - right. split; [|exact Hc]. intro E. rewrite E in Hv.
    destruct Hv as [Hv|Hv]; [discriminate|].
    apply AmountFacts.amount_text_nonempty in Hv. discriminate.
Qed.

Lemma currency_conf_cases :
  forall text,
    fst (_find_currency text) <> []
    /\ (snd (_find_currency text) = 0.9%float
        \/ snd (_find_currency text) = 0.6%float).
Proof.
  intro text. unfold _find_currency, search.
  change CURRENCY_REGEX with (map (fun w => [Lit w]) CURRENCY_TOKENS).
  pose proof (search_literals CURRENCY_TOKENS text None) as S.
  destruct (search_from (map (fun w => [Lit w]) CURRENCY_TOKENS) None text)
    as [m|]; cbn [fst snd].
  - destruct S as [Hin _]. split; [|left; reflexivity].
    unfold CURRENCY_TOKENS in Hin. cbn [In] in Hin.
    repeat (destruct Hin as [<-|Hin]; [discriminate|]). contradiction.
  - split; [discriminate | right; reflexivity].
Qed.

Lemma blank_text_total :
  forall text,
    receipt_lines_of text = [] ->
    fst (_find_total (receipt_lines_of text)) = [].
Proof. intros text E. rewrite E. reflexivity. Qed.

Lemma merchant_empty_iff :
  forall text words,
    fst (_find_merchant py_sum (receipt_lines_of text) words) = []
    <-> forallb is_space text = true.
Proof.
  intros text words. rewrite <- receipt_lines_nil. split; intro H.
  - exact (proj1 (merchant_empty text words H)).
  - rewrite H. reflexivity.
Qed.

(** The required-field issues of a parsed receipt. *)
Lemma parsed_required_in :
  forall f m mc d dc t tc c cc,
    c <> [] ->
    (In (REQUIRED_ISSUE f) (required_issues (parsed_map m mc d dc t tc c cc))
     <-> (f = lit "merchant" /\ m = [])
         \/ (f = lit "date" /\ d = [])
         \/ (f = lit "total" /\ t = [])).
Proof.
  intros f m mc d dc t tc c cc Hc. rewrite parsed_required.
  destruct c as [|c0 c]; [contradiction|]. cbn [nonempty].
  rewrite app_nil_r. rewrite !in_app_iff.
  assert (S : forall (v : str) g,
            In (REQUIRED_ISSUE f)
              (if nonempty v then [] else [REQUIRED_ISSUE g])
            <-> f = g /\ v = []).
  { intros v g. destruct v as [|a v]; cbn [nonempty In].
    - split.
      + intros [E|[]]. apply (f_equal field) in E. cbn in E. auto.
      + intros [-> _]. left. reflexivity.
    - split; [contradiction | intros [_ E]; discriminate]. }
  rewrite !S. reflexivity.
Qed.

(** X14: the verdict on the receipt parsed from an ASCII text.  Only the
    required-field rule and the confidence rule raise issues; the meal rule
    never fires, because the category is the placeholder.  The verdict is
    FAIL exactly when no date or no total was found, and WARN otherwise; the
    triggered rules are then POL-REQ-001 and POL-CONF-100, or POL-CONF-100
    alone.  The merchant is reported missing exactly for a text of blanks,
    and every field reported missing is also flagged for review. *)
Theorem parsed_receipt_verdict :
  forall uuid_hex text words uc,
    isascii text = true ->
    let rcpt := parse_receipt_fields py_sum uuid_hex text words in
    let r := validate_policy (receipt_id rcpt) (fields rcpt) uc in
    let no_date := fst (_find_date text) = [] in
    let no_total := fst (_find_total (receipt_lines_of text)) = [] in
    (forall i, In i (issues r) ->
       rule_id i = lit "POL-REQ-001" \/ rule_id i = lit "POL-CONF-100")
    /\ (compliance r = lit "FAIL" <-> no_date \/ no_total)
    /\ (compliance r = lit "WARN" <-> ~ (no_date \/ no_total))
    /\ (rules_triggered (metadata r) = [lit "POL-REQ-001"; lit "POL-CONF-100"]
        <-> no_date \/ no_total)
    /\ (rules_triggered (metadata r) = [lit "POL-CONF-100"]
        <-> ~ (no_date \/ no_total))
    /\ (In (REQUIRED_ISSUE (lit "merchant")) (issues r)
        <-> forallb is_space text = true)
    /\ (forall f, In (REQUIRED_ISSUE f) (issues r) ->
          flagged (issues r) f = true).
Proof.
  intros uuid_hex text words uc _ rcpt r no_date no_total.
  subst r. rewrite triggered_rules_listed. subst rcpt no_date no_total.
  change (compliance (validate_policy ?a ?b ?c)) with (aggregate (issues (validate_policy a b c))).
  rewrite parsed_as_map.
  generalize (receipt_id (parse_receipt_fields py_sum uuid_hex text words)).
  intro rid.
  pose proof (merchant_empty text words) as Hm.
  pose proof (merchant_empty_iff text words) as Hb.
  pose proof (blank_text_total text) as Hbt.
  pose proof (date_conf_cases text) as Hd.
  pose proof (total_conf_cases (receipt_lines_of text)) as Ht.
  pose proof (currency_conf_cases text) as [Hc _].
  set (m := fst (_find_merchant py_sum (receipt_lines_of text) words)) in *.
  set (mc := snd (_find_merchant py_sum (receipt_lines_of text) words)) in *.
  set (d := fst (_find_date text)) in *.
  set (dc := snd (_find_date text)) in *.
  set (t := fst (_find_total (receipt_lines_of text))) in *.
  set (tc := snd (_find_total (receipt_lines_of text))) in *.
  set (c := fst (_find_currency text)) in *.
  set (cc := snd (_find_currency text)) in *.
  assert (Hmt : m = [] -> t = []) by (intro E; apply Hbt, Hm, E).
  assert (Hmc : m = [] -> mc = 0.4%float) by (intro E; apply Hm, E).
  clearbody m mc d dc t tc c cc. clear Hm Hbt.
  destruct (parsed_flagged rid uc m mc d dc t tc c cc)
    as [Fm [Fd [Ft _]]].
  set (l := issues (validate_policy rid (parsed_map m mc d dc t tc c cc) uc))
    in *.
  assert (El : l = required_issues (parsed_map m mc d dc t tc c cc)
                   ++ confidence_issues (parsed_map m mc d dc t tc c cc)).
  { subst l. rewrite issues_validate, parsed_meal, app_nil_r. reflexivity. }
  assert (Rq : forall f, In (REQUIRED_ISSUE f) l
                         <-> (f = lit "merchant" /\ m = [])
                             \/ (f = lit "date" /\ d = [])
                             \/ (f = lit "total" /\ t = [])).
  { intro f. rewrite <- (parsed_required_in f m mc d dc t tc c cc Hc).
    rewrite El, in_app_iff. split; [|auto].
    intros [H|H]; [exact H|].
    apply confidence_rule_id in H. discriminate. }
  assert (Cat : In CATEGORY_REVIEW l).
  { rewrite El, parsed_confidence. apply in_or_app. right.
    repeat (apply in_or_app; right). left. reflexivity. }
  assert (Fail : has_severity (lit "FAIL") l = true <-> d = [] \/ t = []).
  { split.
    - intro H. destruct (has_severity_exists _ _ H) as [i [Hi Hs]].
      rewrite El in Hi. apply in_app_or in Hi. destruct Hi as [Hi|Hi].
      + rewrite parsed_required in Hi.
        destruct m as [|m0 m']; [right; apply Hmt; reflexivity|].
        destruct d as [|d0 d']; [left; reflexivity|].
        destruct t as [|t0 t']; [right; reflexivity|].
        destruct c as [|c0 c']; [contradiction|].
        contradiction.
      + exfalso. pose proof (confidence_no_fail (parsed_map m mc d dc t tc c cc)) as N.
        rewrite (has_severity_In _ _ _ Hi Hs) in N. discriminate.
    - intros [E|E].
      + apply (has_severity_In _ _ (REQUIRED_ISSUE (lit "date")));
          [|reflexivity]. apply Rq. right. left. split; [reflexivity|exact E].
      + apply (has_severity_In _ _ (REQUIRED_ISSUE (lit "total")));
          [|reflexivity]. apply Rq. right. right. split; [reflexivity|exact E]. }
  assert (Warn : has_severity (lit "WARN") l = true)
    by (apply (has_severity_In _ _ CATEGORY_REVIEW Cat); reflexivity).
  assert (Treq : triggered l (lit "POL-REQ-001") = has_severity (lit "FAIL") l).
  { rewrite El. rewrite triggered_app, has_severity_app, confidence_no_fail.
    rewrite (triggered_all (confidence_issues _) (lit "POL-CONF-100"))
      by apply confidence_rule_id.
    rewrite andb_false_r, !orb_false_r.
    rewrite parsed_required.
    destruct (nonempty m), (nonempty d), (nonempty t), (nonempty c);
      reflexivity. }
  assert (Trig : filter (triggered l) ENGINE_RULES
                 = if has_severity (lit "FAIL") l
                   then [lit "POL-REQ-001"; lit "POL-CONF-100"]
                   else [lit "POL-CONF-100"]).
  { unfold ENGINE_RULES. cbn [filter]. rewrite Treq.
    assert (T2 : triggered l (lit "POL-CONF-100") = true).
    { unfold triggered. apply existsb_exists. exists CATEGORY_REVIEW.
      split; [exact Cat | reflexivity]. }
    assert (T3 : forall x, x = lit "POL-LIM-010" \/ x = lit "POL-PARSE-101" ->
                 triggered l x = false).
    { intros x Hx. rewrite El, triggered_app.
      rewrite (triggered_all (required_issues _) (lit "POL-REQ-001"))
        by apply required_rule_id.
      rewrite (triggered_all (confidence_issues _) (lit "POL-CONF-100"))
        by apply confidence_rule_id.
      destruct Hx as [-> | ->]; rewrite !andb_false_r; reflexivity. }
    rewrite T2, (T3 _ (or_introl eq_refl)), (T3 _ (or_intror eq_refl)).
    destruct (has_severity (lit "FAIL") l); reflexivity. }
  split; [|split; [|split; [|split; [|split; [|split]]]]].
  - intros i Hi. rewrite El in Hi. apply in_app_or in Hi.
    destruct Hi as [Hi|Hi];
      [left; exact (required_rule_id _ _ Hi)
      | right; exact (confidence_rule_id _ _ Hi)].
  - rewrite <- Fail. unfold aggregate.
    destruct (has_severity (lit "FAIL") l); [split; reflexivity|].
    rewrite Warn. split; discriminate.
  - rewrite <- Fail. unfold aggregate.
    destruct (has_severity (lit "FAIL") l).
    + split; [discriminate | intro H; exfalso; apply H; reflexivity].
    + rewrite Warn. split; [intros _; discriminate | reflexivity].
  - rewrite Trig, <- Fail.
    destruct (has_severity (lit "FAIL") l); split; try reflexivity;
      discriminate.
  - rewrite Trig, <- Fail.
    destruct (has_severity (lit "FAIL") l).
    + split; [discriminate | intro H; exfalso; apply H; reflexivity].
    + split; [intros _; discriminate | reflexivity].
  - rewrite Rq, <- Hb. split.
    + intros [[_ E]|[[E _]|[E _]]]; [exact E | discriminate | discriminate].
    + intro E. left. split; [reflexivity | exact E].
  - intros f Hf. apply Rq in Hf.
    destruct Hf as [[-> E]|[[-> E]|[-> E]]].
    + rewrite Fm, (Hmc E). reflexivity.
    + rewrite Fd. destruct Hd as [[_ Hd]|[Hd _]]; [|contradiction].
      rewrite Hd. reflexivity.
    + rewrite Ft. destruct Ht as [[_ Ht]|[Ht _]]; [|contradiction].
      rewrite Ht. reflexivity.
Qed.

(** X15: which fields of a receipt parsed from an ASCII text and ASCII
    words the confidence rule flags for review.  The category always; the
    currency exactly when none of the currency codes and symbols occurs in
    the text; the date exactly when no date was found; the total unless it
    was read with confidence 0.8, from a total line that agrees with
    subtotal plus tax or stands without them; and the merchant when its
    confidence is below 0.75. *)
Theorem parsed_receipt_flags :
  forall uuid_hex text words uc,
    isascii text = true ->
    ascii_words words = true ->
    let rcpt := parse_receipt_fields py_sum uuid_hex text words in
    let l := issues (validate_policy (receipt_id rcpt) (fields rcpt) uc) in
    flagged l (lit "category") = true
    /\ flagged l (lit "currency")
       = negb (existsb (fun t => contains t text) CURRENCY_TOKENS)
    /\ flagged l (lit "date") = negb (nonempty (fst (_find_date text)))
    /\ (flagged l (lit "total") = false
        <-> snd (_find_total (receipt_lines_of text)) = 0.8%float)
    /\ flagged l (lit "merchant")
       = (snd (_find_merchant py_sum (receipt_lines_of text) words) <? 0.75)%float.
Proof.
  intros uuid_hex text words uc _ _ rcpt l. subst l rcpt.
  rewrite parsed_as_map.
  match goal with
  | |- context [validate_policy ?rid (parsed_map ?m ?mc ?d ?dc ?t ?tc ?c ?cc) uc] =>
      destruct (parsed_flagged rid uc m mc d dc t tc c cc)
        as [Fm [Fd [Ft [Fc Fk]]]]
  end.
  split; [exact Fk|]. split; [|split; [|split; [|exact Fm]]].
  - rewrite Fc. unfold _find_currency, search.
    change CURRENCY_REGEX with (map (fun w => [Lit w]) CURRENCY_TOKENS).
    pose proof (search_literals CURRENCY_TOKENS text None) as S.
    destruct (search_from (map (fun w => [Lit w]) CURRENCY_TOKENS) None text)
      as [m|]; cbn [snd].
    + destruct S as [Hin [pre [post [Es _]]]].
      assert (X : existsb (fun t => contains t text) CURRENCY_TOKENS = true).
      { apply existsb_exists. exists m. split; [exact Hin|].
        rewrite Es. apply contains_app. }
      rewrite X. reflexivity.
    + assert (X : existsb (fun t => contains t text) CURRENCY_TOKENS = false).
      { destruct (existsb (fun t => contains t text) CURRENCY_TOKENS) eqn:X;
          [|reflexivity].
        apply existsb_exists in X. destruct X as [t [Ht Hc]].
        rewrite (S t Ht) in Hc. discriminate. }
      rewrite X. reflexivity.
  - rewrite Fd. destruct (date_conf_cases text) as [[E C]|[E [C|C]]];
      rewrite C.
    + rewrite E. reflexivity.
    + destruct (fst (_find_date text)); [contradiction | reflexivity].
    + destruct (fst (_find_date text)); [contradiction | reflexivity].
  - rewrite Ft.
    pose proof (find_total_conf (receipt_lines_of text)) as C.
    cbn [In] in C.
    destruct C as [C|[C|[C|[C|[C|[C|[]]]]]]]; rewrite <- C;
      split; intro H; try reflexivity; try discriminate;
      exfalso; revert H; vm_compute; discriminate.
Qed.

End ParsedVerdict.

Lemma parsed_receipt_verdict_witness :
  compliance
    (validate_policy
       (receipt_id (parse_receipt_fields sum_left (lit "0123456789abcdef")
                      (lit "ACME Store" ++ nl ++ lit "Total 9.99") []))
       (fields (parse_receipt_fields sum_left (lit "0123456789abcdef")
                  (lit "ACME Store" ++ nl ++ lit "Total 9.99") []))
       [])
  = lit "FAIL"
  <-> fst (_find_date (lit "ACME Store" ++ nl ++ lit "Total 9.99")) = []
      \/ fst (_find_total
                (receipt_lines_of (lit "ACME Store" ++ nl ++ lit "Total 9.99")))
         = [].
Proof.
  exact (proj1 (proj2
           (parsed_receipt_verdict sum_left (lit "0123456789abcdef")
              (lit "ACME Store" ++ nl ++ lit "Total 9.99") [] [] eq_refl))).
Defined.

Lemma parsed_receipt_flags_witness :
  flagged
    (issues
       (validate_policy
          (receipt_id (parse_receipt_fields sum_left (lit "0123456789abcdef")
                         (lit "ACME Store" ++ nl ++ lit "Total 9.99 EUR")
                         two_words))
          (fields (parse_receipt_fields sum_left (lit "0123456789abcdef")
                     (lit "ACME Store" ++ nl ++ lit "Total 9.99 EUR")
                     two_words))
          []))
    (lit "category")
  = true.
Proof.
  exact (proj1
           (parsed_receipt_flags sum_left (lit "0123456789abcdef")
              (lit "ACME Store" ++ nl ++ lit "Total 9.99 EUR") two_words []
              eq_refl eq_refl)).
Defined.

End ParsedVerdictFacts.


(** ** The explanation of a compliance result *)

Module ExplainerFacts.
Import Facts StringFacts PolicyFacts VerdictFacts.

Lemma dedupe_from_distinct :
  forall xs seen,
    dedupe_from seen xs
    = distinct_first
        (filter (fun x => nonempty x && negb (str_in x seen)) xs).
Proof.
  induction xs as [|x xs IH]; intro seen; [reflexivity|].
  cbn [dedupe_from filter].
  destruct (nonempty x && negb (str_in x seen)) eqn:T.
  - cbn [distinct_first]. f_equal. rewrite IH.
    rewrite <- distinct_first_filter, filter_filter_and. f_equal.
    apply filter_ext. intro y. unfold str_in. cbn [existsb].
    destruct (nonempty y), (str_eqb y x), (existsb (str_eqb y) seen);
      reflexivity.
  - apply IH.
Qed.

Lemma distinct_first_fixed :
  forall l, NoDup l -> distinct_first l = l.
Proof.
  induction l as [|x l IH]; intro H; [reflexivity|].
  inversion H as [|x' l' Hx Hl]; subst.
  cbn [distinct_first]. rewrite (IH Hl). f_equal.
  apply filter_all. intros y Hy.
  destruct (str_eqb y x) eqn:E; [|reflexivity].
  apply str_eqb_eq in E. subst y. contradiction.
Qed.

Lemma nonempty_true : forall x : str, nonempty x = true <-> x <> [].
Proof.
  intros [|c x]; split; intro H; try reflexivity; try discriminate.
  contradiction.
Qed.

Lemma dedupe_as_distinct :
  forall xs, _dedupe xs = distinct_first (filter nonempty xs).
Proof.
  intro xs. unfold _dedupe. rewrite dedupe_from_distinct. f_equal.
  apply filter_ext. intro x. unfold str_in. cbn [existsb negb].
  apply andb_true_r.
Qed.

Lemma dedupe_NoDup : forall xs, NoDup (_dedupe xs).
Proof. intro xs. rewrite dedupe_as_distinct. apply distinct_first_NoDup. Qed.

Lemma dedupe_In :
  forall xs x, In x (_dedupe xs) <-> In x xs /\ x <> [].
Proof.
  intros xs x. rewrite dedupe_as_distinct, distinct_first_In, filter_In.
  rewrite nonempty_true. reflexivity.
Qed.

(** X16: [_dedupe] keeps the first occurrence of every non-empty string and
    drops the rest: its result has no duplicate, holds exactly the non-empty
    strings of the list, in the order of their first occurrences, and is
    left as it is by a second pass. *)
Theorem dedupe_first_occurrences :
  forall xs,
    _dedupe xs = distinct_first (filter nonempty xs)
    /\ NoDup (_dedupe xs)
    /\ (forall x, In x (_dedupe xs) <-> In x xs /\ x <> [])
    /\ _dedupe (_dedupe xs) = _dedupe xs.
Proof.
  intro xs. split; [apply dedupe_as_distinct|].
  split; [apply dedupe_NoDup|]. split; [apply dedupe_In|].
  rewrite (dedupe_as_distinct (_dedupe xs)).
  rewrite filter_all.
  - apply distinct_first_fixed, dedupe_NoDup.
  - intros x Hx. apply dedupe_In in Hx. apply nonempty_true. tauto.
Qed.

(** *** The order of the explained issues *)

Lemma insert_front :
  forall (A : Type) (key : A -> nat) x l,
    (forall y, In y l -> key x <= key y) -> insert_by key x l = x :: l.
Proof.
  intros A key x [|y l] H; [reflexivity|]. cbn [insert_by].
  replace (Nat.leb (key x) (key y)) with true; [reflexivity|].
  symmetry. apply Nat.leb_le. apply H. left. reflexivity.
Qed.

Lemma insert_skip :
  forall (A : Type) (key : A -> nat) x pre rest,
    (forall y, In y pre -> key y < key x) ->
    insert_by key x (pre ++ rest) = pre ++ insert_by key x rest.
Proof.
  intros A key x pre rest. induction pre as [|p pre IH]; intro H;
    [reflexivity|].
  cbn [app insert_by].
  replace (Nat.leb (key x) (key p)) with false.
  - f_equal. apply IH. intros y Hy. apply H. right. exact Hy.
  - symmetry. apply Nat.leb_gt. apply H. left. reflexivity.
Qed.

Lemma sev_rank_values :
  forall i, sev_rank i = 0 \/ sev_rank i = 1 \/ sev_rank i = 9.
Proof.
  intro i. unfold sev_rank.
  destruct (str_eqb _ (lit "FAIL")); [auto|].
  destruct (str_eqb _ (lit "WARN")); auto.
Qed.

Lemma by_rank_key :
  forall k l y, In y (by_rank k l) -> sev_rank y = k.
Proof.
  intros k l y H. unfold by_rank in H. apply filter_In in H.
  destruct H as [_ H]. apply Nat.eqb_eq in H. exact H.
Qed.

(** The stable sort by severity rank puts the failures first, then the
    warnings, then the rest, each group in its order. *)
Lemma sorted_by_rank :
  forall l,
    sorted sev_rank l = by_rank 0 l ++ by_rank 1 l ++ by_rank 9 l.
Proof.
  induction l as [|x l IH]; [reflexivity|].
  cbn [sorted fold_right]. fold (sorted sev_rank l). rewrite IH.
  unfold by_rank at 4 5 6. cbn [filter]. fold (by_rank 0 l) (by_rank 1 l)
    (by_rank 9 l).
  destruct (sev_rank_values x) as [E|[E|E]]; rewrite E; cbn [Nat.eqb].
  - apply insert_front. intros y _. rewrite E. lia.
  - rewrite insert_skip.
    + f_equal. apply insert_front. intros y Hy. rewrite E.
      apply in_app_or in Hy.
      destruct Hy as [Hy|Hy]; rewrite (by_rank_key _ _ _ Hy); lia.
    + intros y Hy. rewrite (by_rank_key _ _ _ Hy), E. lia.
  - rewrite app_assoc, insert_skip.
    + rewrite <- app_assoc. do 2 f_equal.
      apply insert_front. intros y Hy. rewrite E.
      rewrite (by_rank_key _ _ _ Hy). lia.
    + intros y Hy. rewrite E. apply in_app_or in Hy.
      destruct Hy as [Hy|Hy]; rewrite (by_rank_key _ _ _ Hy); lia.
Qed.

(** X17: what an explanation lists.  Without issues the explainer returns
    its fixed text and no question.  Otherwise the explanation is the fixed
    head, one bullet per listed issue, and the fixed tail, where the listed
    issues are the failures, then the warnings and the issues without a
    severity, then the others, each group in the order of the input, cut
    after six; the field map and the user's question are not looked at. *)
Theorem explanation_lists_failures_first :
  forall fields issues rule_summaries user_question,
    let e := mock_explain_with_policy fields issues rule_summaries
               user_question in
    (issues = [] ->
     explanation e = NO_ISSUES_TEXT /\ clarification_questions e = [])
    /\ (issues <> [] ->
        explanation e
        = EXPLANATION_HEAD
            ++ join nl (map (bullet rule_summaries) (explained issues))
            ++ EXPLANATION_TAIL
        /\ clarification_questions e
           = firstn 5 (_dedupe (flat_map clarification (explained issues))))
    /\ length (explained issues) = Nat.min 6 (length issues).
Proof.
  intros fields issues rule_summaries user_question e. subst e.
  split; [|split].
  - intros ->. split; reflexivity.
  - intro H. destruct issues as [|i rest]; [contradiction|].
    unfold mock_explain_with_policy, explained.
    rewrite sorted_by_rank. split; reflexivity.
  - unfold explained. rewrite <- sorted_by_rank, length_firstn. f_equal.
    induction issues as [|x l IH]; [reflexivity|].
    cbn [sorted fold_right length]. fold (sorted sev_rank l).
    rewrite <- IH. clear IH.
    induction (sorted sev_rank l) as [|y s IHs]; [reflexivity|].
    cbn [insert_by]. destruct (Nat.leb (sev_rank x) (sev_rank y));
      [reflexivity|]. cbn [length]. f_equal. exact IHs.
Qed.

Lemma explanation_lists_failures_first_witness :
  explanation
    (mock_explain_with_policy []
       [ issue_dict (REVIEW_ISSUE (lit "date") 0.3%float);
         issue_dict (REQUIRED_ISSUE (lit "total")) ] [] [])
  = EXPLANATION_HEAD
      ++ join nl
           (map (bullet [])
              [ issue_dict (REQUIRED_ISSUE (lit "total"));
                issue_dict (REVIEW_ISSUE (lit "date") 0.3%float) ])
      ++ EXPLANATION_TAIL.
Proof.
  refine (proj1 (proj1 (proj2 (explanation_lists_failures_first []
                                 [ issue_dict (REVIEW_ISSUE (lit "date") 0.3%float);
                                   issue_dict (REQUIRED_ISSUE (lit "total")) ]
                                 [] [])) _)).
  discriminate.
Defined.

(** *** The questions *)

Lemma in_insert_by :
  forall (A : Type) (key : A -> nat) x y l,
    In y (insert_by key x l) <-> y = x \/ In y l.
Proof.
  intros A key x y. induction l as [|z l IH]; cbn [insert_by In].
  - split; [intros [H|[]]; auto | intros [H|[]]; auto].
  - destruct (Nat.leb (key x) (key z)); cbn [In].
    + split; [intros [H|H]; auto | intros [H|H]; auto].
    + rewrite IH. split; [intros [H|[H|H]]; auto | intros [H|[H|H]]; auto].
Qed.

Lemma in_sorted :
  forall (A : Type) (key : A -> nat) y l, In y (sorted key l) <-> In y l.
Proof.
  intros A key y. induction l as [|x l IH]; [reflexivity|].
  cbn [sorted fold_right In]. fold (sorted key l).
  rewrite in_insert_by, IH. split; intros [H|H]; auto.
Qed.

Lemma NoDup_firstn :
  forall (A : Type) n (l : list A), NoDup l -> NoDup (firstn n l).
Proof.
  intros A n l H. rewrite <- (firstn_skipn n l) in H.
  exact (NoDup_app_remove_r _ _ H).
Qed.

Lemma clarification_inv :
  forall i c,
    In c (clarification i) ->
    clarification i = [c]
    /\ In (or_default (get_rule_id i) (lit "UNKNOWN")) (map fst RULE_SUMMARIES).
Proof.
  intros i c. unfold clarification.
  generalize (or_default (get_rule_id i) (lit "UNKNOWN")).
  generalize (or_default (get_field i) (lit "unknown field")).
  intros f rid. cbv zeta.
  repeat match goal with
         | |- In _ (if str_eqb rid ?k then _ else _) -> _ =>
             let E := fresh "E" in
             destruct (str_eqb rid k) eqn:E;
             [apply str_eqb_eq in E; subst rid; intros [<-|[]];
              split; [reflexivity | cbn; tauto]|]
         end.
  contradiction.
Qed.

(** X18: the clarification questions of an explanation are at most five,
    pairwise different and never empty; each of them is the question of one
    of the issues handed in, and only the ten rules of the rule catalog have
    a question. *)
Theorem clarification_questions_bounded :
  forall fields issues rule_summaries user_question,
    let out := clarification_questions
                 (mock_explain_with_policy fields issues rule_summaries
                    user_question) in
    length out <= 5
    /\ NoDup out
    /\ Forall (fun c => c <> []) out
    /\ (forall c, In c out ->
          exists i,
            In i issues /\ clarification i = [c]
            /\ In (or_default (get_rule_id i) (lit "UNKNOWN"))
                 (map fst RULE_SUMMARIES)).
Proof.
  intros fields issues rule_summaries user_question out. subst out.
  destruct issues as [|i0 rest].
  { cbn [mock_explain_with_policy clarification_questions length].
    split; [lia|]. split; [constructor|]. split; [constructor|].
    intros c []. }
  unfold mock_explain_with_policy. cbv zeta. cbn [clarification_questions].
  set (shown := firstn 6 (sorted sev_rank (i0 :: rest))).
  split; [apply firstn_le_length|].
  split; [apply NoDup_firstn, dedupe_NoDup|].
  split.
  - apply Forall_forall. intros c Hc. apply in_firstn in Hc.
    apply dedupe_In in Hc. tauto.
  - intros c Hc. apply in_firstn in Hc. apply dedupe_In in Hc.
    destruct Hc as [Hc _]. apply in_flat_map in Hc.
    destruct Hc as [i [Hi Hc]]. exists i.
    subst shown. apply in_firstn in Hi. apply in_sorted in Hi.
    split; [exact Hi|]. apply clarification_inv. exact Hc.
Qed.

(** *** Explaining the result of the policy engine *)

Lemma summary_map_get_miss :
  forall rs rid found,
    (forall r, In r rs -> rs_rule_id r <> rid) ->
    fold_left
      (fun found r =>
         match get_summary_rule_id r with
         | Some k => if str_eqb k rid then get_summary r else found
         | None => found
         end)
      (map summary_dict rs) found
    = found.
Proof.
  induction rs as [|r rs IH]; intros rid found H; [reflexivity|].
  cbn [map fold_left summary_dict get_summary_rule_id get_summary].
  destruct (str_eqb (rs_rule_id r) rid) eqn:E.
  - apply str_eqb_eq in E. exfalso. exact (H r (or_introl eq_refl) E).
  - apply IH. intros r' Hr'. apply H. right. exact Hr'.
Qed.

(** With one summary per rule, the summary map returns the summary of the
    rule. *)
Lemma summary_map_get_unique :
  forall rs r,
    NoDup (map rs_rule_id rs) -> In r rs ->
    summary_map_get (map summary_dict rs) (rs_rule_id r) = Some (summary r).
Proof.
  unfold summary_map_get. intros rs r. generalize (@None str).
  induction rs as [|x rs IH]; intros found N Hin; [contradiction|].
  cbn [map] in N. inversion N as [|k ks Hk Hks]; subst.
  cbn [map fold_left summary_dict get_summary_rule_id get_summary].
  destruct Hin as [->|Hin].
  - rewrite str_eqb_refl. apply summary_map_get_miss.
    intros r' Hr' E. apply Hk. rewrite <- E. apply in_map. exact Hr'.
  - destruct (str_eqb (rs_rule_id x) (rs_rule_id r)) eqn:E.
    + apply str_eqb_eq in E. exfalso. apply Hk. rewrite E.
      apply in_map. exact Hin.
    + apply IH; assumption.
Qed.

Lemma engine_summary_of :
  forall rid fields uc i,
    In i (issues (validate_policy rid fields uc)) ->
    exists s,
      dict_get RULE_SUMMARIES (rule_id i) = Some s
      /\ nonempty s = true
      /\ summary_map_get
           (map summary_dict (rule_summaries (validate_policy rid fields uc)))
           (rule_id i)
         = Some s.
Proof.
  intros rid fields uc i Hi.
  assert (Hid : In (rule_id i)
                  (map rs_rule_id
                     (rule_summaries (validate_policy rid fields uc)))).
  { rewrite engine_summary_ids. apply distinct_first_In.
    apply in_map. exact Hi. }
  apply in_map_iff in Hid. destruct Hid as [r [Er Hr]].
  assert (N : NoDup (map rs_rule_id
                       (rule_summaries (validate_policy rid fields uc))))
    by (rewrite engine_summary_ids; apply distinct_first_NoDup).
  pose proof (summary_map_get_unique _ r N Hr) as G. rewrite Er in G.
  pose proof (attach_from_summaries _ _ _ Hr) as Hs. rewrite Er in Hs.
  unfold summary_or_fallback in Hs.
  pose proof (engine_rule_ids rid fields uc i Hi) as Hin.
  destruct (dict_get RULE_SUMMARIES (rule_id i)) as [s|] eqn:D.
  - exists s. split; [reflexivity|].
    split; [exact (catalog_summaries_nonempty _ _ D)|].
    rewrite G, Hs. reflexivity.
  - exfalso. unfold ENGINE_RULES in Hin. cbn [In] in Hin.
    destruct Hin as [E|[E|[E|[E|[]]]]]; rewrite <- E in D; discriminate.
Qed.

Lemma engine_clarification :
  forall rid fields uc i,
    In i (issues (validate_policy rid fields uc)) ->
    exists a c, clarification (issue_dict i) = [a :: c].
Proof.
  intros rid fields uc i Hi.
  pose proof (engine_rule_ids rid fields uc i Hi) as Hin.
  unfold clarification, issue_dict. cbn [get_field get_rule_id or_default].
  unfold ENGINE_RULES in Hin. cbn [In] in Hin.
  destruct Hin as [E|[E|[E|[E|[]]]]]; rewrite <- E; do 2 eexists;
    vm_compute; reflexivity.
Qed.

(** X19: explaining a result of the policy engine.  The explanation is the
    fixed "no issues" text exactly when the verdict is PASS.  Otherwise the
    bullet of every issue shows its severity, rule and field with the
    summary of the rule from the catalog, never the message of the issue
    with its numbers; every issue has a question, so at least one question
    is asked. *)
Theorem explanation_of_policy_result :
  forall rid fields uc user_question,
    let r := validate_policy rid fields uc in
    let e := mock_explain_with_policy fields (map issue_dict (issues r))
               (map summary_dict (rule_summaries r)) user_question in
    (explanation e = NO_ISSUES_TEXT <-> compliance r = lit "PASS")
    /\ (forall i, In i (issues r) ->
          exists s,
            dict_get RULE_SUMMARIES (rule_id i) = Some s
            /\ bullet (map summary_dict (rule_summaries r)) (issue_dict i)
               = lit "- **" ++ severity i ++ lit "** `" ++ rule_id i
                   ++ lit "` (" ++ field i ++ lit "): " ++ s
            /\ clarification (issue_dict i) <> [])
    /\ (issues r <> [] -> clarification_questions e <> []).
Proof.
  intros rid fields uc user_question r e. subst e r. split; [|split].
  - rewrite pass_without_issue.
    destruct (issues (validate_policy rid fields uc)) as [|i l].
    + split; reflexivity.
    + split; [|discriminate]. intro H. exfalso. revert H.
      unfold mock_explain_with_policy. cbn [map explanation].
      unfold EXPLANATION_HEAD, NO_ISSUES_TEXT. discriminate.
  - intros i Hi.
    destruct (engine_summary_of rid fields uc i Hi) as [s [D [Ns G]]].
    exists s. split; [exact D|]. split.
    + unfold bullet, issue_dict.
      cbn [get_field get_severity get_rule_id get_message or_default].
      rewrite G. cbn [falsy or_default]. rewrite Ns. cbn [negb].
      rewrite <- !app_assoc. reflexivity.
    + destruct (engine_clarification rid fields uc i Hi) as [a [c E]].
      rewrite E. discriminate.
  - intro Hne.
    pose proof (engine_clarification rid fields uc) as Hc.
    destruct (issues (validate_policy rid fields uc)) as [|i0 l0];
      [contradiction|].
    unfold mock_explain_with_policy. cbn [map clarification_questions].
    set (ds := issue_dict i0 :: map issue_dict l0).
    assert (Hall : forall j, In j (firstn 6 (sorted sev_rank ds)) ->
              exists a c, clarification j = [a :: c]).
    { intros j Hj. apply in_firstn in Hj. apply in_sorted in Hj.
      change ds with (map issue_dict (i0 :: l0)) in Hj.
      apply in_map_iff in Hj. destruct Hj as [i [<- Hi]].
      apply Hc. exact Hi. }
    assert (Hs : sorted sev_rank ds <> []).
    { intro E. assert (I : In (issue_dict i0) (sorted sev_rank ds))
        by (apply in_sorted; left; reflexivity).
      rewrite E in I. contradiction. }
    destruct (sorted sev_rank ds) as [|j js]; [contradiction|].
    cbn [firstn] in *.
    destruct (Hall j (or_introl eq_refl)) as [a [c E]].
    cbn [flat_map]. rewrite E. cbn [app].
    unfold _dedupe. cbn [dedupe_from nonempty str_in existsb negb andb firstn].
    discriminate.
Qed.

Lemma explanation_of_policy_result_witness :
  clarification_questions
    (mock_explain_with_policy fields_without_total
       (map issue_dict (issues (validate_policy [] fields_without_total [])))
       (map summary_dict
          (rule_summaries (validate_policy [] fields_without_total [])))
       [])
  <> [].
Proof.
  refine (proj2 (proj2 (explanation_of_policy_result [] fields_without_total
                          [] [])) _).
  vm_compute. discriminate.
Defined.

End ExplainerFacts.


(** ** The words and the text that the OCR step hands to the parser *)

Module OcrFacts.
Import Facts StringFacts AmountFacts EstimatorFacts MerchantFacts.

Lemma sf_nonneg_leb :
  forall y, sf_nonneg y -> SFleb (S754_zero false) y = true.
Proof.
  intros [s|s| |s m e] H; simpl in H; try contradiction;
    destruct s; try contradiction; reflexivity.
Qed.

(** A hundredth of a number that is not below zero is not below zero. *)
Lemma percent_nonneg :
  forall x : float, (0 <=? py_max2 0.0 x / 100.0)%float = true.
Proof.
  intro x. rewrite leb_spec, div_spec.
  change (Prim2SF 0) with (S754_zero false).
  apply sf_nonneg_leb. unfold py_max2.
  destruct (0.0 <? x)%float eqn:L.
  - rewrite ltb_spec in L. change (Prim2SF 0.0) with (S754_zero false) in L.
    replace (Prim2SF 100.0)
      with (S754_finite false 7036874417766400 (-46))
      by (vm_compute; reflexivity).
    unfold SF64div.
    destruct (Prim2SF x) as [s|s| |s m e]; try discriminate;
      destruct s; try discriminate.
    + exact I.
    + apply SFdiv_nonneg.
  - vm_compute. exact I.
Qed.

Lemma words_from_usable :
  forall texts i confs, Forall usable_word (words_from i texts confs).
Proof.
  induction texts as [|t texts IH]; intros i confs; [constructor|].
  cbn [words_from].
  destruct (strip match t with Some s => s | None => [] end) as [|a w] eqn:S.
  - cbn [nonempty negb]. apply IH.
  - cbn [nonempty negb]. constructor; [|apply IH].
    exists (a :: w), (py_max2 0.0 (conf_raw confs i) / 100.0)%float.
    split; [reflexivity|]. split; [discriminate|].
    split; [rewrite <- S; apply strip_idempotent|].
    split; [reflexivity | apply percent_nonneg].
Qed.

Lemma words_from_length :
  forall texts i confs,
    length (words_from i texts confs) = length (filter has_text texts).
Proof.
  induction texts as [|t texts IH]; intros i confs; [reflexivity|].
  cbn [words_from filter]. unfold has_text at 1.
  destruct (nonempty (strip match t with Some s => s | None => [] end));
    cbn [negb length]; rewrite IH; reflexivity.
Qed.

(** The word that the loop makes of the table row [i], when that row has a
    text. *)
Lemma words_from_row :
  forall texts i confs w,
    In w (words_from i texts confs) ->
    exists k t,
      nth_error texts k = Some t /\ has_text t = true
      /\ text w = Some (strip match t with Some s => s | None => [] end)
      /\ conf w = Some (py_max2 0.0 (conf_raw confs (i + k)) / 100.0)%float.
Proof.
  induction texts as [|t texts IH]; intros i confs w H; [contradiction|].
  cbn [words_from] in H.
  destruct (nonempty (strip match t with Some s => s | None => [] end)) eqn:N;
    cbn [negb] in H.
  - destruct H as [<-|H].
    + exists 0, t. rewrite Nat.add_0_r. repeat split. exact N.
    + destruct (IH _ _ _ H) as [k [t' [Hk [Ht [Hw Hc]]]]].
      exists (S k), t'. rewrite Nat.add_succ_r. repeat split; assumption.
  - destruct (IH _ _ _ H) as [k [t' [Hk [Ht [Hw Hc]]]]].
    exists (S k), t'. rewrite Nat.add_succ_r. repeat split; assumption.
Qed.

(** X20: the word list of [_ocr_once], for a table of the engine whose
    strings are ASCII.  Every word has a text that is stripped and not empty
    and a confidence that is a number and not below zero; there is one word
    per row with a text that is not blank; and a row whose confidence is
    missing, does not parse, or is not above zero gets the confidence 0. *)
Theorem ocr_words_usable :
  forall texts confs,
    ascii_rows texts = true ->
    ascii_confs confs = true ->
    Forall usable_word (words_from 0 texts confs)
    /\ length (words_from 0 texts confs) = length (filter has_text texts)
    /\ (forall w, In w (words_from 0 texts confs) ->
          exists k t,
            nth_error texts k = Some t /\ has_text t = true
            /\ text w = Some (strip match t with Some s => s | None => [] end)
            /\ conf w = Some (py_max2 0.0 (conf_raw confs k) / 100.0)%float
            /\ ((0 <? conf_raw confs k)%float = false ->
                conf w = Some 0.0%float)).
Proof.
  intros texts confs _ _. split; [apply words_from_usable|].
  split; [apply words_from_length|].
  intros w Hw. destruct (words_from_row _ _ _ _ Hw) as [k [t [Hk [Ht [Hx Hc]]]]].
  exists k, t. cbn [Nat.add] in Hc. repeat split; try assumption.
  intro L. rewrite Hc. unfold py_max2. rewrite L. reflexivity.
Qed.

Lemma ocr_words_usable_witness :
  exists k t,
    nth_error [Some (lit " Total "); None; Some (lit "9.99")] k = Some t
    /\ has_text t = true
    /\ Some (lit "9.99")
       = Some (strip match t with Some s => s | None => [] end)
    /\ Some 0.0%float
       = Some (py_max2 0.0
                 (conf_raw (Some [VStr (lit "n/a"); VFloat 96.0%float]) k)
               / 100.0)%float
    /\ ((0 <? conf_raw (Some [VStr (lit "n/a"); VFloat 96.0%float]) k)%float
        = false ->
        Some 0.0%float = Some 0.0%float).
Proof.
  apply (proj2 (proj2 (ocr_words_usable
                         [Some (lit " Total "); None; Some (lit "9.99")]
                         (Some [VStr (lit "n/a"); VFloat 96.0%float])
                         eq_refl eq_refl))
           {| text := Some (lit "9.99"); conf := Some 0.0%float |}).
  vm_compute. right. left. reflexivity.
Defined.

(** *** From the OCR words to the confidence estimate *)

Lemma usable_matching_confs :
  forall fold tokens ws,
    Forall usable_word ws ->
    matching_confs fold ws tokens
    = map conf_value (filter (token_matchb fold tokens) ws).
Proof.
  intros fold tokens ws H. induction H as [|w ws Hw Hws IH]; [reflexivity|].
  unfold matching_confs in *. cbn [flat_map filter].
  destruct (token_matchb fold tokens w); [|exact IH].
  destruct Hw as [t [c [_ [_ [_ [Hc Hp]]]]]].
  unfold nonneg_conf, conf_value. cbn [map]. rewrite Hc, Hp.
  cbn [app]. f_equal. exact IH.
Qed.

Section OcrEstimate.

Variable py_sum : list float -> float.

(** X21: on the words that the OCR step makes of an ASCII table, and for
    ASCII tokens, [_avg_conf] drops no word for its confidence: the
    confidences it averages are those of all words whose text matches a
    token.  With tokens, the estimate is their mean when some word matches,
    and 0.5 when none does. *)
Theorem ocr_words_all_count :
  forall texts confs tokens,
    ascii_rows texts = true ->
    ascii_confs confs = true ->
    ascii_strs tokens = true ->
    let ws := words_from 0 texts confs in
    let hits := filter (token_matchb lower tokens) ws in
    matched_confs ws tokens = map conf_value hits
    /\ (tokens <> [] -> hits <> [] ->
        _avg_conf py_sum ws tokens = mean py_sum (map conf_value hits))
    /\ (tokens <> [] -> hits = [] -> _avg_conf py_sum ws tokens = 0.5%float).
Proof.
  intros texts confs tokens _ _ _ ws hits.
  assert (E : matched_confs ws tokens = map conf_value hits).
  { rewrite matched_confs_matching. apply usable_matching_confs.
    apply words_from_usable. }
  split; [exact E|]. unfold _avg_conf, avg_conf_with.
  change (matched_confs_with lower ws tokens) with (matched_confs ws tokens).
  rewrite E.
  destruct tokens as [|t ts].
  - split; intro H; contradiction.
  - split; intros _ H.
    + destruct hits as [|h hs]; [contradiction|]. reflexivity.
    + rewrite H. reflexivity.
Qed.

End OcrEstimate.

Lemma ocr_words_all_count_witness :
  _avg_conf sum_left
    (words_from 0 [Some (lit "ACME"); Some (lit "Store")]
       (Some [VFloat 90.0%float; VFloat (-1.0)%float]))
    [lit "store"]
  = mean sum_left [0.0%float].
Proof.
  refine (proj1 (proj2 (ocr_words_all_count sum_left
                          [Some (lit "ACME"); Some (lit "Store")]
                          (Some [VFloat 90.0%float; VFloat (-1.0)%float])
                          [lit "store"] eq_refl eq_refl eq_refl)) _ _).
  - discriminate.
  - vm_compute. discriminate.
Defined.

(** *** The score of a reading and the choice between the two readings *)

Lemma no_digit_no_money :
  forall s skip prev,
    filter is_digit s = [] -> finditer_from MONEY_REGEX skip prev s = [].
Proof.
  induction s as [|c s IH]; intros skip prev H; [reflexivity|].
  cbn [filter] in H. destruct (is_digit c) eqn:D; [discriminate|].
  cbn [finditer_from]. destruct skip as [|k]; [|apply IH, H].
  unfold MONEY_REGEX at 1. cbn [match_here span]. rewrite D.
  cbn [length Nat.ltb Nat.leb]. apply IH, H.
Qed.

Lemma blank_no_digit :
  forall s, forallb is_space s = true -> filter is_digit s = [].
Proof.
  intros s H. apply (filter_all_false is_space is_digit s); [|exact H].
  intros c Hc. destruct (is_digit c) eqn:D; [|reflexivity].
  destruct (DateFacts.digit_classes c D) as [E _]. congruence.
Qed.

Lemma score_lines :
  forall text,
    length (filter (fun l => nonempty (strip l)) (splitlines text))
    = length (receipt_lines_of text).
Proof. intro text. unfold receipt_lines_of. rewrite length_map. reflexivity. Qed.

Lemma score_zero :
  forall text, _score_text text = 0 <-> forallb is_space text = true.
Proof.
  intro text. unfold _score_text. cbv zeta. rewrite score_lines. split.
  - intro H. apply receipt_lines_nil. apply length_zero_iff_nil. lia.
  - intro H. rewrite (blank_no_digit text H).
    unfold finditer. rewrite (no_digit_no_money text 0 None (blank_no_digit text H)).
    apply receipt_lines_nil in H. rewrite H. reflexivity.
Qed.

(** X22: the choice of [ocr_with_conf] between its two readings, when both
    texts are ASCII.  It returns the reading of segmentation mode 4 when
    that scores strictly higher, and the reading of mode 6 otherwise, so the
    text returned has the higher of the two scores.  An ASCII text scores 0
    exactly when it is blank, so a blank text is returned only when both
    readings are blank. *)
Theorem ocr_reading_choice :
  forall (Image : Type) image_to_string image_to_data (proc : Image),
    isascii (image_to_string proc 6) = true ->
    isascii (image_to_string proc 4) = true ->
    let r6 := _ocr_once Image image_to_string image_to_data proc 6 in
    let r4 := _ocr_once Image image_to_string image_to_data proc 4 in
    let r := ocr_with_conf Image image_to_string image_to_data proc in
    (_score_text (fst r6) < _score_text (fst r4) -> r = r4)
    /\ (_score_text (fst r4) <= _score_text (fst r6) -> r = r6)
    /\ _score_text (fst r)
       = Nat.max (_score_text (fst r6)) (_score_text (fst r4))
    /\ (forall text,
          isascii text = true ->
          (_score_text text = 0 <-> forallb is_space text = true))
    /\ (forallb is_space (fst r) = true ->
        forallb is_space (fst r6) = true /\ forallb is_space (fst r4) = true).
Proof.
  intros Image image_to_string image_to_data proc _ _ r6 r4 r.
  assert (Er : r = if Nat.ltb (_score_text (fst r6)) (_score_text (fst r4))
                   then r4 else r6).
  { subst r r4 r6. unfold ocr_with_conf, _ocr_once. cbn [fst].
    destruct (Nat.ltb _ _); reflexivity. }
  split; [|split; [|split; [|split]]].
  - intro H. apply Nat.ltb_lt in H. rewrite Er, H. reflexivity.
  - intro H. apply Nat.ltb_ge in H. rewrite Er, H. reflexivity.
  - rewrite Er.
    destruct (Nat.ltb (_score_text (fst r6)) (_score_text (fst r4))) eqn:L.
    + apply Nat.ltb_lt in L. lia.
    + apply Nat.ltb_ge in L. lia.
  - intros text _. apply score_zero.
  - intro H. apply score_zero in H.
    rewrite <- !score_zero. rewrite Er in H.
    destruct (Nat.ltb (_score_text (fst r6)) (_score_text (fst r4))) eqn:L.
    + apply Nat.ltb_lt in L. lia.
    + apply Nat.ltb_ge in L. lia.
Qed.

Lemma ocr_reading_choice_witness :
  ocr_with_conf unit
    (fun _ psm => if Nat.eqb psm 4 then lit "Total 9.99" else lit "T0tal")
    (fun _ _ => ([], None)) tt
  = _ocr_once unit
      (fun _ psm => if Nat.eqb psm 4 then lit "Total 9.99" else lit "T0tal")
      (fun _ _ => ([], None)) tt 4.
Proof.
  apply (proj1 (ocr_reading_choice unit
                  (fun _ psm => if Nat.eqb psm 4 then lit "Total 9.99"
                                else lit "T0tal")
                  (fun _ _ => ([], None)) tt eq_refl eq_refl)).
  vm_compute. lia.
Defined.

End OcrFacts.
